(** * Ask-Gemini-Extension: a verification model of the content script

    This development embeds the selection-extraction and quote/compose/send
    logic of [content.js], its lookup of the send button, and the display
    encoding and the handlers of the settings popup ([popup.js]), and
    proves properties of them.  The repository holds two
    generations of the content script; the model follows the later one
    (quote chip and send interception).  The table serializer, the text
    serializer and the substitution of the citation template are the
    same in both.

    Conventions of the embedding:
    - a JavaScript string is a [string]; one [ascii] stands for one code
      unit (the functions below never look inside a code unit, they only
      compare it with the few ASCII characters the source names);
    - a DOM tree is an inductive [node]; mutation of a detached fragment
      is modelled by rebuilding the tree;
    - host calls that can throw return a [result];
    - the script's module-level variables are the fields of a record
      that every handler takes and returns; deferred callbacks wait in a
      list and run when the event loop picks them, in any order. *)

From Stdlib Require Import String Ascii List Bool Arith Lia.
Import ListNotations.
Open Scope string_scope.
Open Scope list_scope.

Set Implicit Arguments.

(* ===================================================================== *)
(** ** JavaScript string primitives used by the source                    *)
(* ===================================================================== *)

Module Js.

Definition LF : ascii := "010"%char.
Definition BACKSLASH : ascii := "092"%char.

(** [s.length] *)
Definition len (s : string) : nat := String.length s.

(** White space and line terminators stripped by [trim]/[trimEnd]
    (those that fit one code unit below 256). *)
Definition isWhiteSpace (c : ascii) : bool :=
  (c =? "009")%char || (c =? "010")%char || (c =? "011")%char ||
  (c =? "012")%char || (c =? "013")%char || (c =? " ")%char ||
  (c =? "160")%char.

Fixpoint trimStart (s : string) : string :=
  match s with
  | "" => ""
  | String c s' => if isWhiteSpace c then trimStart s' else s
  end.

Fixpoint trimEnd (s : string) : string :=
  match s with
  | "" => ""
  | String c s' =>
      match trimEnd s' with
      | "" => if isWhiteSpace c then "" else String c ""
      | r => String c r
      end
  end.

(** [s.trim()] *)
Definition trim (s : string) : string := trimEnd (trimStart s).

(** [s.endsWith("\n")] *)
Fixpoint endsWithLF (s : string) : bool :=
  match s with
  | "" => false
  | String c "" => (c =? LF)%char
  | String _ s' => endsWithLF s'
  end.

(** [p] is a prefix of [s]: what is left of [s] after it. *)
Fixpoint stripPrefix (p s : string) : option string :=
  match p with
  | "" => Some s
  | String a p' =>
      match s with
      | "" => None
      | String b s' => if (a =? b)%char then stripPrefix p' s' else None
      end
  end.

(** The first occurrence of [pat] in [s] (what [indexOf] finds), as the
    text before it and the text after it. *)
Fixpoint splitAtFirst (pat s : string) : option (string * string) :=
  match stripPrefix pat s with
  | Some rest => Some ("", rest)
  | None =>
      match s with
      | "" => None
      | String c s' =>
          match splitAtFirst pat s' with
          | Some (pre, post) => Some (String c pre, post)
          | None => None
          end
      end
  end.

(** [s.indexOf(pat) !== -1] *)
Definition includes (pat s : string) : bool :=
  match splitAtFirst pat s with Some _ => true | None => false end.

(** Number of positions of [s] at which [pat] occurs. *)
Fixpoint occurrences (pat s : string) : nat :=
  match s with
  | "" => 0
  | String _ s' =>
      (match stripPrefix pat s with Some _ => 1 | None => 0 end)
      + occurrences pat s'
  end.

(** Number of code units of [s] equal to [c]. *)
Fixpoint countChar (c : ascii) (s : string) : nat :=
  match s with
  | "" => 0
  | String d s' => (if (d =? c)%char then 1 else 0) + countChar c s'
  end.

(** The replacement text of [String.prototype.replace] when the pattern
    is a string (no captures): [$$] is a dollar sign, [$&] the matched
    text, [$`] the text before the match, [$'] the text after it; any
    other [$] stands for itself. *)
Fixpoint getSubstitution (matched pre post replacement : string) : string :=
  match replacement with
  | "" => ""
  | String c r =>
      if (c =? "$")%char then
        match r with
        | "" => "$"
        | String d r' =>
            if (d =? "$")%char then
              String "$" (getSubstitution matched pre post r')
            else if (d =? "&")%char then
              matched ++ getSubstitution matched pre post r'
            else if (d =? "`")%char then
              pre ++ getSubstitution matched pre post r'
            else if (d =? "'")%char then
              post ++ getSubstitution matched pre post r'
            else String c (getSubstitution matched pre post r)
        end
      else String c (getSubstitution matched pre post r)
  end.

(** [s.replace(pat, replacement)] with a string pattern: only the first
    occurrence is replaced. *)
Definition replace (s pat replacement : string) : string :=
  match splitAtFirst pat s with
  | None => s
  | Some (pre, post) => pre ++ getSubstitution pat pre post replacement ++ post
  end.

(** ["x".repeat(n)] for a one-unit string. *)
Fixpoint repeatChar (c : ascii) (n : nat) : string :=
  match n with
  | 0 => ""
  | S n' => String c (repeatChar c n')
  end.

(** The pieces of [s] between the code units that satisfy [isSep]. *)
Fixpoint splitWhen (isSep : ascii -> bool) (s : string) : list string :=
  match s with
  | "" => [""]
  | String c s' =>
      if isSep c then "" :: splitWhen isSep s'
      else
        match splitWhen isSep s' with
        | [] => [String c ""]
        | h :: t => String c h :: t
        end
  end.

(** [s.split(sep)] for a one-unit separator. *)
Definition split (sep : ascii) (s : string) : list string :=
  splitWhen (fun c => (c =? sep)%char) s.

(** [parts.join(sep)] *)
Fixpoint join (sep : string) (parts : list string) : string :=
  match parts with
  | [] => ""
  | [x] => x
  | x :: rest => x ++ sep ++ join sep rest
  end.

(** [s.replace(/\n/g, " ")] and [s.replace(/\n/g, "\\n")]: every line
    feed becomes [repl]. *)
Fixpoint replaceEachLF (repl : string) (s : string) : string :=
  match s with
  | "" => ""
  | String c s' =>
      if (c =? LF)%char then repl ++ replaceEachLF repl s'
      else String c (replaceEachLF repl s')
  end.

(** [s.replace(/\n+/g, " ")]: every maximal run of line feeds becomes
    one space.  [inRun] tells that the previous unit was a line feed of
    the run being replaced. *)
Fixpoint replaceLFRuns (inRun : bool) (s : string) : string :=
  match s with
  | "" => ""
  | String c s' =>
      if (c =? LF)%char then
        if inRun then replaceLFRuns true s'
        else String " " (replaceLFRuns true s')
      else String c (replaceLFRuns false s')
  end.

(** What a maximal run of [run] line feeds becomes under
    [/\n{3,}/g -> "\n\n"]. *)
Definition flushRun (run : nat) : string :=
  if (3 <=? run)%nat then repeatChar LF 2 else repeatChar LF run.

(** [s.replace(/\n{3,}/g, "\n\n")], scanning left to right with the
    length of the run of line feeds read so far. *)
Fixpoint collapseRuns (run : nat) (s : string) : string :=
  match s with
  | "" => flushRun run
  | String c s' =>
      if (c =? LF)%char then collapseRuns (S run) s'
      else flushRun run ++ String c (collapseRuns 0 s')
  end.

Definition collapseBlankLines (s : string) : string := collapseRuns 0 s.

(** [s.replace(/\\n/g, "\n")]: every backslash followed by the letter n
    becomes one line feed. *)
Fixpoint replaceBackslashN (s : string) : string :=
  match s with
  | "" => ""
  | String c s' =>
      match s' with
      | String d s'' =>
          if (c =? BACKSLASH)%char && (d =? "n")%char
          then String LF (replaceBackslashN s'')
          else String c (replaceBackslashN s')
      | "" => String c ""
      end
  end.

(** JavaScript truthiness of a string. *)
Definition truthy (s : string) : bool :=
  match s with "" => false | _ => true end.

(** [a || b] on strings. *)
Definition orElse (a b : string) : string := if truthy a then a else b.

(** A call that may throw: its value, or the exception. *)
Inductive exn : Type := TypeError | DOMException.

Inductive result (A : Type) : Type :=
| Ok (a : A)
| Throw (e : exn).

Arguments Ok {A} a.
Arguments Throw {A} e.

Definition bind {A B : Type} (m : result A) (k : A -> result B) : result B :=
  match m with
  | Ok a => k a
  | Throw e => Throw e
  end.

(** [try { body } catch (e) { handler }] *)
Definition tryCatch {A : Type} (body : result A) (handler : exn -> result A)
  : result A :=
  match body with
  | Ok a => Ok a
  | Throw e => handler e
  end.

End Js.

(* ===================================================================== *)
(** ** Settings popup: display encoding of the citation format            *)
(* ===================================================================== *)

Module Popup.

(** [toDisplay(str)]: [str.replace(/\n/g, "\\n")] *)
Definition toDisplay (str : string) : string :=
  Js.replaceEachLF (String Js.BACKSLASH "n") str.

(** [fromDisplay(str)]: [str.replace(/\\n/g, "\n")] *)
Definition fromDisplay (str : string) : string :=
  Js.replaceBackslashN str.

End Popup.

Notation "x <- m ;; k" := (Js.bind m (fun x => k))
  (at level 61, m at next level, right associativity).

(* ===================================================================== *)
(** ** The rendered tree and the selectors the source queries it with     *)
(* ===================================================================== *)

Module Dom.

(** A node of the rendered tree.  [tagName] is kept in lower case (the
    source lower-cases it before every comparison but one, which is
    written with the lower-case name here).  [Other] is a node that is
    neither text, element nor fragment: a comment, with its data. *)
#[local] Set Warnings "-register-all".

Inductive node : Type :=
| Text (textContent : string)
| Other (data : string)
| Element (tagName : string) (attributes : list (string * string))
          (childNodes : list node)
| Fragment (childNodes : list node).

Definition childNodes (n : node) : list node :=
  match n with
  | Element _ _ ch => ch
  | Fragment ch => ch
  | _ => []
  end.

Definition isElement (n : node) : bool :=
  match n with Element _ _ _ => true | _ => false end.

Definition isText (n : node) : bool :=
  match n with Text _ => true | _ => false end.

(** [node.tagName ? node.tagName.toLowerCase() : ""] *)
Definition tagOf (n : node) : string :=
  match n with Element t _ _ => t | _ => "" end.

Fixpoint lookupAttr (name : string) (attrs : list (string * string))
  : option string :=
  match attrs with
  | [] => None
  | (k, v) :: rest => if (k =? name)%string then Some v else lookupAttr name rest
  end.

(** [el.getAttribute(name)]; [None] is [null]. *)
Definition getAttribute (name : string) (n : node) : option string :=
  match n with
  | Element _ attrs _ => lookupAttr name attrs
  | _ => None
  end.

Definition hasAttribute (name : string) (n : node) : bool :=
  match getAttribute name n with Some _ => true | None => false end.

Definition isAsciiSpace (c : ascii) : bool :=
  (c =? " ")%char || (c =? "009")%char || (c =? "010")%char ||
  (c =? "012")%char || (c =? "013")%char.

(** [el.classList]: the class attribute cut at white space. *)
Definition classList (n : node) : list string :=
  match getAttribute "class" n with
  | Some v => filter Js.truthy (Js.splitWhen isAsciiSpace v)
  | None => []
  end.

(** [el.classList.contains(c)] *)
Definition hasClass (c : string) (n : node) : bool :=
  existsb (String.eqb c) (classList n).

(** One compound selector: an optional tag, classes, and attributes that
    must be present (with the given value when one is written).  Names
    and values are compared as they are written. *)
Record compound : Type := Compound {
  selTag : option string;
  selClasses : list string;
  selAttrs : list (string * option string)
}.

(** A selector list [a, b, c]. *)
Definition selector : Type := list compound.

Definition byTag (t : string) : compound := Compound (Some t) [] [].
Definition byClass (c : string) : compound := Compound None [c] [].
Definition byAttr (a : string) : compound := Compound None [] [(a, None)].
Definition byAttrValue (a v : string) : compound :=
  Compound None [] [(a, Some v)].

Definition attrHolds (n : node) (av : string * option string) : bool :=
  match getAttribute (fst av) n, snd av with
  | Some x, Some y => (x =? y)%string
  | Some _, None => true
  | None, _ => false
  end.

Definition matchesCompound (n : node) (c : compound) : bool :=
  isElement n
  && match selTag c with Some t => (tagOf n =? t)%string | None => true end
  && forallb (fun k => hasClass k n) (selClasses c)
  && forallb (attrHolds n) (selAttrs c).

(** [el.matches(sel)] *)
Definition matches (n : node) (sel : selector) : bool :=
  existsb (matchesCompound n) sel.

(** The descendants of a node in document order. *)
Fixpoint descendants (n : node) : list node :=
  let fix walk (l : list node) : list node :=
    match l with
    | [] => []
    | c :: rest => c :: descendants c ++ walk rest
    end
  in
  match n with
  | Element _ _ ch => walk ch
  | Fragment ch => walk ch
  | _ => []
  end.

(** [root.querySelectorAll(sel)] and [root.querySelector(sel)] *)
Definition querySelectorAll (root : node) (sel : selector) : list node :=
  filter (fun d => matches d sel) (descendants root).

Definition querySelector (root : node) (sel : selector) : option node :=
  hd_error (querySelectorAll root sel).

Definition isComment (n : node) : bool :=
  match n with Other _ => true | _ => false end.

(** [node.textContent]: the data of a text node or of a comment; for an
    element or a fragment the texts below it one after the other, the
    comments among its descendants left out. *)
Fixpoint textContent (n : node) : string :=
  let fix cat (l : list node) : string :=
    match l with
    | [] => ""
    | Other _ :: rest => cat rest
    | c :: rest => (textContent c ++ cat rest)%string
    end
  in
  match n with
  | Text s => s
  | Other data => data
  | Element _ _ ch => cat ch
  | Fragment ch => cat ch
  end.

(** Length of the longest downward path. *)
Fixpoint height (n : node) : nat :=
  let fix top (l : list node) : nat :=
    match l with
    | [] => 0
    | c :: rest => Nat.max (S (height c)) (top rest)
    end
  in
  match n with
  | Element _ _ ch => top ch
  | Fragment ch => top ch
  | _ => 0
  end.

(** *** Nodes of the live document

    A node of the live document is reached from the document's root by
    a path of child indices.  A [located] node is that node together
    with its ancestors, innermost first; the empty list is [null]. *)

Definition path : Type := list nat.
Definition located : Type := list node.

Fixpoint visited (root : node) (p : path) : list node :=
  root ::
  match p with
  | [] => []
  | i :: p' =>
      match nth_error (childNodes root) i with
      | Some c => visited c p'
      | None => []
      end
  end.

Definition locate (root : node) (p : path) : located := rev (visited root p).

Fixpoint commonPrefix (p q : path) : path :=
  match p, q with
  | i :: p', j :: q' => if (i =? j)%nat then i :: commonPrefix p' q' else []
  | _, _ => []
  end.

(** [node.parentElement] *)
Definition parentElement (n : located) : located :=
  match n with
  | _ :: p :: rest => if isElement p then p :: rest else []
  | _ => []
  end.

(** [el.closest(sel)]: the nearest inclusive ancestor that matches. *)
Fixpoint closest (el : located) (sel : selector) : located :=
  match el with
  | [] => []
  | n :: rest => if matches n sel then el else closest rest sel
  end.

Definition isNull (n : located) : bool :=
  match n with [] => true | _ => false end.

(** The node itself, for a located node that is not [null]. *)
Definition self (n : located) : node :=
  match n with
  | [] => Other ""
  | x :: _ => x
  end.

(** *** Ranges and selections of the host *)

(** A range of the live document.  [cloneContents] and [intersectsNode]
    are the host's: the first gives the children of the fragment it
    builds, or throws; the second answers for a node of the document,
    or throws. *)
Record Range : Type := {
  document : node;
  startContainer : path;
  endContainer : path;
  cloneContents : Js.result (list node);
  intersectsNode : node -> Js.result bool
}.

(** [range.commonAncestorContainer] *)
Definition commonAncestorContainer (r : Range) : located :=
  locate (document r) (commonPrefix (startContainer r) (endContainer r)).

Record Selection : Type := {
  rangeCount : nat;
  getRangeAt0 : Range;
  toString : string
}.

(** *** Rebuilding a tree from the top

    [rewriteChildren enter visit ctx root] visits the descendants of
    [root] in document order.  [visit ctx' el] answers [Some r] when
    [el] is taken out of the tree and the nodes [r] put in its place
    (what lies below [el] then leaves the tree with it), and [None] when
    [el] stays and its own children are visited.  [enter] computes what
    the children of a node see of their ancestors. *)
Section Rewrite.
Variable C : Type.
Variable enter : C -> node -> C.
Variable visit : C -> node -> option (list node).

Fixpoint rewriteChildren (ctx : C) (n : node) : node :=
  let fix each (inner : C) (l : list node) : list node :=
    match l with
    | [] => []
    | c :: rest =>
        match visit inner c with
        | Some r => r ++ each inner rest
        | None => rewriteChildren inner c :: each inner rest
        end
    end
  in
  match n with
  | Element t a ch => Element t a (each (enter ctx n) ch)
  | Fragment ch => Fragment (each (enter ctx n) ch)
  | _ => n
  end.

End Rewrite.

End Dom.

(* ===================================================================== *)
(** ** content.js: selection validity, math extraction, serializers       *)
(* ===================================================================== *)

Module Content.
Import Dom.

(** *** Configuration *)

Definition DEFAULT_CITATION_FORMAT : string :=
  "Regarding the following selected content:" ++ String Js.LF
  ("------" ++ String Js.LF
  ("[SELECTED]" ++ String Js.LF
  ("------" ++ String Js.LF ""))).

Definition PLACEHOLDER : string := "[SELECTED]".

Definition RESPONSE_SELECTORS : list selector :=
  [ [byClass "model-response-text"];
    [byClass "response-container-content"];
    [byClass "response-container"];
    [byClass "message-content"];
    [byClass "markdown-main-panel"];
    [byClass "model-response"];
    [byAttrValue "data-message-author-role" "model"];
    [byClass "markdown"];
    [byClass "markdown-body"] ].

Definition EXCLUDE_SELECTORS : list selector :=
  [ [byTag "rich-textarea"];
    [byClass "text-input-field"];
    [byClass "input-area-container"];
    [byClass "input-area"];
    [byTag "button"];
    [byAttrValue "role" "button"];
    [byClass "toolbar"];
    [byClass "action-bar"] ].

(** *** DOM helpers *)

(** The element a handler starts from: the node, or its parent element
    when the node is a text node. *)
Definition elementOf (n : located) : located :=
  if isText (self n) then parentElement n else n.

(** [isInsideSelector(node, selectors)] *)
Definition isInsideSelector (n : located) (selectors : list selector) : bool :=
  let el := elementOf n in
  if isNull el || negb (isElement (self el)) then false
  else
    existsb
      (fun sel => matches (self el) sel || negb (isNull (closest el sel)))
      selectors.

(** [isValidSelectionArea(selection)]; [None] is a [null] selection. *)
Definition isValidSelectionArea (selection : option Selection) : bool :=
  match selection with
  | None => false
  | Some sel =>
      if (rangeCount sel =? 0)%nat then false
      else
        let range := getRangeAt0 sel in
        let container := commonAncestorContainer range in
        if isInsideSelector container EXCLUDE_SELECTORS then false
        else if isInsideSelector container RESPONSE_SELECTORS then true
        else true
  end.

(** *** Serializers *)

Definition ROWS : selector := [byTag "tr"].
Definition CELLS : selector := [byTag "th"; byTag "td"].

Fixpoint mapIndexedFrom (A B : Type) (f : A -> nat -> B) (i : nat)
  (l : list A) : list B :=
  match l with
  | [] => []
  | x :: rest => f x i :: mapIndexedFrom f (S i) rest
  end.

(** [arr.map(function (x, i) { ... })] *)
Definition mapIndexed (A B : Type) (f : A -> nat -> B) (l : list A) : list B :=
  mapIndexedFrom f 0 l.

Section Table.

(** The text of a cell: [getTextFromFragment], defined below. *)
Variable cellText : node -> string.

(** The matrix of trimmed one-line cell texts, one row per [tr]. *)
Definition tableMatrix (tableEl : node) : list (list string) :=
  map
    (fun tr =>
       map (fun cell => Js.replaceLFRuns false (Js.trim (cellText cell)))
           (querySelectorAll tr CELLS))
    (querySelectorAll tableEl ROWS).

(** Column count: the maximum over all rows. *)
Definition columnCount (matrix : list (list string)) : nat :=
  fold_left
    (fun colCount row =>
       if (colCount <? length row)%nat then length row else colCount)
    matrix 0.

(** [while (row.length < colCount) row.push("")] *)
Definition padRow (colCount : nat) (row : list string) : list string :=
  row ++ repeat "" (colCount - length row).

(** Width of column [c]: the longest cell, at least 3.  Every row has
    been padded, so [row[c]] is a string. *)
Definition columnWidth (matrix : list (list string)) (c : nat) : nat :=
  fold_left
    (fun max row =>
       if (max <? Js.len (nth c row ""))%nat then Js.len (nth c row "")
       else max)
    matrix 3.

Definition columnWidths (matrix : list (list string)) (colCount : nat)
  : list nat :=
  map (columnWidth matrix) (seq 0 colCount).

(** [pad(s, w)]: [while (s.length < w) s += " "] *)
Definition pad (s : string) (w : nat) : string :=
  (s ++ Js.repeatChar " " (w - Js.len s))%string.

(** One pipe-delimited line; [widths[i]] out of range pads nothing. *)
Definition rowLine (widths : list nat) (row : list string) : string :=
  ("| "
   ++ Js.join " | " (mapIndexed (fun cell i => pad cell (nth i widths 0)) row)
   ++ " |")%string.

Definition separatorLine (widths : list nat) : string :=
  ("| " ++ Js.join " | " (map (fun w => Js.repeatChar "-" w) widths)
   ++ " |")%string.

(** The lines of the Markdown table of a non-empty matrix. *)
Definition tableLines (matrix : list (list string)) : list string :=
  let colCount := columnCount matrix in
  let padded := map (padRow colCount) matrix in
  let widths := columnWidths padded colCount in
  let header := hd [] padded in
  rowLine widths header :: separatorLine widths
    :: map (rowLine widths) (tl padded).

(** [tableToMarkdown(tableEl)] *)
Definition tableToMarkdown (tableEl : node) : string :=
  match querySelectorAll tableEl ROWS with
  | [] => ""
  | _ :: _ =>
      let matrix := tableMatrix tableEl in
      match matrix with
      | [] => ""
      | _ :: _ => Js.join (String Js.LF "") (tableLines matrix)
      end
  end.

End Table.

Definition BLOCK_TAGS : list string :=
  [ "p"; "div"; "h1"; "h2"; "h3"; "h4"; "h5"; "h6";
    "li"; "blockquote"; "pre"; "hr"; "section"; "article" ].

Definition concatStrings (l : list string) : string :=
  fold_right String.append "" l.

(** [getTextFromFragment(node)].  The recursion of the source goes into
    the children of a node and, through [tableToMarkdown], into the
    cells of a table; [fuel] bounds its depth, and [getText] below gives
    it the depth of the tree. *)
Fixpoint getTextFromFragment (fuel : nat) (n : node) : string :=
  match fuel with
  | 0 => ""
  | S fuel' =>
      match n with
      | Text s => s
      | Other _ => ""
      | _ =>
          let tag := tagOf n in
          if (tag =? "table")%string then
            (String Js.LF (tableToMarkdown (getTextFromFragment fuel') n)
             ++ String Js.LF "")%string
          else if (tag =? "br")%string then String Js.LF ""
          else if ((tag =? "style") || (tag =? "script"))%string then ""
          else
            let result :=
              concatStrings (map (getTextFromFragment fuel') (childNodes n)) in
            if existsb (String.eqb tag) BLOCK_TAGS
               && Js.truthy result && negb (Js.endsWithLF result)
            then (result ++ String Js.LF "")%string
            else result
      end
  end.

Definition getText (n : node) : string :=
  getTextFromFragment (S (height n)) n.


(** *** Math extraction *)

Definition DATA_MATH : selector := [byAttr "data-math"].
Definition MATH_BLOCK : selector := [byClass "math-block"].
Definition MATH_INLINE : selector := [byClass "math-inline"].

(** [".katex, .katex-display, .MathJax, mjx-container, math,
    .math-inline, .math-block, [data-math]"] *)
Definition ANY_MATH : selector :=
  [ byClass "katex"; byClass "katex-display"; byClass "MathJax";
    byTag "mjx-container"; byTag "math"; byClass "math-inline";
    byClass "math-block"; byAttr "data-math" ].

(** [".katex-display, .katex, .katex-html"] *)
Definition ORPHANS : selector :=
  [ byClass "katex-display"; byClass "katex"; byClass "katex-html" ].

Definition MATH_BLOCK_DATA : selector :=
  [ Compound None ["math-block"] [("data-math", None)] ].
Definition MATH_INLINE_DATA : selector :=
  [ Compound None ["math-inline"] [("data-math", None)] ].
Definition KATEX_DISPLAY : selector := [byClass "katex-display"].
Definition KATEX : selector := [byClass "katex"].
Definition TEX_ANNOTATION : selector :=
  [ Compound (Some "annotation") [] [("encoding", Some "application/x-tex")] ].
Definition MJX_CONTAINER : selector := [byTag "mjx-container"].
Definition TEX_SCRIPT : selector :=
  [ Compound (Some "script") [] [("type", Some "math/tex")] ].
Definition MATHJAX : selector := [byClass "MathJax"].
Definition MATH : selector := [byTag "math"].
Definition HIDDEN_COPIES : selector :=
  [ byClass "katex-mathml"; byClass "MathJax_Preview"; byClass "katex-html" ].

(** [isBlock ? "$$" + latex + "$$" : "$" + latex + "$"] *)
Definition wrapMath (isBlock : bool) (latex : string) : string :=
  if isBlock then ("$$" ++ latex ++ "$$")%string
  else ("$" ++ latex ++ "$")%string.

(** A pass that needs nothing of the ancestors. *)
Definition rewriteEach (visit : node -> option (list node)) (root : node)
  : node :=
  rewriteChildren (fun (_ : unit) _ => tt) (fun _ => visit) tt root.

(** Phase 2 of the extraction: one math element of the document that
    intersects the range wraps every orphan that is not yet inside a
    [[data-math]] element.  The context tells whether an ancestor in
    the fragment carries the attribute. *)
Definition wrapOrphan (latex : string) (isBlock : bool) (insideData : bool)
  (el : node) : option (list node) :=
  if matches el ORPHANS && negb insideData && negb (hasAttribute "data-math" el)
  then
    Some [ Element (if isBlock then "div" else "span")
             [ ("class", if isBlock then "math-block" else "math-inline");
               ("data-math", latex) ]
             [ el ] ]
  else None.

Definition wrapOrphans (latex : string) (isBlock : bool) (fragment : node)
  : node :=
  rewriteChildren
    (fun insideData n => insideData || hasAttribute "data-math" n)
    (wrapOrphan latex isBlock) false fragment.

Definition isSearchStop (n : node) : bool :=
  hasClass "markdown" n || hasClass "response-container" n
  || hasClass "model-response-text" n.

(** [for (i = 0; i < 10 && searchRoot.parentElement; i++) ...] *)
Fixpoint searchRootFrom (steps : nat) (searchRoot : located) : located :=
  match steps with
  | 0 => searchRoot
  | S steps' =>
      match parentElement searchRoot with
      | [] => searchRoot
      | p :: rest =>
          if isSearchStop p then p :: rest
          else searchRootFrom steps' (p :: rest)
      end
  end.

(** [annotateMathFromOriginalDOM(fragment, range)].  It throws when the
    common ancestor is a text node without a parent element, or a node
    that cannot be queried. *)
Definition annotateMathFromOriginalDOM (fragment : node) (range : Range)
  : Js.result node :=
  match querySelectorAll fragment ORPHANS with
  | [] => Js.Ok fragment
  | _ :: _ =>
      let container := elementOf (commonAncestorContainer range) in
      if isNull container then Js.Throw Js.TypeError
      else
        let searchRoot := searchRootFrom 10 container in
        match self searchRoot with
        | Text _ | Other _ => Js.Throw Js.TypeError
        | _ =>
            let mathEls := querySelectorAll (self searchRoot) DATA_MATH in
            Js.Ok
              (fold_left
                 (fun frag mathEl =>
                    match intersectsNode range mathEl with
                    | Js.Ok true =>
                        wrapOrphans
                          (match getAttribute "data-math" mathEl with
                           | Some latex => latex
                           | None => ""
                           end)
                          (hasClass "math-block" mathEl) frag
                    | Js.Ok false => frag
                    | Js.Throw _ => frag
                    end)
                 mathEls fragment)
        end
  end.

(** Passes 0a and 0b of [replaceMathElements] *)
Definition replaceDataMath (sel : selector) (isBlock : bool) (el : node)
  : option (list node) :=
  if matches el sel then
    match getAttribute "data-math" el with
    | Some latex =>
        if Js.truthy latex then Some [Text (wrapMath isBlock latex)] else None
    | None => None
    end
  else None.

(** Passes 1 and 2: the TeX annotation inside the element or else the
    [data-math] attribute of the nearest inclusive ancestor.  The
    context is that attribute for the ancestors of the element. *)
Definition nearestDataMath (ctx : option string) (n : node) : option string :=
  match getAttribute "data-math" n with
  | Some v => Some v
  | None => ctx
  end.

Definition replaceKatex (sel : selector) (isBlock : bool)
  (ctx : option string) (el : node) : option (list node) :=
  if matches el sel then
    let latex :=
      match querySelector el TEX_ANNOTATION with
      | Some annotation => Some (textContent annotation)
      | None => nearestDataMath ctx el
      end in
    match latex with
    | Some l => if Js.truthy l then Some [Text (wrapMath isBlock l)] else None
    | None => None
    end
  else None.

(** Pass 3: MathJax 3 *)
Definition replaceMjxContainer (el : node) : option (list node) :=
  if matches el MJX_CONTAINER then
    let isDisplay :=
      match getAttribute "display" el with
      | Some d => (d =? "block")%string
      | None => false
      end in
    let fromScript :=
      match querySelector el TEX_SCRIPT with
      | Some script => textContent script
      | None => ""
      end in
    let latex :=
      if Js.truthy fromScript then fromScript
      else match getAttribute "aria-label" el with
           | Some a => a
           | None => ""
           end in
    if Js.truthy latex then Some [Text (wrapMath isDisplay latex)] else None
  else None.

(** Pass 4: MathJax 2, an element followed by its TeX script *)
Definition scriptType (n : node) : string :=
  match getAttribute "type" n with Some t => t | None => "" end.

Definition nextElementSibling (following : list node) : option node :=
  find isElement following.

Definition texScriptAfter (following : list node) : option node :=
  match nextElementSibling following with
  | Some s =>
      if (tagOf s =? "script")%string && Js.includes "math/tex" (scriptType s)
      then Some s else None
  | None => None
  end.

(** [dropNext] tells that the next element met is the script of the
    element just replaced, which the source removes. *)
Fixpoint replaceMathJax2 (n : node) : node :=
  let fix each (dropNext : bool) (l : list node) : list node :=
    match l with
    | [] => []
    | c :: rest =>
        if isElement c then
          if dropNext then each false rest
          else if matches c MATHJAX then
            match texScriptAfter rest with
            | Some nextScript =>
                Text (wrapMath (Js.includes "display" (scriptType nextScript))
                        (textContent nextScript))
                :: each true rest
            | None => replaceMathJax2 c :: each false rest
            end
          else replaceMathJax2 c :: each false rest
        else c :: each dropNext rest
    end
  in
  match n with
  | Element t a ch => Element t a (each false ch)
  | Fragment ch => Fragment (each false ch)
  | _ => n
  end.

(** Pass 5: MathML with a TeX annotation *)
Definition replaceMathML (el : node) : option (list node) :=
  if matches el MATH then
    match querySelector el TEX_ANNOTATION with
    | Some annotation =>
        let isDisplay :=
          match getAttribute "display" el with
          | Some d => (d =? "block")%string
          | None => false
          end in
        Some [Text (wrapMath isDisplay (textContent annotation))]
    | None => None
    end
  else None.

(** Pass 6: hidden duplicates *)
Definition removeHidden (el : node) : option (list node) :=
  if matches el HIDDEN_COPIES then Some [] else None.

(** [replaceMathElements(root)].  Each pass of the source takes the list
    of matching elements once and walks it in document order; replacing
    an element takes its subtree out of [root], so what the pass does to
    elements below it is not seen in [root].  The passes for KaTeX skip
    an element without a parent, which no element of the list is. *)
Definition replaceMathElements (root : node) : node :=
  let r0a := rewriteEach (replaceDataMath MATH_BLOCK_DATA true) root in
  let r0b := rewriteEach (replaceDataMath MATH_INLINE_DATA false) r0a in
  let r1 := rewriteChildren nearestDataMath (replaceKatex KATEX_DISPLAY true)
              None r0b in
  let r2 := rewriteChildren nearestDataMath (replaceKatex KATEX false)
              None r1 in
  let r3 := rewriteEach replaceMjxContainer r2 in
  let r4 := replaceMathJax2 r3 in
  let r5 := rewriteEach replaceMathML r4 in
  rewriteEach removeHidden r5.

(** Phase 0: the selection lies inside one math element of the
    document that carries its source. *)
Definition mathParentOf (ancestor : located) : located :=
  if isElement (self ancestor) then
    match closest ancestor DATA_MATH with
    | (_ :: _) as m => m
    | [] =>
        match closest ancestor MATH_BLOCK with
        | (_ :: _) as m => m
        | [] => closest ancestor MATH_INLINE
        end
    end
  else [].

Definition directLatex (ancestor : located) : option string :=
  match mathParentOf ancestor with
  | [] => None
  | mathParent :: _ =>
      match getAttribute "data-math" mathParent with
      | Some latex =>
          if Js.truthy latex
          then Some (wrapMath (hasClass "math-block" mathParent) latex)
          else None
      | None => None
      end
  end.

(** The body of the [try] block of [extractTextWithMath] *)
Definition extractTry (selection : Selection) : Js.result string :=
  let range := getRangeAt0 selection in
  let ancestor := elementOf (commonAncestorContainer range) in
  match directLatex ancestor with
  | Some text => Js.Ok text
  | None =>
      children <- cloneContents range ;;
      let fragment := Fragment children in
      match querySelector fragment ANY_MATH with
      | None => Js.Ok (Js.trim (toString selection))
      | Some _ =>
          annotated <- annotateMathFromOriginalDOM fragment range ;;
          let replaced := replaceMathElements annotated in
          let raw := Js.trim (getText replaced) in
          Js.Ok (Js.collapseBlankLines raw)
      end
  end.

(** [extractTextWithMath(selection)]; [None] is a [null] selection. *)
Definition extractTextWithMath (selection : option Selection)
  : Js.result string :=
  match selection with
  | None => Js.Ok ""
  | Some sel =>
      if (rangeCount sel =? 0)%nat then Js.Ok ""
      else
        Js.tryCatch (extractTry sel)
          (fun _ => Js.Ok (Js.trim (toString sel)))
  end.

End Content.

(* ===================================================================== *)
(** ** content.js: the quote chip, send interception and event handlers  *)
(* ===================================================================== *)

Module Controller.
Import Dom Content.

(** *** The host page as the handlers see it *)

(** What [findInputElement] finds, by the three tests of
    [injectFormattedText]: a content-editable element; the custom
    [rich-textarea] (with or without an inner editable element, in its
    own tree or its shadow root, and with or without a [value]
    property); a [textarea]; anything else. *)
Inductive InputSurface : Type :=
| ContentEditable
| RichTextarea (innerEditable : bool) (hasValue : bool)
| Textarea
| UnknownSurface.

Record Page : Type := {
  selection : option Selection;   (* window.getSelection() *)
  inputEl : option InputSurface;  (* findInputElement() *)
  inputText : string;             (* the text the input holds *)
  sendButton : bool;              (* findSendButton() !== null *)
  sendDisabled : bool;            (* that button is a disabled control *)
  inputFocused : bool;            (* the active element is in the input *)
  href : string                   (* location.href *)
}.

Inductive Origin : Type := User | Synthesized.

(** What reaches the host: the text written into its input, and the
    send gestures that its own handlers receive. *)
Inductive HostEffect : Type :=
| Injected (text : string)
| SendClick (origin : Origin)
| SendEnter (origin : Origin).

Definition isNativeSend (e : HostEffect) : bool :=
  match e with
  | Injected _ => false
  | SendClick _ => true
  | SendEnter _ => true
  end.

Definition nativeSends (log : list HostEffect) : nat :=
  length (filter isNativeSend log).

(** Deferred callbacks: those of [setTimeout], and the one of
    [requestAnimationFrame]. *)
Inductive Task : Type :=
| ReadSelection     (* handleMouseUp, 10 ms *)
| FocusInput        (* handleBubbleClick, 100 ms *)
| ShowChip          (* showQuoteChip, next frame *)
| TriggerSend       (* composeAndSend, 200 ms *)
| ClearBypass       (* composeAndSend, 300 ms after the send *)
| CheckUrl.         (* popstate, 50 ms *)

(** *** The content script's variables *)

Record State : Type := {
  page : Page;
  citationFormat : string;
  quotedText : string;
  quotedDisplayText : string;
  chipEl : bool;                  (* the chip element exists *)
  chipVisible : bool;             (* it carries the visible class *)
  isBypassingSend : bool;
  bubbleEl : bool;
  bubbleVisible : bool;
  currentSelectedText : string;
  currentDisplayText : string;
  lastUrl : string;
  pending : list (nat * Task);    (* delay in ms, callback *)
  hostLog : list HostEffect
}.

Definition withPage (p : Page) (s : State) : State :=
  Build_State p (citationFormat s) (quotedText s) (quotedDisplayText s)
    (chipEl s) (chipVisible s) (isBypassingSend s) (bubbleEl s)
    (bubbleVisible s) (currentSelectedText s) (currentDisplayText s)
    (lastUrl s) (pending s) (hostLog s).

Definition withCitationFormat (f : string) (s : State) : State :=
  Build_State (page s) f (quotedText s) (quotedDisplayText s)
    (chipEl s) (chipVisible s) (isBypassingSend s) (bubbleEl s)
    (bubbleVisible s) (currentSelectedText s) (currentDisplayText s)
    (lastUrl s) (pending s) (hostLog s).

Definition withQuote (text display : string) (s : State) : State :=
  Build_State (page s) (citationFormat s) text display
    (chipEl s) (chipVisible s) (isBypassingSend s) (bubbleEl s)
    (bubbleVisible s) (currentSelectedText s) (currentDisplayText s)
    (lastUrl s) (pending s) (hostLog s).

Definition withChip (el visible : bool) (s : State) : State :=
  Build_State (page s) (citationFormat s) (quotedText s) (quotedDisplayText s)
    el visible (isBypassingSend s) (bubbleEl s)
    (bubbleVisible s) (currentSelectedText s) (currentDisplayText s)
    (lastUrl s) (pending s) (hostLog s).

Definition withBypass (b : bool) (s : State) : State :=
  Build_State (page s) (citationFormat s) (quotedText s) (quotedDisplayText s)
    (chipEl s) (chipVisible s) b (bubbleEl s)
    (bubbleVisible s) (currentSelectedText s) (currentDisplayText s)
    (lastUrl s) (pending s) (hostLog s).

Definition withBubble (el visible : bool) (s : State) : State :=
  Build_State (page s) (citationFormat s) (quotedText s) (quotedDisplayText s)
    (chipEl s) (chipVisible s) (isBypassingSend s) el
    visible (currentSelectedText s) (currentDisplayText s)
    (lastUrl s) (pending s) (hostLog s).

Definition withSelectedText (text : string) (s : State) : State :=
  Build_State (page s) (citationFormat s) (quotedText s) (quotedDisplayText s)
    (chipEl s) (chipVisible s) (isBypassingSend s) (bubbleEl s)
    (bubbleVisible s) text (currentDisplayText s)
    (lastUrl s) (pending s) (hostLog s).

Definition withDisplayText (text : string) (s : State) : State :=
  Build_State (page s) (citationFormat s) (quotedText s) (quotedDisplayText s)
    (chipEl s) (chipVisible s) (isBypassingSend s) (bubbleEl s)
    (bubbleVisible s) (currentSelectedText s) text
    (lastUrl s) (pending s) (hostLog s).

Definition withLastUrl (u : string) (s : State) : State :=
  Build_State (page s) (citationFormat s) (quotedText s) (quotedDisplayText s)
    (chipEl s) (chipVisible s) (isBypassingSend s) (bubbleEl s)
    (bubbleVisible s) (currentSelectedText s) (currentDisplayText s)
    u (pending s) (hostLog s).

Definition withPending (l : list (nat * Task)) (s : State) : State :=
  Build_State (page s) (citationFormat s) (quotedText s) (quotedDisplayText s)
    (chipEl s) (chipVisible s) (isBypassingSend s) (bubbleEl s)
    (bubbleVisible s) (currentSelectedText s) (currentDisplayText s)
    (lastUrl s) l (hostLog s).

Definition withHostLog (l : list HostEffect) (s : State) : State :=
  Build_State (page s) (citationFormat s) (quotedText s) (quotedDisplayText s)
    (chipEl s) (chipVisible s) (isBypassingSend s) (bubbleEl s)
    (bubbleVisible s) (currentSelectedText s) (currentDisplayText s)
    (lastUrl s) (pending s) l.

(** [setTimeout(task, delay)] and [requestAnimationFrame(task)] *)
Definition setTimeout (task : Task) (delay : nat) (s : State) : State :=
  withPending (pending s ++ [(delay, task)]) s.

Definition requestAnimationFrame (task : Task) (s : State) : State :=
  withPending (pending s ++ [(0, task)]) s.

Definition reachesHost (e : HostEffect) (s : State) : State :=
  withHostLog (hostLog s ++ [e]) s.

(** The state of the script when [init] has run on a page. *)
Definition initial (p : Page) : State :=
  {| page := p;
     citationFormat := DEFAULT_CITATION_FORMAT;
     quotedText := "";
     quotedDisplayText := "";
     chipEl := false;
     chipVisible := false;
     isBypassingSend := false;
     bubbleEl := false;
     bubbleVisible := false;
     currentSelectedText := "";
     currentDisplayText := "";
     lastUrl := href p;
     pending := [];
     hostLog := [] |}.

(** *** Text injection *)

(** Whether [injectFormattedText] finds a surface it can write to. *)
Definition canInject (p : Page) : bool :=
  match inputEl p with
  | None => false
  | Some ContentEditable => true
  | Some (RichTextarea innerEditable hasValue) => innerEditable || hasValue
  | Some Textarea => true
  | Some UnknownSurface => false
  end.

(** Whether the surface written to is given the focus on the way. *)
Definition focusedByInject (p : Page) : bool :=
  match inputEl p with
  | Some ContentEditable => true
  | Some (RichTextarea innerEditable _) => innerEditable
  | Some Textarea => true
  | _ => inputFocused p
  end.

(** The text of the paragraphs that [injectIntoContentEditable] writes:
    one [p] element for each line of the text, an empty line as a [p]
    with a [br] in it, so that the [textContent] of the element is the
    lines one after the other, without the line feeds between them. *)
Definition paragraphsText (text : string) : string :=
  concatStrings (Js.split Js.LF text).

(** What the input holds when [injectFormattedText] has written [text]
    to it: the paragraphs of a content-editable element, or of the
    editable element inside a [rich-textarea]; the [value] of a
    [rich-textarea] without one, and of a [textarea]. *)
Definition writtenText (p : Page) (text : string) : string :=
  match inputEl p with
  | Some ContentEditable => paragraphsText text
  | Some (RichTextarea innerEditable _) =>
      if innerEditable then paragraphsText text else text
  | Some Textarea => text
  | _ => inputText p
  end.

(** [injectFormattedText(text)]: the state after it, and its result. *)
Definition injectFormattedText (text : string) (s : State) : State * bool :=
  if canInject (page s) then
    let p := page s in
    let p' := {| selection := selection p;
                 inputEl := inputEl p;
                 inputText := writtenText p text;
                 sendButton := sendButton p;
                 sendDisabled := sendDisabled p;
                 inputFocused := focusedByInject p;
                 href := href p |} in
    (reachesHost (Injected text) (withPage p' s), true)
  else (s, false).

(** [getUserInput()] *)
Definition getUserInput (p : Page) : string :=
  match inputEl p with
  | None => ""
  | Some UnknownSurface => ""
  | Some _ => Js.trim (inputText p)
  end.

(** *** Bubble and quote chip *)

(** [showBubble(rect)], which creates the bubble when there is none. *)
Definition showBubble (s : State) : State := withBubble true true s.

(** [hideBubble()] *)
Definition hideBubble (s : State) : State :=
  if bubbleEl s then withBubble true false s else s.

(** [showQuoteChip(text, visibleText)].  The preview text and the
    position of the chip are presentation and are left out; the chip
    becomes visible in the next frame. *)
Definition showQuoteChip (text visibleText : string) (s : State) : State :=
  let s1 := withQuote text (Js.orElse visibleText text) s in
  let s2 := withChip true (chipVisible s1) s1 in
  requestAnimationFrame ShowChip s2.

(** [hideQuoteChip()] *)
Definition hideQuoteChip (s : State) : State :=
  let s1 := withQuote "" "" s in
  if chipEl s1 then withChip true false s1 else s1.

(** [window.getSelection().removeAllRanges()] *)
Definition removeAllRanges (p : Page) : Page :=
  {| selection :=
       match selection p with
       | Some sel =>
           Some {| rangeCount := 0;
                   getRangeAt0 := getRangeAt0 sel;
                   toString := "" |}
       | None => None
       end;
     inputEl := inputEl p;
     inputText := inputText p;
     sendButton := sendButton p;
     sendDisabled := sendDisabled p;
     inputFocused := inputFocused p;
     href := href p |}.

(** [handleBubbleClick()] *)
Definition handleBubbleClick (s : State) : State :=
  if negb (Js.truthy (currentSelectedText s)) then hideBubble s
  else
    let s1 := showQuoteChip (currentSelectedText s) (currentDisplayText s) s in
    let s2 := withPage (removeAllRanges (page s1)) s1 in
    let s3 := hideBubble s2 in
    let s4 := withDisplayText "" (withSelectedText "" s3) in
    setTimeout FocusInput 100 s4.

(** *** Send interception *)

(** The message [composeAndSend] builds.  [citation] is also the text
    that [injectTextToInput] of the earlier script writes. *)
Definition citation (citationFormat quoted : string) : string :=
  Js.replace citationFormat PLACEHOLDER quoted.

Definition fullMessage (citationFormat quoted userInput : string) : string :=
  if Js.truthy userInput
  then (citation citationFormat quoted ++ String Js.LF "" ++ userInput)%string
  else Js.trimEnd (citation citationFormat quoted).

(** [composeAndSend()] *)
Definition composeAndSend (s : State) : State :=
  if negb (Js.truthy (quotedText s)) then s
  else
    let userInput := getUserInput (page s) in
    let message := fullMessage (citationFormat s) (quotedText s) userInput in
    let s1 := hideQuoteChip s in
    let (s2, success) := injectFormattedText message s1 in
    if negb success then s2
    else setTimeout TriggerSend 200 (withBypass true s2).

Inductive ClickTarget : Type :=
| OnSendButton      (* isSendButtonClick(target) holds *)
| OnBubble
| OnChipClose
| Elsewhere.

Definition isSendButtonClick (target : ClickTarget) : bool :=
  match target with OnSendButton => true | _ => false end.

(** A capture-phase handler either lets the event go on ([false]) or
    stops it ([true]: [preventDefault] and [stopPropagation]). *)

(** [handleSendClick(e)] *)
Definition handleSendClick (target : ClickTarget) (s : State) : State * bool :=
  if negb (Js.truthy (quotedText s)) || isBypassingSend s then (s, false)
  else if negb (isSendButtonClick target) then (s, false)
  else (composeAndSend s, true).

Inductive Key : Type := Enter | Space | Escape | OtherKey.

Definition isEnter (k : Key) : bool :=
  match k with Enter => true | _ => false end.

(** [handleEnterToSend(e)] *)
Definition handleEnterToSend (key : Key) (shiftKey : bool) (s : State)
  : State * bool :=
  if negb (Js.truthy (quotedText s)) || isBypassingSend s then (s, false)
  else if negb (isEnter key) || shiftKey then (s, false)
  else
    match inputEl (page s) with
    | None => (s, false)
    | Some _ =>
        if negb (inputFocused (page s)) then (s, false)
        else (composeAndSend s, true)
    end.

(** [handleKeyDown(e)] *)
Definition handleKeyDown (key : Key) (s : State) : State :=
  match key with
  | Escape =>
      let s1 := hideQuoteChip (hideBubble s) in
      withSelectedText "" (withPage (removeAllRanges (page s1)) s1)
  | _ => s
  end.

(** A click event, from the user or from [sendBtn.click()]: the
    capture-phase listener of the document first, then, unless it was
    stopped, the listeners of the target and of the host. *)
Definition dispatchClick (origin : Origin) (target : ClickTarget) (s : State)
  : State :=
  let (s1, stopped) := handleSendClick target s in
  if stopped then s1
  else
    match target with
    | OnSendButton => reachesHost (SendClick origin) s1
    | OnBubble => handleBubbleClick s1
    | OnChipClose => hideQuoteChip s1
    | Elsewhere => s1
    end.

(** A keydown event, from the user or from [inp.dispatchEvent]; it is
    sent to the input when the input has the focus or when the script
    sends it there itself, and [onBubble] tells that it is sent to the
    bubble.  An unshifted Enter that reaches the input is the host's
    send gesture. *)
Definition dispatchKeyDown (origin : Origin) (key : Key) (shiftKey : bool)
  (toInput onBubble : bool) (s : State) : State :=
  let s1 := handleKeyDown key s in
  let (s2, stopped) := handleEnterToSend key shiftKey s1 in
  if stopped then s2
  else if toInput then
    if isEnter key && negb shiftKey then reachesHost (SendEnter origin) s2
    else s2
  else if onBubble then
    match key with
    | Enter | Space => handleBubbleClick s2
    | _ => s2
    end
  else s2.

(** [onConversationChange()] *)
Definition onConversationChange (s : State) : State :=
  withDisplayText "" (withSelectedText "" (hideBubble (hideQuoteChip s))).

(** The URL test of the poll and of the popstate callback *)
Definition checkUrl (s : State) : State :=
  if negb (href (page s) =? lastUrl s)%string
  then onConversationChange (withLastUrl (href (page s)) s)
  else s.

(** *** Deferred callbacks *)

(** The callback of [handleMouseUp].  An exception of the extraction
    would end the callback where it is thrown. *)
Definition readSelection (s : State) : State :=
  let selection := selection (page s) in
  match
    (match selection with
     | Some _ => extractTextWithMath selection
     | None => Js.Ok ""
     end)
  with
  | Js.Throw _ => s
  | Js.Ok text =>
      if negb (Js.truthy text) then
        withDisplayText "" (withSelectedText "" (hideBubble s))
      else if negb (isValidSelectionArea selection) then
        withDisplayText "" (withSelectedText "" (hideBubble s))
      else
        let s1 := withSelectedText text s in
        let s2 :=
          withDisplayText
            (match selection with
             | Some sel => Js.trim (toString sel)
             | None => text
             end) s1 in
        showBubble s2
  end.

Definition focusPage (p : Page) : Page :=
  {| selection := selection p;
     inputEl := inputEl p;
     inputText := inputText p;
     sendButton := sendButton p;
     sendDisabled := sendDisabled p;
     inputFocused := true;
     href := href p |}.

(** The callback of [composeAndSend].  [sendBtn.click()] on a disabled
    control dispatches no event, and the Enter key is sent only when no
    button is found. *)
Definition triggerSend (s : State) : State :=
  let s1 :=
    if sendButton (page s) then
      if sendDisabled (page s) then s
      else dispatchClick Synthesized OnSendButton s
    else
      match inputEl (page s) with
      | Some _ => dispatchKeyDown Synthesized Enter false true false s
      | None => s
      end in
  setTimeout ClearBypass 300 s1.

Definition runTask (task : Task) (s : State) : State :=
  match task with
  | ReadSelection => readSelection s
  | FocusInput =>
      match inputEl (page s) with
      | Some _ => withPage (focusPage (page s)) s
      | None => s
      end
  | ShowChip => withChip (chipEl s) true s
  | TriggerSend => triggerSend s
  | ClearBypass => withBypass false s
  | CheckUrl => checkUrl s
  end.

(** *** Events *)

Inductive Event : Type :=
| MouseUp (onBubble : bool)
| MouseDown (onBubble : bool)
| Scroll
| UserKeyDown (key : Key) (shiftKey : bool) (onBubble : bool)
| UserClick (target : ClickTarget)
| StorageValue (value : string)   (* loaded or changed; empty when unset *)
| UrlPoll
| PopState
| Mutation (removedResponse : bool)
| Resize
| TimerFires (i : nat)            (* the i-th deferred callback runs *)
| HostChanges (p : Page).         (* the host or the user changes the page *)

Fixpoint removeNth (A : Type) (i : nat) (l : list A) : list A :=
  match l, i with
  | [], _ => []
  | _ :: rest, 0 => rest
  | x :: rest, S i' => x :: removeNth i' rest
  end.

Definition step (s : State) (e : Event) : State :=
  match e with
  | MouseUp onBubble =>
      if bubbleEl s && onBubble then s else setTimeout ReadSelection 10 s
  | MouseDown onBubble =>
      if bubbleEl s && negb onBubble then hideBubble s else s
  | Scroll => hideBubble s
  | UserKeyDown key shiftKey onBubble =>
      dispatchKeyDown User key shiftKey (inputFocused (page s))
        (bubbleEl s && onBubble) s
  | UserClick target => dispatchClick User target s
  | StorageValue value =>
      withCitationFormat (Js.orElse value DEFAULT_CITATION_FORMAT) s
  | UrlPoll => checkUrl s
  | PopState => setTimeout CheckUrl 50 s
  | Mutation removedResponse =>
      if negb (Js.truthy (quotedText s)) then s
      else if removedResponse then onConversationChange s
      else s
  | Resize => s
  | TimerFires i =>
      match nth_error (pending s) i with
      | Some (_, task) => runTask task (withPending (removeNth i (pending s)) s)
      | None => s
      end
  | HostChanges p => withPage p s
  end.

Definition run (s : State) (events : list Event) : State :=
  fold_left step events s.

End Controller.

(* ===================================================================== *)
(** ** Predicates used to state the properties                            *)
(* ===================================================================== *)

Module Props.
Import Dom Content Controller.

(** The string [s] has no code unit [c]. *)
Definition freeOf (c : ascii) (s : string) : Prop := Js.countChar c s = 0.

(** The last code unit of a string. *)
Fixpoint lastChar (s : string) : option ascii :=
  match s with
  | "" => None
  | String c "" => Some c
  | String _ s' => lastChar s'
  end.

(** No run of three or more line feeds in [s], when [run] line feeds
    stand just before it. *)
Fixpoint noLongRun (run : nat) (s : string) : bool :=
  match s with
  | "" => (run <? 3)%nat
  | String c s' =>
      if (c =? Js.LF)%char then noLongRun (S run) s'
      else (run <? 3)%nat && noLongRun 0 s'
  end.

(** No dollar sign of [s] is followed by a code unit with which it would
    make a replacement pattern of [replace]: a second dollar sign, [&],
    a backquote or an apostrophe. *)
Fixpoint noDollarPattern (s : string) : bool :=
  match s with
  | "" => true
  | String c s' =>
      match s' with
      | String d _ =>
          negb ((c =? "$")%char &&
                ((d =? "$")%char || (d =? "&")%char || (d =? "`")%char
                 || (d =? "'")%char))
          && noDollarPattern s'
      | "" => true
      end
  end.

(** No backslash of [s] is followed by the letter n. *)
Fixpoint noBackslashN (s : string) : bool :=
  match s with
  | "" => true
  | String c s' =>
      match s' with
      | String d _ =>
          negb ((c =? Js.BACKSLASH)%char && (d =? "n")%char) && noBackslashN s'
      | "" => true
      end
  end.

(** The element a located node starts from lies inside a region named
    by one of [selectors]: it or one of its ancestors matches. *)
Definition liesInside (n : located) (selectors : list selector) : Prop :=
  isElement (self (elementOf n)) = true /\
  exists a sel,
    In a (elementOf n) /\ In sel selectors /\ matches a sel = true.



(** The selection covers exactly one KaTeX rendering: its common
    ancestor is an element outside any math element, no math element of
    the document around it intersects the range, and the fragment cloned
    from it is one element without any [data-math] attribute in it, of
    class [katex-display], or of class [katex] with no [katex-display]
    in it, whose first TeX annotation holds the source [latex]. *)
Definition coversKatexElement (sel : Selection) (latex : string)
  (isBlock : bool) : Prop :=
  let range := getRangeAt0 sel in
  let container := commonAncestorContainer range in
  isElement (self container) = true /\
  directLatex (elementOf container) = None /\
  Forall (fun mathEl => intersectsNode range mathEl <> Js.Ok true)
    (querySelectorAll (self (searchRootFrom 10 container)) DATA_MATH) /\
  exists m annotation,
    cloneContents range = Js.Ok [m] /\
    querySelectorAll (Fragment [m]) DATA_MATH = [] /\
    querySelector m TEX_ANNOTATION = Some annotation /\
    textContent annotation = latex /\
    (if isBlock then hasClass "katex-display" m = true
     else hasClass "katex" m = true /\
          querySelectorAll (Fragment [m]) KATEX_DISPLAY = []).

(** [el.getAttribute("display") === "block"] *)
Definition displayIsBlock (m : node) : bool :=
  match getAttribute "display" m with
  | Some d => (d =? "block")%string
  | None => false
  end.

(** The selection covers exactly one MathJax 3 rendering: its common
    ancestor lies outside any math element, and the fragment cloned
    from it is one [mjx-container] element, without [data-math]
    attributes and KaTeX classes in it.  The source [latex] is the text
    of its first TeX script or, when it has no such script or the
    script is empty, its [aria-label]; it is a block when its [display]
    attribute is [block]. *)
Definition coversMjxContainer (sel : Selection) (latex : string)
  (isBlock : bool) : Prop :=
  let range := getRangeAt0 sel in
  directLatex (elementOf (commonAncestorContainer range)) = None /\
  exists m,
    cloneContents range = Js.Ok [m] /\
    querySelectorAll (Fragment [m]) DATA_MATH = [] /\
    querySelectorAll (Fragment [m]) ORPHANS = [] /\
    matches m MJX_CONTAINER = true /\
    match querySelector m TEX_SCRIPT with
    | Some script =>
        if Js.truthy (textContent script) then textContent script = latex
        else getAttribute "aria-label" m = Some latex
    | None => getAttribute "aria-label" m = Some latex
    end /\
    displayIsBlock m = isBlock.

(** The selection covers exactly one MathJax 2 rendering: the fragment
    cloned from it is an element of class [MathJax] followed by its
    script, whose type contains [math/tex] and whose text is the source
    [latex]; it is a block when the type contains [display].  Nothing
    in the fragment has a [data-math] attribute, a KaTeX class or the
    tag [mjx-container]. *)
Definition coversMathJax2 (sel : Selection) (latex : string)
  (isBlock : bool) : Prop :=
  let range := getRangeAt0 sel in
  directLatex (elementOf (commonAncestorContainer range)) = None /\
  exists m script,
    cloneContents range = Js.Ok [m; script] /\
    querySelectorAll (Fragment [m; script]) DATA_MATH = [] /\
    querySelectorAll (Fragment [m; script]) ORPHANS = [] /\
    querySelectorAll (Fragment [m; script]) MJX_CONTAINER = [] /\
    matches m MATHJAX = true /\
    isElement script = true /\
    tagOf script = "script" /\
    Js.includes "math/tex" (scriptType script) = true /\
    textContent script = latex /\
    Js.includes "display" (scriptType script) = isBlock.

(** The selection covers exactly one MathML element: the fragment
    cloned from it is one [math] element whose first TeX annotation
    holds the source [latex]; it is a block when its [display]
    attribute is [block].  Nothing in the fragment has a [data-math]
    attribute, a KaTeX class, the tag [mjx-container] or the class
    [MathJax]. *)
Definition coversMathML (sel : Selection) (latex : string)
  (isBlock : bool) : Prop :=
  let range := getRangeAt0 sel in
  directLatex (elementOf (commonAncestorContainer range)) = None /\
  exists m annotation,
    cloneContents range = Js.Ok [m] /\
    querySelectorAll (Fragment [m]) DATA_MATH = [] /\
    querySelectorAll (Fragment [m]) ORPHANS = [] /\
    querySelectorAll (Fragment [m]) MJX_CONTAINER = [] /\
    querySelectorAll (Fragment [m]) MATHJAX = [] /\
    matches m MATH = true /\
    querySelector m TEX_ANNOTATION = Some annotation /\
    textContent annotation = latex /\
    displayIsBlock m = isBlock.

(** A send gesture of the user that the script takes for itself when
    it holds a quote: a click on the send control, or an unshifted Enter
    while the input exists and has the focus. *)
Definition sendGesture (s : State) (e : Event) : Prop :=
  e = UserClick OnSendButton \/
  exists onBubble,
    e = UserKeyDown Enter false onBubble /\
    inputEl (page s) <> None /\
    inputFocused (page s) = true.

(** The window held the selection [sel] at some moment of the run of
    [events] from the start of the script on the page [p]. *)
Definition heldBefore (p : Page) (events : list Event) (sel : Selection)
  : Prop :=
  exists before after,
    events = before ++ after /\
    selection (page (run (initial p) before)) = Some sel.

Section Traced.

(** The selections that the texts may come from. *)
Variable origin : Selection -> Prop.

(** [text] was extracted from a selection whose trimmed visual text is
    [display]. *)
Definition selectedFrom (text display : string) : Prop :=
  exists sel,
    origin sel /\
    extractTextWithMath (Some sel) = Js.Ok text /\
    display = Js.trim (toString sel).

(** [text] was extracted from a selection, and [display] is the trimmed
    visual text of that selection, or [text] when it has none. *)
Definition quotedFrom (text display : string) : Prop :=
  exists sel,
    origin sel /\
    extractTextWithMath (Some sel) = Js.Ok text /\
    display = Js.orElse (Js.trim (toString sel)) text.

(** Where the texts that the script holds come from; and a quote has
    its chip. *)
Definition textsTraced (s : State) : Prop :=
  (currentSelectedText s <> "" ->
   selectedFrom (currentSelectedText s) (currentDisplayText s)) /\
  (quotedText s <> "" ->
   quotedFrom (quotedText s) (quotedDisplayText s) /\ chipEl s = true).

End Traced.

(** The callbacks of [composeAndSend] that wait: the deferred send and
    the deferred clearing of the bypass flag. *)
Definition isSendTask (t : nat * Task) : bool :=
  match snd t with
  | TriggerSend => true
  | ClearBypass => true
  | _ => false
  end.

Definition sendTasks (s : State) : nat :=
  length (filter isSendTask (pending s)).

(** The bypass flag is set exactly while one of these callbacks waits,
    and no two of them ever wait. *)
Definition bypassGuarded (s : State) : Prop :=
  (isBypassingSend s = false /\ sendTasks s = 0) \/
  (isBypassingSend s = true /\ sendTasks s = 1).

(** What a handler leaves alone of the flag and of the callbacks. *)
Definition keeps (s s' : State) : Prop :=
  isBypassingSend s' = isBypassingSend s /\ pending s' = pending s.

End Props.

(* ===================================================================== *)
(** ** Sample inputs                                                      *)
(* ===================================================================== *)

Module Samples.
Import Dom Content Controller.

Definition td (s : string) : node := Element "td" [] [Text s].
Definition tr (cells : list node) : node := Element "tr" [] cells.
Definition table (rows : list node) : node :=
  Element "table" [] [Element "tbody" [] rows].

(** The table [A, BB / CCC, D]. *)
Definition table2x2 : node :=
  table [tr [td "A"; td "BB"]; tr [td "CCC"; td "D"]].

(** A table of one column whose first cell has a pipe in its text. *)
Definition pipeTable : node := table [tr [td "a|b"]; tr [td "c"]].

(** A range of a document between two of its nodes, with the clone the
    host gives for it; every node asked for intersects it. *)
Definition plainRange (doc : node) (from to : path)
  (cloned : Js.result (list node)) : Range :=
  {| document := doc;
     startContainer := from;
     endContainer := to;
     cloneContents := cloned;
     intersectsNode := fun _ => Js.Ok true |}.

Definition oneRange (r : Range) (text : string) : Selection :=
  {| rangeCount := 1; getRangeAt0 := r; toString := text |}.

(** A paragraph of a response. *)
Definition answer : node :=
  Element "div" [("class", "markdown")]
    [ Element "p" [] [Text " The sky is blue "] ].

(** The text of the paragraph selected, on a host that throws when the
    range is cloned. *)
Definition unclonable : Selection :=
  oneRange (plainRange answer [0; 0] [0; 0] (Js.Throw Js.DOMException))
    " The sky is blue ".

(** An inline equation of a response, with its KaTeX rendering. *)
Definition inlineMath (latex : string) : node :=
  Element "span" [("class", "math-inline"); ("data-math", latex)]
    [ Element "span" [("class", "katex")]
        [ Element "span" [("class", "katex-html")] [Text "x"] ] ].

Definition equationLine (latex : string) : node :=
  Element "div" [("class", "markdown")]
    [ Element "p" [] [inlineMath latex] ].

(** The paragraph that holds the equation selected from end to end:
    the range starts and ends in the paragraph and its clone is the
    equation. *)
Definition wholeEquation (latex : string) : Selection :=
  oneRange
    (plainRange (equationLine latex) [0] [0] (Js.Ok [inlineMath latex]))
    "x".

(** A caret placed in the rendering of the equation: a collapsed range
    in its text node, with no visual text. *)
Definition caretInEquation (latex : string) : Selection :=
  oneRange
    (plainRange (equationLine latex) [0; 0; 0; 0; 0] [0; 0; 0; 0; 0]
       (Js.Ok []))
    "".

(** A KaTeX rendering with its hidden MathML copy, and a page without
    [data-math] attributes that shows it. *)
Definition katex (latex : string) : node :=
  Element "span" [("class", "katex")]
    [ Element "span" [("class", "katex-mathml")]
        [ Element "math" []
            [ Element "semantics" []
                [ Element "mrow" [] [Text "x"];
                  Element "annotation" [("encoding", "application/x-tex")]
                    [Text latex] ] ] ];
      Element "span" [("class", "katex-html")] [Text "x"] ].

Definition katexLine (latex : string) : node :=
  Element "div" [("class", "markdown")]
    [ Element "p" [] [katex latex] ].

Definition wholeKatex (latex : string) : Selection :=
  oneRange (plainRange (katexLine latex) [0] [0] (Js.Ok [katex latex])) "xx".

(** A MathJax 3 rendering with its source in a script; one with its
    source in its label only; and a line of a response that shows a
    rendering, selected from end to end. *)
Definition mjxContainer (latex : string) : node :=
  Element "mjx-container" [("class", "MathJax"); ("display", "block")]
    [ Element "svg" [] [];
      Element "script" [("type", "math/tex")] [Text latex] ].

Definition mjxLabelled (latex : string) : node :=
  Element "mjx-container" [("aria-label", latex)] [Element "svg" [] []].

Definition lineWith (content : list node) : node :=
  Element "div" [("class", "markdown")] [Element "p" [] content].

Definition wholeLine (content : list node) (text : string) : Selection :=
  oneRange (plainRange (lineWith content) [0] [0] (Js.Ok content)) text.

(** A MathJax 2 rendering and the script that follows it. *)
Definition mathJax2 (latex : string) : list node :=
  [ Element "span" [("class", "MathJax")] [Text "E=mc2"];
    Element "script" [("type", "math/tex")] [Text latex] ].

(** A MathML element with a TeX annotation. *)
Definition mathML (latex : string) : node :=
  Element "math" [("display", "block")]
    [ Element "semantics" []
        [ Element "mrow" [] [Text "x2"];
          Element "annotation" [("encoding", "application/x-tex")]
            [Text latex] ] ].


(** A response with a copy button before its text, selected from the
    label of the button into the text. *)
Definition answerWithButton : node :=
  Element "div" [("class", "markdown")]
    [ Element "button" [] [Text "Copy"];
      Element "p" [] [Text "The sky is blue"] ].

Definition fromButtonIntoText : Selection :=
  oneRange
    (plainRange answerWithButton [0; 0] [1; 0]
       (Js.Ok [Text "Copy"; Element "p" [] [Text "The sky"]]))
    "Copy The sky".

(** A page with a content-editable input that has the focus and a send
    button, and a page without any input. *)
Definition chatPage (sel : option Selection) : Page :=
  {| selection := sel;
     inputEl := Some ContentEditable;
     inputText := "why?";
     sendButton := true;
     sendDisabled := false;
     inputFocused := true;
     href := "https://gemini.google.com/app/1" |}.


Definition pageWithoutInput : Page :=
  {| selection := None;
     inputEl := None;
     inputText := "";
     sendButton := true;
     sendDisabled := false;
     inputFocused := false;
     href := "https://gemini.google.com/app/1" |}.

(** The script holding the quote [q] on a page, its chip shown. *)
Definition quoting (p : Page) : State :=
  withChip true true (withQuote "q" "q" (initial p)).

(** The user selects with the mouse, clicks the bubble, and waits for
    the chip and for the focus. *)
Definition capture : list Event :=
  [ MouseUp false; TimerFires 0; UserClick OnBubble;
    TimerFires 0; TimerFires 0 ].



End Samples.

(* ===================================================================== *)
(** ** Further predicates on strings                                      *)
(* ===================================================================== *)

Module Shapes.

(** Neither the first nor the last code unit of [s] is white space. *)
Definition noOuterSpace (s : string) : bool :=
  match s with
  | "" => true
  | String c _ => negb (Js.isWhiteSpace c)
  end
  && match Props.lastChar s with
     | Some c => negb (Js.isWhiteSpace c)
     | None => true
     end.

(** The string without its line feeds. *)
Fixpoint withoutLF (s : string) : string :=
  match s with
  | "" => ""
  | String c s' =>
      if (c =? Js.LF)%char then withoutLF s' else String c (withoutLF s')
  end.

(** A tag that the text serializer treats as inline: it adds nothing to
    the texts of the children. *)
Definition isInlineTag (tag : string) : bool :=
  negb ((tag =? "table") || (tag =? "br") || (tag =? "style")
        || (tag =? "script") || existsb (String.eqb tag) Content.BLOCK_TAGS).

(** The node and all that lies below it are text, comments, fragments
    and inline elements. *)
Definition inlineOnly (n : Dom.node) : bool :=
  forallb (fun d => isInlineTag (Dom.tagOf d)) (n :: Dom.descendants n).

(** [w] is the width of column [c] of the rows: the length of its
    longest cell, and at least three. *)
Definition isColumnWidth (rows : list (list string)) (c w : nat) : Prop :=
  3 <= w /\
  (forall row, In row rows -> Js.len (nth c row "") <= w) /\
  (w = 3 \/ exists row, In row rows /\ Js.len (nth c row "") = w).

(** [text] is [cell] followed by spaces, and has the length [w]. *)
Definition paddedTo (w : nat) (cell text : string) : Prop :=
  exists spaces,
    text = (cell ++ Js.repeatChar " " spaces)%string /\ Js.len text = w.

(** [line] shows the cells of [row] between pipes, each padded to the
    width of its column. *)
Definition showsRow (widths : list nat) (row : list string) (line : string)
  : Prop :=
  exists cells,
    line = ("| " ++ Js.join " | " cells ++ " |")%string /\
    length cells = length row /\
    forall k, k < length row ->
      paddedTo (nth k widths 0) (nth k row "") (nth k cells "").

(** [row] is [short] followed by empty cells. *)
Definition filledFrom (short row : list string) : Prop :=
  exists k, row = short ++ repeat "" k.

(** The text of a node as the serializer reads it: a comment shows
    nothing. *)
Definition shownText (n : Dom.node) : string :=
  if Dom.isComment n then "" else Dom.textContent n.

End Shapes.

(* ===================================================================== *)
(** ** popup.js: the settings page                                        *)
(* ===================================================================== *)

Module PopupPage.
Import Popup.

(** Callbacks that wait: the one of [chrome.storage.sync.get], the one
    of [chrome.storage.sync.set] (which shows a message), and the timer
    of [showStatus]. *)
Inductive Callback : Type :=
| Loaded
| Stored (message : string)
| ClearStatus.

(** The page and the storage area.  [storage] is the value of the key
    [citationFormat], [None] while the key is unset; [writes] lists the
    values that the page has passed to [chrome.storage.sync.set], the
    oldest first. *)
Record State : Type := {
  formatInput : string;           (* formatInput.value *)
  storage : option string;
  statusText : string;            (* statusEl.textContent *)
  statusClass : string;           (* statusEl.className *)
  pending : list Callback;
  writes : list string
}.

(** The page when its script has run: it has asked for the stored
    format.  [shown], [status] and [className] are what the textarea
    and the status line hold in the document of the page. *)
Definition opened (shown status className : string) (stored : option string)
  : State :=
  {| formatInput := shown;
     storage := stored;
     statusText := status;
     statusClass := className;
     pending := [Loaded];
     writes := [] |}.

(** [showStatus(message, type)] *)
Definition showStatus (message type : string) (s : State) : State :=
  {| formatInput := formatInput s;
     storage := storage s;
     statusText := message;
     statusClass := "status " ++ type;
     pending := pending s ++ [ClearStatus];
     writes := writes s |}.

(** [chrome.storage.sync.set({ citationFormat: value }, callback)] *)
Definition storageSet (value message : string) (s : State) : State :=
  {| formatInput := formatInput s;
     storage := Some value;
     statusText := statusText s;
     statusClass := statusClass s;
     pending := pending s ++ [Stored message];
     writes := writes s ++ [value] |}.

Definition setFormatInput (value : string) (s : State) : State :=
  {| formatInput := value;
     storage := storage s;
     statusText := statusText s;
     statusClass := statusClass s;
     pending := pending s;
     writes := writes s |}.

(** The click handler of the Save button *)
Definition saveClick (s : State) : State :=
  let raw := fromDisplay (formatInput s) in
  if negb (Js.includes "[SELECTED]" raw) then
    showStatus "Format must contain the [SELECTED] placeholder." "error" s
  else storageSet raw "Saved!" s.

(** The click handler of the Reset button *)
Definition resetClick (s : State) : State :=
  storageSet Content.DEFAULT_CITATION_FORMAT "Reset to default."
    (setFormatInput (toDisplay Content.DEFAULT_CITATION_FORMAT) s).

Definition runCallback (c : Callback) (s : State) : State :=
  match c with
  | Loaded =>
      setFormatInput
        (toDisplay
           (match storage s with
            | Some value => value
            | None => Content.DEFAULT_CITATION_FORMAT
            end)) s
  | Stored message => showStatus message "success" s
  | ClearStatus =>
      {| formatInput := formatInput s;
         storage := storage s;
         statusText := "";
         statusClass := "status";
         pending := pending s;
         writes := writes s |}
  end.

Inductive Event : Type :=
| UserEdits (value : string)      (* the user changes the textarea *)
| SaveClick
| ResetClick
| Runs (i : nat).                 (* the i-th waiting callback runs *)

Definition step (s : State) (e : Event) : State :=
  match e with
  | UserEdits value => setFormatInput value s
  | SaveClick => saveClick s
  | ResetClick => resetClick s
  | Runs i =>
      match nth_error (pending s) i with
      | Some c =>
          runCallback c
            {| formatInput := formatInput s;
               storage := storage s;
               statusText := statusText s;
               statusClass := statusClass s;
               pending := Controller.removeNth i (pending s);
               writes := writes s |}
      | None => s
      end
  end.

Definition run (s : State) (events : list Event) : State :=
  fold_left step events s.

(** A format that the content script can use and that the page shows
    and reads back unchanged. *)
Definition usable (format : string) : Prop :=
  Js.includes Content.PLACEHOLDER format = true /\
  fromDisplay (toDisplay format) = format.

(** A message that is shown has its class and its timer. *)
Definition statusShown (s : State) : Prop :=
  statusText s <> "" ->
  (statusClass s = "status error" \/ statusClass s = "status success") /\
  In ClearStatus (pending s).

(** What the page has stored: every value it wrote is usable, and once
    it has written, the key holds a usable value. *)
Definition settled (s : State) : Prop :=
  Forall usable (writes s) /\
  (writes s <> [] ->
   exists format, storage s = Some format /\ usable format).

End PopupPage.

(* ===================================================================== *)
(** ** Bookkeeping of the session                                         *)
(* ===================================================================== *)

Module Ledger.
Import Controller.

(** A bubble that is shown exists and has a text to quote. *)
Definition bubbleHasText (s : State) : Prop :=
  bubbleVisible s = true ->
  bubbleEl s = true /\ currentSelectedText s <> "".

(** The messages written into the input of the host, and the send
    gestures that the script makes itself. *)
Definition isInjection (e : HostEffect) : bool :=
  match e with
  | Injected _ => true
  | _ => false
  end.

Definition isOwnSend (e : HostEffect) : bool :=
  match e with
  | SendClick Synthesized => true
  | SendEnter Synthesized => true
  | _ => false
  end.

Definition injections (log : list HostEffect) : nat :=
  length (filter isInjection log).

Definition ownSends (log : list HostEffect) : nat :=
  length (filter isOwnSend log).

(** The deferred sends that wait. *)
Definition isTriggerSend (t : nat * Task) : bool :=
  match snd t with
  | TriggerSend => true
  | _ => false
  end.

Definition triggers (tasks : list (nat * Task)) : nat :=
  length (filter isTriggerSend tasks).

(** Every send of the script, made or waiting, has its message. *)
Definition sendsCovered (s : State) : Prop :=
  ownSends (hostLog s) + triggers (pending s) <= injections (hostLog s).

(** From [s] to [s'] the log and the list of callbacks have grown, by
    at most [k] sends more than messages. *)
Definition growsBy (k : nat) (s s' : State) : Prop :=
  exists effects tasks,
    hostLog s' = hostLog s ++ effects /\
    pending s' = pending s ++ tasks /\
    ownSends effects + triggers tasks <= injections effects + k.

(** The last value of the stored format that the script has received
    in a run, and the format that the script uses for it. *)
Definition lastStored (events : list Event) : option string :=
  fold_left
    (fun stored e =>
       match e with
       | StorageValue value => Some value
       | _ => stored
       end)
    events None.

Definition formatFor (stored : option string) : string :=
  match stored with
  | Some value => Js.orElse value Content.DEFAULT_CITATION_FORMAT
  | None => Content.DEFAULT_CITATION_FORMAT
  end.

(** The message [m] is the one that [composeAndSend] builds in the
    state [s]. *)
Definition composed (s : State) (m : string) : Prop :=
  quotedText s <> "" /\
  m = fullMessage (citationFormat s) (quotedText s) (getUserInput (page s)).

(** Every message in the log of [s'] is in the log of [s] or composed
    in [s]. *)
Definition writesFrom (s s' : State) : Prop :=
  forall m,
    In (Injected m) (hostLog s') ->
    In (Injected m) (hostLog s) \/ composed s m.

End Ledger.

(* ===================================================================== *)
(** ** content.js: the send button in the document                        *)
(* ===================================================================== *)

Module SendButton.
Import Dom.

(** [toLowerCase] on one code unit below 256: the letters A to Z and
    the capital letters of Latin-1. *)
Definition lowerUnit (c : ascii) : ascii :=
  let n := nat_of_ascii c in
  if ((65 <=? n) && (n <=? 90))%nat
     || ((192 <=? n) && (n <=? 222) && negb (n =? 215))%nat
  then ascii_of_nat (n + 32)
  else c.

Fixpoint toLowerCase (s : string) : string :=
  match s with
  | "" => ""
  | String c s' => String (lowerUnit c) (toLowerCase s')
  end.

Definition SEND_BUTTON_SELECTORS : list selector :=
  [ [Compound (Some "button") [] [("aria-label", Some "Send message")]];
    [Compound (Some "button") [] [("aria-label", Some "Send")]];
    [byClass "send-button"];
    [Compound (Some "button") [] [("data-test-id", Some "send-button")]] ].

(** The descendants of a node of the document in document order, each
    with its ancestors; [above] are the ancestors of the node. *)
Fixpoint locatedDescendants (n : node) (above : located) : list located :=
  let fix walk (l : list node) : list located :=
    match l with
    | [] => []
    | c :: rest =>
        (c :: n :: above) :: locatedDescendants c (n :: above) ++ walk rest
    end
  in
  match n with
  | Element _ _ ch => walk ch
  | Fragment ch => walk ch
  | _ => []
  end.

(** [root.querySelectorAll(sel)] and [root.querySelector(sel)] on a node
    of the document *)
Definition querySelectorAllIn (root : located) (sel : selector)
  : list located :=
  filter (fun l => matches (self l) sel)
    (locatedDescendants (self root) (tl root)).

Definition querySelectorIn (root : located) (sel : selector) : located :=
  match querySelectorAllIn root sel with
  | [] => []
  | found :: _ => found
  end.

(** The first selector of the list that finds an element *)
Fixpoint firstFound (root : located) (selectors : list selector) : located :=
  match selectors with
  | [] => []
  | sel :: rest =>
      match querySelectorIn root sel with
      | [] => firstFound root rest
      | (_ :: _) as found => found
      end
  end.

(** The test of the label that both functions make:
    [(btn.getAttribute("aria-label") || "").toLowerCase()] holds
    [send] or [submit]. *)
Definition hasSendLabel (btn : node) : bool :=
  let label :=
    toLowerCase
      (match getAttribute "aria-label" btn with
       | Some v => v
       | None => ""
       end) in
  Js.includes "send" label || Js.includes "submit" label.

(** [findSendButton()], on the document [doc] in which
    [findInputElement()] finds [inputEl] ([[]] when it finds none). *)
Definition findSendButton (doc : node) (inputEl : located) : located :=
  match firstFound [doc] SEND_BUTTON_SELECTORS with
  | (_ :: _) as btn => btn
  | [] =>
      match inputEl with
      | [] => []
      | _ :: _ =>
          let ancestor :=
            match closest inputEl [byClass "input-area-container"] with
            | (_ :: _) as a => a
            | [] =>
                match closest inputEl [byClass "input-area"] with
                | (_ :: _) as a => a
                | [] => closest inputEl [byTag "form"]
                end
            end in
          match ancestor with
          | [] => []
          | _ :: _ =>
              match
                filter (fun btn => hasSendLabel (self btn))
                  (querySelectorAllIn ancestor [byTag "button"])
              with
              | [] => []
              | btn :: _ => btn
              end
          end
      end
  end.

(** [isSendButtonClick(target)]; [[]] is a [null] target. *)
Definition isSendButtonClick (target : located) : bool :=
  if isNull target || negb (isElement (self target)) then false
  else if
    existsb
      (fun sel => matches (self target) sel || negb (isNull (closest target sel)))
      SEND_BUTTON_SELECTORS
  then true
  else
    let btn :=
      if (tagOf (self target) =? "button")%string then target
      else closest target [byTag "button"] in
    match btn with
    | [] => false
    | b :: _ => hasSendLabel b
    end.

End SendButton.

(* ===================================================================== *)
(** ** The math elements around a clipped equation                        *)
(* ===================================================================== *)

Module Clipping.
Import Dom Content.

(** [range.intersectsNode(mathEl)] answers [true]. *)
Definition intersecting (range : Range) (mathEl : node) : bool :=
  match intersectsNode range mathEl with
  | Js.Ok true => true
  | _ => false
  end.

(** The elements with a [data-math] attribute that
    [annotateMathFromOriginalDOM] finds in the document, in document
    order. *)
Definition mathElementsAround (range : Range) : list node :=
  querySelectorAll
    (self (searchRootFrom 10 (elementOf (commonAncestorContainer range))))
    DATA_MATH.

(** [mathEl.getAttribute("data-math")], which these elements have. *)
Definition sourceOf (mathEl : node) : string :=
  match getAttribute "data-math" mathEl with
  | Some latex => latex
  | None => ""
  end.

End Clipping.

(* ===================================================================== *)
(** ** Further sample inputs                                              *)
(* ===================================================================== *)

Module Scenes.
Import Dom Content Controller.

(** The input area of the host with a typed text, all of it selected. *)
Definition inputArea : node :=
  Element "div" [("class", "input-area")]
    [ Element "p" [] [Text "why?"] ].

Definition typedText : Selection :=
  Samples.oneRange
    (Samples.plainRange inputArea [0; 0] [0; 0] (Js.Ok [Text "why?"]))
    "why?".

(** The user quotes an equation and clicks the send button. *)
Definition quoteAndSend : list Event :=
  Samples.capture ++ [UserClick OnSendButton].

(** A paragraph with a link in it. *)
Definition linkParagraph : node :=
  Element "p" []
    [ Text "see ";
      Element "a" [("href", "#")] [Text "this"] ].

(** A link with a code span and a comment in it. *)
Definition inlineMarkup : node :=
  Fragment
    [ Text "see ";
      Element "a" [("href", "#")]
        [Element "code" [] [Text "x"]; Other "note"; Text " here"] ].

(** A form with a textarea and two buttons, one of which is labelled
    for sending; and the textarea in this document. *)
Definition promptForm : node :=
  Element "body" []
    [ Element "form" []
        [ Element "textarea" [("aria-label", "Prompt")] [];
          Element "button" [("aria-label", "Attach file")] [Text "+"];
          Element "button" [("aria-label", "Submit prompt")]
            [Element "span" [] [Text ">"]] ] ].

Definition promptInput : located := locate promptForm [0; 0].

(** A KaTeX rendering of [a] without a wrapper and an inline equation
    [b] in one paragraph, and the selection of the content of the
    paragraph, whose clone is that content. *)
Definition bareAndWrapped : list node :=
  [ Samples.katex "a"; Text " and "; Samples.inlineMath "b" ].

Definition bareAndWrappedRange : Range :=
  Samples.plainRange (Samples.lineWith bareAndWrapped) [0] [0]
    (Js.Ok bareAndWrapped).

End Scenes.

(* ===================================================================== *)
(** * Properties                                                          *)
(* ===================================================================== *)

Unset Implicit Arguments.

(** ** Strings *)

Module StringFacts.
Import Js.

Lemma truthy_nonempty (s : string) : s <> "" -> truthy s = true.
Proof. destruct s; [congruence | reflexivity]. Qed.

Lemma append_empty_r (s : string) : (s ++ "")%string = s.
Proof. induction s as [|c s IH]; simpl; [reflexivity | now rewrite IH]. Qed.

Lemma append_assoc (a b c : string) :
  ((a ++ b) ++ c)%string = (a ++ (b ++ c))%string.
Proof. induction a as [|x a IH]; simpl; [reflexivity | now rewrite IH]. Qed.

Lemma countChar_app (c : ascii) (a b : string) :
  countChar c (a ++ b) = countChar c a + countChar c b.
Proof.
  induction a as [|x a IH]; simpl; [reflexivity|].
  rewrite IH. lia.
Qed.

Lemma countChar_repeatChar_other (c d : ascii) (n : nat) :
  (d =? c)%char = false -> countChar c (repeatChar d n) = 0.
Proof.
  intros Hd. induction n as [|n IH]; simpl; [reflexivity|].
  now rewrite Hd, IH.
Qed.

Lemma repeatChar_succ_app (c : ascii) (n : nat) (s : string) :
  (repeatChar c (S n) ++ s)%string = (repeatChar c n ++ String c s)%string.
Proof.
  induction n as [|n IH]; [reflexivity|].
  change (repeatChar c (S (S n))) with (String c (repeatChar c (S n))).
  change (repeatChar c (S n)) with (String c (repeatChar c n)) at 2.
  simpl. simpl in IH. now rewrite IH.
Qed.

Lemma stripPrefix_app (p s rest : string) :
  stripPrefix p s = Some rest -> s = (p ++ rest)%string.
Proof.
  revert s. induction p as [|a p IH]; intros s H; simpl in *.
  - now inversion H.
  - destruct s as [|b s]; [discriminate|].
    destruct (a =? b)%char eqn:E; [|discriminate].
    apply Ascii.eqb_eq in E. subst b. f_equal. now apply IH.
Qed.

Lemma stripPrefix_self_app (p rest : string) :
  stripPrefix p (p ++ rest) = Some rest.
Proof.
  induction p as [|a p IH]; simpl; [reflexivity|].
  now rewrite Ascii.eqb_refl.
Qed.

Lemma splitAtFirst_app (pat s pre post : string) :
  splitAtFirst pat s = Some (pre, post) -> s = (pre ++ pat ++ post)%string.
Proof.
  revert pre post. induction s as [|c s IH]; intros pre post H.
  - simpl in H. destruct (stripPrefix pat "") as [rest|] eqn:E; [|discriminate].
    inversion H; subst. now apply stripPrefix_app in E.
  - cbn [splitAtFirst] in H.
    destruct (stripPrefix pat (String c s)) as [rest|] eqn:E.
    + inversion H; subst. now apply stripPrefix_app in E.
    + destruct (splitAtFirst pat s) as [[pre' post']|] eqn:E'; [|discriminate].
      inversion H; subst. simpl. f_equal. now apply IH.
Qed.

Lemma splitAtFirst_found (pat s : string) :
  0 < occurrences pat s -> exists pre post, splitAtFirst pat s = Some (pre, post).
Proof.
  induction s as [|c s IH]; intros H; [simpl in H; lia|].
  cbn [splitAtFirst].
  destruct (stripPrefix pat (String c s)) as [rest|] eqn:E.
  - now exists "", rest.
  - cbn [occurrences] in H. rewrite E in H.
    destruct (IH H) as (pre & post & Hs). rewrite Hs. now exists (String c pre), post.
Qed.

(** A replacement text without a dollar sign is inserted as it is. *)
Lemma getSubstitution_plain (matched pre post replacement : string) :
  countChar "$" replacement = 0 ->
  getSubstitution matched pre post replacement = replacement.
Proof.
  induction replacement as [|c r IH]; intros H; [reflexivity|].
  simpl in H. cbn [getSubstitution].
  destruct (c =? "$")%char eqn:E; [simpl in H; lia|].
  f_equal. apply IH. simpl in H. lia.
Qed.

(** *** The collapse of blank lines *)

Import Props.

Lemma flushRun_short (run : nat) :
  (run <? 3)%nat = true -> flushRun run = repeatChar LF run.
Proof.
  intros H. unfold flushRun. apply Nat.ltb_lt in H.
  destruct (3 <=? run)%nat eqn:E; [apply Nat.leb_le in E; lia | reflexivity].
Qed.

Lemma collapseRuns_fixed (s : string) :
  forall run, noLongRun run s = true ->
  collapseRuns run s = (repeatChar LF run ++ s)%string.
Proof.
  induction s as [|c s IH]; intros run H; simpl in *.
  - now rewrite append_empty_r, flushRun_short.
  - destruct (c =? LF)%char eqn:E.
    + apply Ascii.eqb_eq in E. subst c.
      rewrite (IH _ H). apply repeatChar_succ_app.
    + apply andb_true_iff in H as [H1 H2].
      rewrite (IH _ H2), flushRun_short by assumption. reflexivity.
Qed.

Lemma noLongRun_repeat_app (n : nat) (s : string) :
  forall run, noLongRun run (repeatChar LF n ++ s) = noLongRun (run + n) s.
Proof.
  induction n as [|n IH]; intros run; simpl.
  - now rewrite Nat.add_0_r.
  - rewrite IH. f_equal. lia.
Qed.

Lemma noLongRun_flush (run : nat) (s : string) :
  noLongRun 0 (flushRun run ++ s) = noLongRun (Nat.min run 2) s.
Proof.
  unfold flushRun. destruct (3 <=? run)%nat eqn:E.
  - apply Nat.leb_le in E. rewrite noLongRun_repeat_app. f_equal. lia.
  - apply Nat.leb_gt in E. rewrite noLongRun_repeat_app. f_equal. lia.
Qed.

Lemma collapseRuns_settled (s : string) :
  forall run, noLongRun 0 (collapseRuns run s) = true.
Proof.
  induction s as [|c s IH]; intros run; simpl.
  - rewrite <- (append_empty_r (flushRun run)), noLongRun_flush. simpl.
    apply Nat.ltb_lt. lia.
  - destruct (c =? LF)%char eqn:E; [apply IH|].
    rewrite noLongRun_flush. simpl. rewrite E, IH, andb_true_r.
    apply Nat.ltb_lt. lia.
Qed.

End StringFacts.

(** C8.  The blank-line collapse of [extractTextWithMath], which
    replaces every run of three or more line feeds by two, is
    idempotent: collapsing a collapsed string changes nothing. *)
Theorem collapse_blank_lines_idempotent (s : string) :
  Js.collapseBlankLines (Js.collapseBlankLines s) = Js.collapseBlankLines s.
Proof.
  unfold Js.collapseBlankLines.
  rewrite StringFacts.collapseRuns_fixed.
  - reflexivity.
  - apply StringFacts.collapseRuns_settled.
Qed.

(** ** The settings popup *)

Module PopupFacts.
Import Js Popup Props.

Lemma toDisplay_head_not_n (s : string) (d : ascii) (r : string) :
  toDisplay s = String d r ->
  (d =? "n")%char = true ->
  exists s', s = String "n" s'.
Proof.
  unfold toDisplay. destruct s as [|c s]; simpl; [discriminate|].
  destruct (c =? LF)%char eqn:E.
  - simpl. intros H Hd. inversion H; subst. discriminate.
  - intros H Hd. inversion H; subst. apply Ascii.eqb_eq in Hd. subst.
    now exists s.
Qed.

(** What is read back from the textarea starts with a line feed or
    with the first code unit typed. *)
Lemma fromDisplay_head (c : ascii) (s : string) :
  exists r,
    fromDisplay (String c s) = String LF r \/
    fromDisplay (String c s) = String c r.
Proof.
  unfold fromDisplay. destruct s as [|d s]; simpl; [now exists ""; right|].
  destruct ((c =? BACKSLASH)%char && (d =? "n")%char); eauto.
Qed.

Lemma replaceBackslashN_two (c d : ascii) (s : string) :
  replaceBackslashN (String c (String d s))
  = if (c =? BACKSLASH)%char && (d =? "n")%char
    then String LF (replaceBackslashN s)
    else String c (replaceBackslashN (String d s)).
Proof. reflexivity. Qed.

Lemma noBackslashN_two (c d : ascii) (s : string) :
  noBackslashN (String c (String d s))
  = negb ((c =? BACKSLASH)%char && (d =? "n")%char)
    && noBackslashN (String d s).
Proof. reflexivity. Qed.

(** What is read back from the textarea has no backslash followed by
    the letter n: every format that the popup saves is one that is
    shown and read back unchanged. *)
Lemma fromDisplay_settled (n : nat) :
  forall s, String.length s <= n -> noBackslashN (fromDisplay s) = true.
Proof.
  unfold fromDisplay.
  induction n as [|n IH]; intros s Hlen.
  - destruct s; [reflexivity | simpl in Hlen; lia].
  - destruct s as [|c [|d s]]; try reflexivity.
    rewrite replaceBackslashN_two.
    destruct ((c =? BACKSLASH)%char && (d =? "n")%char) eqn:E.
    + assert (Hs : noBackslashN (replaceBackslashN s) = true)
        by (apply IH; simpl in Hlen |- *; lia).
      destruct (replaceBackslashN s) as [|x r]; [reflexivity|].
      rewrite noBackslashN_two, Hs. reflexivity.
    + assert (Hs : noBackslashN (replaceBackslashN (String d s)) = true)
        by (apply IH; simpl in Hlen |- *; lia).
      destruct (fromDisplay_head d s) as [r [Hr|Hr]];
        unfold fromDisplay in Hr; rewrite Hr in Hs |- *;
        rewrite noBackslashN_two, Hs.
      * now rewrite andb_false_r.
      * rewrite andb_true_r. now rewrite E.
Qed.

Lemma fromDisplay_saved (s : string) : noBackslashN (fromDisplay s) = true.
Proof. apply (fromDisplay_settled (String.length s)). apply le_n. Qed.

End PopupFacts.

(** C10 (amended).  For every string without a backslash followed by
    the letter n, decoding the display form of the string gives the
    string back: [fromDisplay (toDisplay s) = s]. *)
Theorem display_roundtrip (s : string) :
  Props.noBackslashN s = true ->
  Popup.fromDisplay (Popup.toDisplay s) = s.
Proof.
  unfold Popup.fromDisplay.
  induction s as [|c s IH]; intros H; [reflexivity|].
  assert (Hs : Props.noBackslashN s = true).
  { simpl in H. destruct s; [reflexivity|].
    now apply andb_true_iff in H as [_ H]. }
  specialize (IH Hs).
  unfold Popup.toDisplay in *. simpl.
  destruct (c =? Js.LF)%char eqn:E.
  - apply Ascii.eqb_eq in E. subst c. simpl. now rewrite IH.
  - cbn [Js.replaceBackslashN].
    destruct (Js.replaceEachLF (String Js.BACKSLASH "n") s) as [|d r] eqn:Er.
    + destruct s as [|c' s]; [reflexivity|].
      simpl in Er. destruct (c' =? Js.LF)%char; discriminate.
    + destruct ((c =? Js.BACKSLASH)%char && (d =? "n")%char) eqn:E2.
      * exfalso. apply andb_true_iff in E2 as [Ec Ed].
        destruct (PopupFacts.toDisplay_head_not_n s d r Er Ed) as [s' ->].
        simpl in H. rewrite Ec in H. discriminate.
      * now rewrite IH.
Qed.

(** The default citation format makes the round trip. *)
Lemma display_roundtrip_witness :
  Props.noBackslashN Content.DEFAULT_CITATION_FORMAT = true /\
  Popup.fromDisplay (Popup.toDisplay Content.DEFAULT_CITATION_FORMAT)
  = Content.DEFAULT_CITATION_FORMAT.
Proof.
  split; [reflexivity | apply display_roundtrip; reflexivity].
Defined.

(** C10, counterexample.  The format [\nabla] (a backslash and the
    word nabla) is shown as it is, and reading it back turns its first
    two code units into a line feed. *)
Lemma display_roundtrip_counterexample :
  Popup.toDisplay (String Js.BACKSLASH "nabla") = String Js.BACKSLASH "nabla" /\
  Popup.fromDisplay (Popup.toDisplay (String Js.BACKSLASH "nabla"))
  = String Js.LF "abla" /\
  Popup.fromDisplay (Popup.toDisplay (String Js.BACKSLASH "nabla"))
  <> String Js.BACKSLASH "nabla".
Proof.
  repeat split; try reflexivity. vm_compute. discriminate.
Qed.

(** ** Template substitution *)

Module CitationFacts.
Import Js Content Props StringFacts.

Lemma prefix_has_last (p : string) (z : ascii) :
  lastChar p = Some z ->
  forall s rest, stripPrefix p s = Some rest -> 0 < countChar z s.
Proof.
  induction p as [|a p IH]; intros Hz s rest H; [discriminate|].
  destruct s as [|b s]; [discriminate|].
  simpl in H. destruct (a =? b)%char eqn:E; [|discriminate].
  apply Ascii.eqb_eq in E. subst b. simpl.
  destruct p as [|a' p].
  - inversion Hz; subst. rewrite Ascii.eqb_refl. lia.
  - assert (0 < countChar z s) by (apply (IH Hz s rest H)). lia.
Qed.

(** A match that starts in [a] and meets no last unit of the pattern
    after [a] ends in [a]. *)
Lemma stripPrefix_within (p : string) (z : ascii) :
  lastChar p = Some z ->
  forall a s rest,
    countChar z s = 0 ->
    stripPrefix p (a ++ s) = Some rest ->
    exists rest', stripPrefix p a = Some rest'.
Proof.
  induction p as [|x p IH]; intros Hz a s rest Hs H; [discriminate|].
  destruct a as [|b a].
  - simpl in H. pose proof (prefix_has_last (String x p) z Hz s rest H). lia.
  - simpl in H |- *. destruct (x =? b)%char; [|discriminate].
    destruct p as [|x' p]; [now exists a|].
    apply (IH Hz a s rest Hs H).
Qed.

Lemma occurrences_none_after (p : string) (z : ascii) :
  lastChar p = Some z ->
  forall s, countChar z s = 0 -> occurrences p s = 0.
Proof.
  intros Hz s. induction s as [|c s IH]; intros Hs; [reflexivity|].
  cbn [occurrences].
  destruct (stripPrefix p (String c s)) as [rest|] eqn:E.
  - pose proof (prefix_has_last p z Hz _ _ E). lia.
  - simpl in Hs. rewrite IH by lia. reflexivity.
Qed.

Lemma occurrences_app_none (p : string) (z : ascii) :
  lastChar p = Some z ->
  forall a s,
    occurrences p a = 0 -> countChar z s = 0 -> occurrences p (a ++ s) = 0.
Proof.
  intros Hz a. induction a as [|c a IH]; intros s Ha Hs.
  - now apply (occurrences_none_after p z Hz).
  - cbn [occurrences] in Ha. change (String c a ++ s)%string with (String c (a ++ s)).
    cbn [occurrences].
    destruct (stripPrefix p (String c (a ++ s))) as [rest|] eqn:E.
    + destruct (stripPrefix_within p z Hz (String c a) s rest Hs E) as [rest' E'].
      rewrite E' in Ha. lia.
    + rewrite IH; [reflexivity | | assumption].
      destruct (stripPrefix p (String c a)); lia.
Qed.

(** Before the first unit of the pattern nothing starts. *)
Lemma occurrences_skip (x : ascii) (p a s : string) :
  countChar x a = 0 ->
  occurrences (String x p) (a ++ s) = occurrences (String x p) s.
Proof.
  induction a as [|c a IH]; intros Ha; [reflexivity|].
  simpl in Ha. destruct (c =? x)%char eqn:E; [lia|].
  change (String c a ++ s)%string with (String c (a ++ s)).
  cbn [occurrences stripPrefix].
  rewrite Ascii.eqb_sym, E. simpl. apply IH. lia.
Qed.

Lemma citation_plain (template quoted pre post : string) :
  splitAtFirst PLACEHOLDER template = Some (pre, post) ->
  countChar "$" quoted = 0 ->
  Js.replace template PLACEHOLDER quoted = (pre ++ quoted ++ post)%string.
Proof.
  intros Hs Hq. unfold Js.replace. rewrite Hs.
  now rewrite getSubstitution_plain.
Qed.

(** A replacement text in which no dollar sign makes a pattern is
    inserted as it is. *)
Lemma getSubstitution_literal (matched pre post replacement : string) :
  noDollarPattern replacement = true ->
  getSubstitution matched pre post replacement = replacement.
Proof.
  induction replacement as [|c r IH]; intros H; [reflexivity|].
  cbn [getSubstitution].
  destruct r as [|d r'].
  { destruct (c =? "$")%char eqn:Ec; [|reflexivity].
    apply Ascii.eqb_eq in Ec. now subst c. }
  cbn [noDollarPattern] in H. apply andb_true_iff in H as [Hhere Hrest].
  rewrite (IH Hrest).
  destruct (c =? "$")%char eqn:Ec; [|reflexivity].
  apply Ascii.eqb_eq in Ec. subst c. cbn [andb] in Hhere.
  apply negb_true_iff in Hhere.
  repeat (apply orb_false_iff in Hhere as [Hhere ?]).
  now rewrite Hhere, H1, H0, H.
Qed.

Lemma citation_literal (template quoted pre post : string) :
  splitAtFirst PLACEHOLDER template = Some (pre, post) ->
  noDollarPattern quoted = true ->
  Js.replace template PLACEHOLDER quoted = (pre ++ quoted ++ post)%string.
Proof.
  intros Hs Hq. unfold Js.replace. rewrite Hs.
  now rewrite getSubstitution_literal.
Qed.

End CitationFacts.

(** C2 (amended).  For every citation template that contains the
    placeholder [[SELECTED]] exactly once and every quote text in which
    no dollar sign is followed by a second dollar sign, by [&], by a
    backquote or by an apostrophe (a quote of inline math is such a
    text), the substitution of [composeAndSend] (and of
    [injectTextToInput]) puts the quote where the placeholder stood and
    leaves the text before and after it alone.  No placeholder is left
    when no [[] stands before the placeholder in the template, no []]
    after it, and the quote does not contain the placeholder. *)
Theorem citation_splices_quote (template quoted : string) :
  Js.occurrences Content.PLACEHOLDER template = 1 ->
  Props.noDollarPattern quoted = true ->
  exists pre post,
    template = (pre ++ Content.PLACEHOLDER ++ post)%string /\
    Controller.citation template quoted = (pre ++ quoted ++ post)%string /\
    (Js.countChar "[" pre = 0 ->
     Js.countChar "]" post = 0 ->
     Js.occurrences Content.PLACEHOLDER quoted = 0 ->
     Js.occurrences Content.PLACEHOLDER (Controller.citation template quoted)
     = 0).
Proof.
  intros Hone Hq.
  destruct (StringFacts.splitAtFirst_found Content.PLACEHOLDER template)
    as (pre & post & Hs); [lia|].
  exists pre, post. split; [|split].
  - now apply StringFacts.splitAtFirst_app.
  - now apply CitationFacts.citation_literal.
  - intros Hpre Hpost Hin. unfold Controller.citation.
    rewrite (CitationFacts.citation_literal _ _ _ _ Hs Hq).
    unfold Content.PLACEHOLDER. rewrite CitationFacts.occurrences_skip by assumption.
    now apply CitationFacts.occurrences_app_none with (z := "]"%char).
Qed.

(** The default template and the quote of an inline equation. *)
Lemma citation_splices_quote_witness :
  Js.occurrences Content.PLACEHOLDER Content.DEFAULT_CITATION_FORMAT = 1 /\
  Props.noDollarPattern "$x^2$" = true /\
  exists pre post,
    Content.DEFAULT_CITATION_FORMAT = (pre ++ Content.PLACEHOLDER ++ post)%string /\
    Controller.citation Content.DEFAULT_CITATION_FORMAT "$x^2$"
    = (pre ++ "$x^2$" ++ post)%string /\
    (Js.countChar "[" pre = 0 ->
     Js.countChar "]" post = 0 ->
     Js.occurrences Content.PLACEHOLDER "$x^2$" = 0 ->
     Js.occurrences Content.PLACEHOLDER
       (Controller.citation Content.DEFAULT_CITATION_FORMAT "$x^2$")
     = 0).
Proof.
  split; [reflexivity|]. split; [reflexivity|].
  apply (citation_splices_quote Content.DEFAULT_CITATION_FORMAT "$x^2$");
    reflexivity.
Defined.

(** C2, counterexample.  With the default template, the quote
    [content] stands twice in the merged message, because the template
    has the word itself; and the quote [[SELECTED]] leaves a placeholder
    in it.  A placeholder is also made of a bracket of the template and
    the quote next to it.  Each of the four patterns of [replace] in a
    quote is replaced: two dollar signs by one, and the three others by
    the placeholder, by the text before it and by the text after it. *)
Lemma citation_counterexample :
  Js.occurrences Content.PLACEHOLDER Content.DEFAULT_CITATION_FORMAT = 1 /\
  Js.occurrences "content"
    (Controller.citation Content.DEFAULT_CITATION_FORMAT "content") = 2 /\
  Js.occurrences Content.PLACEHOLDER
    (Controller.citation Content.DEFAULT_CITATION_FORMAT Content.PLACEHOLDER)
  = 1 /\
  Controller.citation "[[SELECTED]" "SELECTED]" = "[SELECTED]" /\
  Controller.citation "[SELECTED]]" "[SELECTED" = "[SELECTED]" /\
  Controller.citation "A[SELECTED]B" "$$x$$" = "A$x$B" /\
  Controller.citation "A[SELECTED]B" "$&" = "A[SELECTED]B" /\
  Controller.citation "A[SELECTED]B" "$`" = "AAB" /\
  Controller.citation "A[SELECTED]B" "$'" = "ABB".
Proof. repeat split. Qed.

(** A quote of display math loses one dollar sign of each pair, since
    [$$] in the replacement text of [replace] stands for one. *)
Lemma citation_display_math :
  Controller.citation "[SELECTED]" "$$x$$" = "$x$".
Proof. reflexivity. Qed.

(** ** The Markdown table serializer *)

Module TableFacts.
Import Js Dom Content Props StringFacts.

Lemma split_plain (sep : ascii) (x : string) :
  freeOf sep x -> split sep x = [x].
Proof.
  unfold freeOf, split. induction x as [|c x IH]; intros H; [reflexivity|].
  simpl in *. destruct (c =? sep)%char; [lia|].
  rewrite IH by lia. reflexivity.
Qed.

Lemma split_app (sep : ascii) (x s : string) :
  freeOf sep x ->
  split sep (x ++ String sep s) = x :: split sep s.
Proof.
  unfold freeOf, split. induction x as [|c x IH]; intros H; simpl in *.
  - now rewrite Ascii.eqb_refl.
  - destruct (c =? sep)%char; [lia|].
    rewrite IH by lia. reflexivity.
Qed.

Lemma split_join (sep : ascii) (parts : list string) :
  parts <> [] ->
  Forall (freeOf sep) parts ->
  split sep (join (String sep "") parts) = parts.
Proof.
  induction parts as [|x rest IH]; intros Hne Hall; [congruence|].
  inversion Hall as [|? ? Hx Hrest]; subst.
  destruct rest as [|y rest].
  - simpl. now apply split_plain.
  - change (join (String sep "") (x :: y :: rest))
      with (x ++ (String sep "" ++ join (String sep "") (y :: rest)))%string.
    simpl append at 2. rewrite split_app by assumption.
    f_equal. apply IH; [discriminate | assumption].
Qed.

Lemma countChar_join_free (c : ascii) (sep : string) (parts : list string) :
  Forall (freeOf c) parts ->
  countChar c (join sep parts) = (length parts - 1) * countChar c sep.
Proof.
  induction parts as [|x rest IH]; intros Hall; [reflexivity|].
  inversion Hall as [|? ? Hx Hrest]; subst. unfold freeOf in Hx.
  destruct rest as [|y rest].
  - simpl. lia.
  - change (join sep (x :: y :: rest))
      with (x ++ (sep ++ join sep (y :: rest)))%string.
    rewrite !countChar_app, (IH Hrest), Hx. simpl length. lia.
Qed.

Lemma pad_free (c : ascii) (s : string) (w : nat) :
  (" " =? c)%char = false -> freeOf c s -> freeOf c (pad s w).
Proof.
  unfold freeOf, pad. intros Hc Hs.
  now rewrite countChar_app, Hs, countChar_repeatChar_other.
Qed.

Lemma mapIndexedFrom_length (A B : Type) (f : A -> nat -> B) (l : list A) :
  forall i, length (mapIndexedFrom f i l) = length l.
Proof. induction l as [|x l IH]; intros i; simpl; [reflexivity | now rewrite IH]. Qed.

Lemma mapIndexedFrom_Forall (A B : Type) (f : A -> nat -> B)
  (P : A -> Prop) (Q : B -> Prop) (l : list A) :
  (forall x i, P x -> Q (f x i)) ->
  Forall P l -> forall i, Forall Q (mapIndexedFrom f i l).
Proof.
  intros Hf Hl. induction Hl as [|x l Hx Hl IH]; intros i; simpl; constructor.
  - now apply Hf.
  - apply IH.
Qed.

(** A line of [n] cells that are free of [c]. *)
Lemma rowLine_count (c : ascii) (widths : list nat) (row : list string) :
  (" " =? c)%char = false ->
  Forall (freeOf c) row ->
  countChar c (rowLine widths row)
  = countChar c "| " + (length row - 1) * countChar c " | " + countChar c " |".
Proof.
  intros Hc Hrow. unfold rowLine, mapIndexed.
  rewrite !countChar_app, countChar_join_free.
  - rewrite mapIndexedFrom_length. lia.
  - apply mapIndexedFrom_Forall with (P := freeOf c); [|assumption].
    intros x i Hx. now apply pad_free.
Qed.

Lemma separatorLine_count (c : ascii) (widths : list nat) :
  ("-" =? c)%char = false ->
  countChar c (separatorLine widths)
  = countChar c "| " + (length widths - 1) * countChar c " | "
    + countChar c " |".
Proof.
  intros Hc. unfold separatorLine.
  rewrite !countChar_app, countChar_join_free.
  - rewrite length_map. lia.
  - apply Forall_forall. intros x Hx. apply in_map_iff in Hx as (w & <- & _).
    now apply countChar_repeatChar_other.
Qed.

(** The column count bounds the length of every row. *)
Lemma columnCount_from (matrix : list (list string)) :
  forall start,
    let count :=
      fold_left
        (fun colCount row =>
           if (colCount <? length row)%nat then length row else colCount)
        matrix start in
    start <= count /\ Forall (fun row => length row <= count) matrix.
Proof.
  induction matrix as [|row matrix IH]; intros start; simpl.
  - split; [lia | constructor].
  - destruct (IH (if (start <? length row)%nat then length row else start))
      as [Hle Hall].
    destruct (start <? length row)%nat eqn:E;
      [apply Nat.ltb_lt in E | apply Nat.ltb_ge in E];
      (split; [lia | constructor; [lia | assumption]]).
Qed.

Lemma columnCount_bound (matrix : list (list string)) :
  Forall (fun row => length row <= columnCount matrix) matrix.
Proof. apply (columnCount_from matrix 0). Qed.

Lemma padRow_length (colCount : nat) (row : list string) :
  length row <= colCount -> length (padRow colCount row) = colCount.
Proof.
  intros H. unfold padRow. rewrite length_app, repeat_length. lia.
Qed.

Lemma padRow_free (c : ascii) (colCount : nat) (row : list string) :
  Forall (freeOf c) row -> Forall (freeOf c) (padRow colCount row).
Proof.
  intros H. unfold padRow. apply Forall_app. split; [assumption|].
  apply Forall_forall. intros x Hx. apply repeat_spec in Hx. now subst.
Qed.

Lemma replaceLFRuns_free (s : string) :
  forall inRun, freeOf LF (replaceLFRuns inRun s).
Proof.
  unfold freeOf. induction s as [|c s IH]; intros inRun; simpl; [reflexivity|].
  destruct (c =? LF)%char eqn:E.
  - destruct inRun; simpl; now rewrite IH.
  - simpl. now rewrite E, IH.
Qed.

Lemma tableMatrix_free (cellText : node -> string) (tableEl : node) :
  Forall (Forall (freeOf LF)) (tableMatrix cellText tableEl).
Proof.
  unfold tableMatrix. apply Forall_forall. intros row Hrow.
  apply in_map_iff in Hrow as (tr & <- & _).
  apply Forall_forall. intros cell Hcell.
  apply in_map_iff in Hcell as (el & <- & _).
  apply replaceLFRuns_free.
Qed.

(** Every line of the table of a matrix with [colCount >= 1] whose
    cells are free of [c] (a code unit that is neither a space nor a
    dash) has as many [c] as the frame of the line gives it. *)
Lemma tableLines_count (c : ascii) (matrix : list (list string)) :
  (" " =? c)%char = false ->
  ("-" =? c)%char = false ->
  matrix <> [] ->
  Forall (Forall (freeOf c)) matrix ->
  Forall
    (fun line =>
       countChar c line
       = countChar c "| " + (columnCount matrix - 1) * countChar c " | "
         + countChar c " |")
    (tableLines matrix).
Proof.
  intros Hsp Hdash Hne Hfree. unfold tableLines.
  set (colCount := columnCount matrix).
  set (padded := map (padRow colCount) matrix).
  set (widths := columnWidths padded colCount).
  assert (Hpadded : Forall (fun row => length row = colCount /\ Forall (freeOf c) row)
                      padded).
  { apply Forall_forall. intros row Hrow.
    apply in_map_iff in Hrow as (row0 & <- & Hin). split.
    - apply padRow_length.
      pose proof (columnCount_bound matrix) as Hb.
      rewrite Forall_forall in Hb. now apply Hb.
    - apply padRow_free. rewrite Forall_forall in Hfree. now apply Hfree. }
  assert (Hrow : forall row, length row = colCount /\ Forall (freeOf c) row ->
                 countChar c (rowLine widths row)
                 = countChar c "| " + (colCount - 1) * countChar c " | "
                   + countChar c " |").
  { intros row [Hlen Hrow]. rewrite rowLine_count by assumption. now rewrite Hlen. }
  constructor; [|constructor].
  - apply Hrow. destruct padded as [|row rest] eqn:E.
    + destruct matrix; [congruence | discriminate].
    + now inversion Hpadded.
  - rewrite separatorLine_count by assumption.
    unfold widths, columnWidths. now rewrite length_map, length_seq.
  - apply Forall_forall. intros line Hline.
    apply in_map_iff in Hline as (row & <- & Hin).
    apply Hrow. rewrite Forall_forall in Hpadded. apply Hpadded.
    destruct padded; [contradiction | now right].
Qed.

Lemma tableLines_length (matrix : list (list string)) :
  matrix <> [] -> length (tableLines matrix) = length matrix + 1.
Proof.
  intros Hne. unfold tableLines. simpl.
  destruct matrix as [|row rest]; [congruence|].
  simpl. rewrite !length_map. lia.
Qed.

Lemma tableToMarkdown_lines (cellText : node -> string) (tableEl : node) :
  tableMatrix cellText tableEl <> [] ->
  tableToMarkdown cellText tableEl
  = join (String LF "") (tableLines (tableMatrix cellText tableEl)).
Proof.
  intros Hne. unfold tableToMarkdown.
  destruct (querySelectorAll tableEl ROWS) as [|tr rest] eqn:E.
  - unfold tableMatrix in Hne. rewrite E in Hne. simpl in Hne. congruence.
  - destruct (tableMatrix cellText tableEl); [congruence | reflexivity].
Qed.

End TableFacts.

(** C1 (amended).  For every table whose matrix of cell texts has
    [R >= 1] rows and column count [C >= 1] (the maximum over the rows)
    and whose cell texts contain no pipe, [tableToMarkdown] returns
    exactly [R + 1] lines separated by line feeds: the header line of
    row 0, the separator line and the [R - 1] data lines; and every
    line has exactly [C + 1] pipes, that is [C] pipe-delimited fields.
    This holds whatever function gives the text of a cell, so also for
    [getTextFromFragment]. *)
Theorem table_markdown_shape (cellText : Dom.node -> string)
  (tableEl : Dom.node) :
  let matrix := Content.tableMatrix cellText tableEl in
  1 <= length matrix ->
  1 <= Content.columnCount matrix ->
  Forall (Forall (fun cell => Js.countChar "|" cell = 0)) matrix ->
  let lines := Js.split Js.LF (Content.tableToMarkdown cellText tableEl) in
  lines = Content.tableLines matrix /\
  length lines = length matrix + 1 /\
  Forall (fun line => Js.countChar "|" line = Content.columnCount matrix + 1)
    lines.
Proof.
  intros matrix HR HC Hfree lines.
  assert (Hne : matrix <> []) by (destruct matrix; simpl in HR; [lia | discriminate]).
  assert (Hlines : lines = Content.tableLines matrix).
  { unfold lines. rewrite TableFacts.tableToMarkdown_lines by assumption.
    apply TableFacts.split_join.
    - unfold Content.tableLines. discriminate.
    - pose proof (TableFacts.tableLines_count Js.LF matrix eq_refl eq_refl Hne
                    (TableFacts.tableMatrix_free cellText tableEl)) as H.
      eapply Forall_impl; [|exact H]. intros line Hl. unfold Props.freeOf.
      rewrite Hl. simpl. lia. }
  split; [assumption|]. rewrite Hlines. split.
  - now apply TableFacts.tableLines_length.
  - pose proof (TableFacts.tableLines_count "|" matrix eq_refl eq_refl Hne Hfree)
      as H.
    eapply Forall_impl; [|exact H]. intros line Hl. rewrite Hl. simpl. lia.
Qed.

(** The two-by-two table [A, BB / CCC, D], serialized with
    [getTextFromFragment] for the cells. *)
Lemma table_markdown_shape_witness :
  let matrix := Content.tableMatrix Content.getText Samples.table2x2 in
  let lines :=
    Js.split Js.LF (Content.tableToMarkdown Content.getText Samples.table2x2) in
  lines = Content.tableLines matrix /\
  length lines = length matrix + 1 /\
  Forall (fun line => Js.countChar "|" line = Content.columnCount matrix + 1)
    lines.
Proof.
  apply (table_markdown_shape Content.getText Samples.table2x2).
  - vm_compute. lia.
  - vm_compute. lia.
  - vm_compute. repeat constructor.
Defined.

(** C1, counterexample.  A table of two rows and one column whose first
    cell reads [a|b]: the header line has three pipes, the two other
    lines have two. *)
Lemma table_markdown_counterexample :
  let matrix := Content.tableMatrix Content.getText Samples.pipeTable in
  let lines :=
    Js.split Js.LF (Content.tableToMarkdown Content.getText Samples.pipeTable) in
  length matrix = 2 /\
  Content.columnCount matrix = 1 /\
  lines = ["| a|b |"; "| --- |"; "| c   |"] /\
  map (Js.countChar "|") lines = [3; 2; 2] /\
  ~ Forall (fun line => Js.countChar "|" line = Content.columnCount matrix + 1)
      lines.
Proof.
  vm_compute. repeat split.
  intros H. inversion H as [|? ? H1 _]. discriminate.
Qed.

(** ** The rendered tree *)

Module DomFacts.
Import Dom.

(** Induction on a node with the property known of its children. *)
Lemma node_induction (P : node -> Prop) :
  (forall s, P (Text s)) ->
  (forall d, P (Other d)) ->
  (forall t a ch, Forall P ch -> P (Element t a ch)) ->
  (forall ch, Forall P ch -> P (Fragment ch)) ->
  forall n, P n.
Proof.
  intros HT HO HE HF.
  fix IH 1. intros [s|d|t a ch|ch].
  - apply HT.
  - apply HO.
  - apply HE. induction ch as [|c ch IHch]; constructor; [apply IH | assumption].
  - apply HF. induction ch as [|c ch IHch]; constructor; [apply IH | assumption].
Qed.

Lemma height_element_cons (t : string) (a : list (string * string))
  (c : node) (ch : list node) :
  height (Element t a (c :: ch))
  = Nat.max (S (height c)) (height (Element t a ch)).
Proof. reflexivity. Qed.

Lemma height_fragment_cons (c : node) (ch : list node) :
  height (Fragment (c :: ch)) = Nat.max (S (height c)) (height (Fragment ch)).
Proof. reflexivity. Qed.

Lemma descendants_element_cons (t : string) (a : list (string * string))
  (c : node) (ch : list node) :
  descendants (Element t a (c :: ch))
  = c :: descendants c ++ descendants (Element t a ch).
Proof. reflexivity. Qed.

Lemma descendants_fragment_cons (c : node) (ch : list node) :
  descendants (Fragment (c :: ch))
  = c :: descendants c ++ descendants (Fragment ch).
Proof. reflexivity. Qed.

(** A rewriting that replaces no node of a tree leaves the tree as it
    is. *)
Lemma rewriteChildren_none (C : Type) (enter : C -> node -> C)
  (visit : C -> node -> option (list node)) :
  forall root,
    (forall ctx d, In d (descendants root) -> visit ctx d = None) ->
    forall ctx, rewriteChildren enter visit ctx root = root.
Proof.
  apply (node_induction
           (fun root =>
              (forall ctx d, In d (descendants root) -> visit ctx d = None) ->
              forall ctx, rewriteChildren enter visit ctx root = root));
    try reflexivity.
  - intros t a ch Hch Hnone ctx. simpl. f_equal.
    generalize (enter ctx (Element t a ch)). intros inner.
    induction Hch as [|c ch Hc Hch IH]; [reflexivity|].
    rewrite descendants_element_cons in Hnone.
    rewrite (Hnone inner c) by now left.
    rewrite Hc by (intros ctx' d Hd; apply Hnone; right; apply in_or_app; now left).
    rewrite IH by (intros ctx' d Hd; apply Hnone; right; apply in_or_app; now right).
    reflexivity.
  - intros ch Hch Hnone ctx. simpl. f_equal.
    generalize (enter ctx (Fragment ch)). intros inner.
    induction Hch as [|c ch Hc Hch IH]; [reflexivity|].
    rewrite descendants_fragment_cons in Hnone.
    rewrite (Hnone inner c) by now left.
    rewrite Hc by (intros ctx' d Hd; apply Hnone; right; apply in_or_app; now left).
    rewrite IH by (intros ctx' d Hd; apply Hnone; right; apply in_or_app; now right).
    reflexivity.
Qed.

Lemma querySelectorAll_none (root : node) (sel : selector) :
  querySelectorAll root sel = [] ->
  forall d, In d (descendants root) -> matches d sel = false.
Proof.
  unfold querySelectorAll. intros Hnil d Hd.
  destruct (matches d sel) eqn:E; [|reflexivity].
  assert (Hin : In d (filter (fun d => matches d sel) (descendants root)))
    by (apply filter_In; now split).
  rewrite Hnil in Hin. contradiction.
Qed.

Lemma closest_found (el : located) (sel : selector) (a : node) (rest : located) :
  closest el sel = a :: rest -> In a el /\ matches a sel = true.
Proof.
  induction el as [|n el IH]; simpl; [discriminate|].
  destruct (matches n sel) eqn:E.
  - intros H. inversion H; subst. split; [now left | assumption].
  - intros H. destruct (IH H) as [Hin Hm]. split; [now right | assumption].
Qed.

Lemma closest_exists (el : located) (sel : selector) (a : node) :
  In a el -> matches a sel = true -> closest el sel <> [].
Proof.
  induction el as [|n el IH]; simpl; [contradiction|].
  intros [->|Hin] Hm.
  - rewrite Hm. discriminate.
  - destruct (matches n sel); [discriminate | now apply IH].
Qed.

Lemma self_element_not_null (n : located) :
  isElement (self n) = true -> isNull n = false.
Proof. destruct n; [discriminate | reflexivity]. Qed.

Lemma self_in (n : located) : isNull n = false -> In (self n) n.
Proof. destruct n; [discriminate | now left]. Qed.

(** A rewriting that replaces nothing and keeps its context changes
    nothing. *)
Lemma rewriteChildren_idle (C : Type) (enter : C -> node -> C)
  (visit : C -> node -> option (list node)) (ctx : C) :
  (forall n, enter ctx n = ctx) ->
  (forall n, visit ctx n = None) ->
  forall n, rewriteChildren enter visit ctx n = n.
Proof.
  intros Henter Hvisit. apply node_induction; try reflexivity.
  - intros t a ch Hch. simpl. rewrite Henter. f_equal.
    induction Hch as [|c ch Hc Hch IH]; [reflexivity|].
    rewrite Hvisit, Hc, IH. reflexivity.
  - intros ch Hch. simpl. rewrite Henter. f_equal.
    induction Hch as [|c ch Hc Hch IH]; [reflexivity|].
    rewrite Hvisit, Hc, IH. reflexivity.
Qed.

Lemma rewriteChildren_idle_below (C : Type) (enter : C -> node -> C)
  (visit : C -> node -> option (list node)) (outer ctx : C) (n : node) :
  enter outer n = ctx ->
  (forall x, enter ctx x = ctx) ->
  (forall x, visit ctx x = None) ->
  rewriteChildren enter visit outer n = n.
Proof.
  intros Houter Henter Hvisit.
  destruct n as [s|d|t a ch|ch]; try reflexivity; simpl; rewrite Houter; f_equal;
    clear Houter; (induction ch as [|c ch IH]; [reflexivity|]);
    rewrite Hvisit, rewriteChildren_idle, IH by assumption; reflexivity.
Qed.


End DomFacts.

(** ** Selection validity *)

Module AreaFacts.
Import Dom Content Props DomFacts.

Lemma isInsideSelector_spec (n : located) (selectors : list selector) :
  isInsideSelector n selectors = true <-> liesInside n selectors.
Proof.
  unfold isInsideSelector, liesInside.
  set (el := elementOf n). split.
  - destruct (isNull el || negb (isElement (self el))) eqn:E; [discriminate|].
    apply orb_false_iff in E as [Hnull Hel].
    apply negb_false_iff in Hel. intros H. split; [assumption|].
    apply existsb_exists in H as (sel & Hin & Hsel).
    apply orb_true_iff in Hsel as [Hm|Hc].
    + exists (self el), sel. repeat split; [now apply self_in | assumption..].
    + destruct (closest el sel) as [|a rest] eqn:Ec; [discriminate|].
      destruct (closest_found el sel a rest Ec) as [Ha Hm].
      exists a, sel. now repeat split.
  - intros [Hel (a & sel & Ha & Hin & Hm)].
    rewrite (self_element_not_null el Hel), Hel. simpl.
    apply existsb_exists. exists sel. split; [assumption|].
    apply orb_true_iff. right.
    pose proof (closest_exists el sel a Ha Hm) as Hc.
    destruct (closest el sel); [congruence | reflexivity].
Qed.

End AreaFacts.

(** C9 (amended).  For every selection with a range,
    [isValidSelectionArea] looks at the common ancestor container of the
    range: it returns false when that node lies inside an excluded
    region (input area, toolbar, button); true when it does not and
    lies inside a recognized response container; and true, by the
    permissive default, when it lies in neither. *)
Theorem selection_area_rule (sel : Dom.Selection) :
  Dom.rangeCount sel <> 0 ->
  let container := Dom.commonAncestorContainer (Dom.getRangeAt0 sel) in
  (Props.liesInside container Content.EXCLUDE_SELECTORS ->
   Content.isValidSelectionArea (Some sel) = false) /\
  (~ Props.liesInside container Content.EXCLUDE_SELECTORS ->
   Props.liesInside container Content.RESPONSE_SELECTORS ->
   Content.isValidSelectionArea (Some sel) = true) /\
  (~ Props.liesInside container Content.EXCLUDE_SELECTORS ->
   ~ Props.liesInside container Content.RESPONSE_SELECTORS ->
   Content.isValidSelectionArea (Some sel) = true).
Proof.
  intros Hcount container. unfold Content.isValidSelectionArea.
  apply Nat.eqb_neq in Hcount. rewrite Hcount. fold container.
  pose proof (AreaFacts.isInsideSelector_spec container Content.EXCLUDE_SELECTORS)
    as Hex.
  destruct (Content.isInsideSelector container Content.EXCLUDE_SELECTORS).
  - repeat split; intros; try reflexivity; exfalso; intuition.
  - repeat split; intros; try reflexivity.
    + exfalso. intuition discriminate.
    + destruct (Content.isInsideSelector container Content.RESPONSE_SELECTORS);
        reflexivity.
    + destruct (Content.isInsideSelector container Content.RESPONSE_SELECTORS);
        reflexivity.
Qed.

(** The paragraph of a response that holds an equation, selected: it
    lies in no excluded region and inside a response container, and is
    accepted. *)
Lemma selection_area_rule_witness :
  let sel := Samples.wholeEquation "x" in
  let container := Dom.commonAncestorContainer (Dom.getRangeAt0 sel) in
  Dom.rangeCount sel <> 0 /\
  ~ Props.liesInside container Content.EXCLUDE_SELECTORS /\
  Props.liesInside container Content.RESPONSE_SELECTORS /\
  Content.isValidSelectionArea (Some sel) = true.
Proof.
  intros sel container.
  assert (Hcount : Dom.rangeCount sel <> 0) by (simpl; lia).
  assert (Hex : ~ Props.liesInside container Content.EXCLUDE_SELECTORS).
  { intros H. apply AreaFacts.isInsideSelector_spec in H. discriminate H. }
  assert (Hin : Props.liesInside container Content.RESPONSE_SELECTORS).
  { apply AreaFacts.isInsideSelector_spec. reflexivity. }
  split; [exact Hcount|]. split; [exact Hex|]. split; [exact Hin|].
  exact (proj1 (proj2 (selection_area_rule sel Hcount)) Hex Hin).
Defined.

(** C9, counterexample.  A selection that starts in the label of a
    button and ends in the text of the response: its starting point
    lies inside an excluded region, its common ancestor does not, and
    the selection is accepted. *)
Lemma selection_area_counterexample :
  let sel := Samples.fromButtonIntoText in
  let range := Dom.getRangeAt0 sel in
  Props.liesInside (Dom.locate (Dom.document range) (Dom.startContainer range))
    Content.EXCLUDE_SELECTORS /\
  Content.isValidSelectionArea (Some sel) = true.
Proof.
  split; [|reflexivity].
  apply AreaFacts.isInsideSelector_spec. reflexivity.
Qed.

(** ** Extraction *)

Module ExtractFacts.
Import Js Dom Content Props StringFacts DomFacts.

Lemma trimStart_dollar (s : string) : trimStart (String "$" s) = String "$" s.
Proof. reflexivity. Qed.

Lemma trimEnd_dollar (s : string) :
  trimEnd (s ++ "$") = (s ++ "$")%string.
Proof.
  induction s as [|c s IH]; [reflexivity|].
  simpl. rewrite IH. destruct (s ++ "$")%string eqn:E; [|reflexivity].
  destruct s; discriminate.
Qed.

(** Text wrapped in dollar signs has nothing to trim. *)
Lemma trim_wrapMath (isBlock : bool) (latex : string) :
  trim (wrapMath isBlock latex) = wrapMath isBlock latex.
Proof.
  unfold trim, wrapMath. destruct isBlock.
  - change ("$$" ++ latex ++ "$$")%string
      with (String "$" (String "$" (latex ++ "$$"))).
    rewrite trimStart_dollar.
    replace (String "$" (String "$" (latex ++ "$$")))
      with ((String "$" (String "$" (latex ++ "$"))) ++ "$")%string.
    + apply trimEnd_dollar.
    + simpl. rewrite append_assoc. reflexivity.
  - change ("$" ++ latex ++ "$")%string with (String "$" (latex ++ "$")).
    rewrite trimStart_dollar.
    change (String "$" (latex ++ "$")) with ((String "$" latex) ++ "$")%string.
    apply trimEnd_dollar.
Qed.













Lemma has_data_math (d : node) (x : string) :
  getAttribute "data-math" d = Some x -> matches d DATA_MATH = true.
Proof.
  intros H. destruct d as [| |t a ch|]; try discriminate.
  unfold matches, matchesCompound, attrHolds. simpl in *. now rewrite H.
Qed.

Lemma replaceDataMath_miss (sel : selector) (isBlock : bool) (d : node) :
  matches d DATA_MATH = false -> replaceDataMath sel isBlock d = None.
Proof.
  intros H. unfold replaceDataMath.
  destruct (getAttribute "data-math" d) as [x|] eqn:E.
  - rewrite (has_data_math d x E) in H. discriminate.
  - destruct (matches d sel); reflexivity.
Qed.









(** The steps of the [try] block that throw: the cloning of the range,
    and the annotation of a fragment with math in it. *)
Lemma extractTry_throws (sel : Selection) (e : exn) :
  extractTry sel = Throw e <->
  directLatex (elementOf (commonAncestorContainer (getRangeAt0 sel))) = None /\
  (cloneContents (getRangeAt0 sel) = Throw e \/
   exists children,
     cloneContents (getRangeAt0 sel) = Ok children /\
     querySelector (Fragment children) ANY_MATH <> None /\
     annotateMathFromOriginalDOM (Fragment children) (getRangeAt0 sel)
     = Throw e).
Proof.
  unfold extractTry. cbv zeta.
  destruct (directLatex _) as [text|];
    [split; [discriminate | intros [? _]; discriminate]|].
  destruct (cloneContents (getRangeAt0 sel)) as [children|e'] eqn:Ec; cbn [bind].
  - destruct (querySelector (Fragment children) ANY_MATH) as [found|] eqn:Eq.
    + destruct (annotateMathFromOriginalDOM (Fragment children) (getRangeAt0 sel))
        as [annotated|e''] eqn:Ea; cbn [bind].
      * split; [discriminate|].
        intros [_ [H|(ch & H1 & _ & H3)]]; [discriminate|].
        inversion H1; subst ch. congruence.
      * split.
        -- intros H. inversion H; subst e''. split; [reflexivity|].
           right. exists children.
           split; [reflexivity|]. split; [congruence | assumption].
        -- intros [_ [H|(ch & H1 & _ & H3)]]; [discriminate|].
           inversion H1; subst ch. congruence.
    + split; [discriminate|].
      intros [_ [H|(ch & H1 & H2 & _)]]; [discriminate|].
      inversion H1; subst ch. congruence.
  - split.
    + intros H. inversion H; subst e'. split; [reflexivity | now left].
    + intros [_ [H|(ch & H1 & _)]]; [now inversion H | discriminate].
Qed.

End ExtractFacts.

(** C4.  [extractTextWithMath] never throws: for every selection
    ([null] included) it returns a string; and when a step of its [try]
    block throws, the string is the plain visual text of the selection,
    trimmed. *)
Theorem extract_fails_soft (selection : option Dom.Selection) :
  (exists text, Content.extractTextWithMath selection = Js.Ok text) /\
  (forall sel e,
     selection = Some sel ->
     Dom.rangeCount sel <> 0 ->
     Content.extractTry sel = Js.Throw e ->
     Content.extractTextWithMath selection
     = Js.Ok (Js.trim (Dom.toString sel))).
Proof.
  split.
  - destruct selection as [sel|]; simpl; [|now exists ""].
    destruct (Dom.rangeCount sel =? 0)%nat; [now exists ""|].
    destruct (Content.extractTry sel) as [text|e]; simpl; eauto.
  - intros sel e -> Hcount Hthrow. simpl.
    apply Nat.eqb_neq in Hcount. rewrite Hcount, Hthrow. reflexivity.
Qed.

(** A host that throws when the range is cloned: the text of the
    paragraph comes back trimmed. *)
Lemma extract_fails_soft_witness :
  Dom.rangeCount Samples.unclonable <> 0 /\
  Content.extractTry Samples.unclonable = Js.Throw Js.DOMException /\
  Content.extractTextWithMath (Some Samples.unclonable)
  = Js.Ok "The sky is blue".
Proof.
  assert (Hcount : Dom.rangeCount Samples.unclonable <> 0) by (simpl; lia).
  assert (Hthrow : Content.extractTry Samples.unclonable
                   = Js.Throw Js.DOMException) by reflexivity.
  split; [exact Hcount|]. split; [exact Hthrow|].
  exact (proj2 (extract_fails_soft (Some Samples.unclonable))
           Samples.unclonable Js.DOMException eq_refl Hcount Hthrow).
Defined.


(** ** The quote session and the send interception *)

Module ControllerFacts.
Import Js Dom Content Controller Props StringFacts.

Lemma nth_error_last (A : Type) (l : list A) (x : A) :
  nth_error (l ++ [x]) (length l) = Some x.
Proof. induction l as [|y l IH]; [reflexivity | exact IH]. Qed.

Lemma removeNth_last (A : Type) (l : list A) (x : A) :
  removeNth (length l) (l ++ [x]) = l.
Proof. induction l as [|y l IH]; [reflexivity | simpl; now rewrite IH]. Qed.

Lemma nativeSends_app (l1 l2 : list HostEffect) :
  nativeSends (l1 ++ l2) = nativeSends l1 + nativeSends l2.
Proof. unfold nativeSends. now rewrite filter_app, length_app. Qed.

(** A send gesture met with a quote and no bypass is stopped, and the
    script composes. *)
Lemma gesture_composes (s : State) (e : Event) :
  quotedText s <> "" ->
  isBypassingSend s = false ->
  sendGesture s e ->
  step s e = composeAndSend s.
Proof.
  intros Hq Hb [->|(onBubble & -> & Hin & Hfocus)].
  - unfold step, dispatchClick, handleSendClick.
    now rewrite (truthy_nonempty _ Hq), Hb.
  - unfold step, dispatchKeyDown, handleEnterToSend, handleKeyDown.
    rewrite (truthy_nonempty _ Hq), Hb, Hfocus. simpl.
    destruct (inputEl (page s)); [reflexivity | congruence].
Qed.

Lemma page_hideQuoteChip (s : State) : page (hideQuoteChip s) = page s.
Proof. unfold hideQuoteChip. simpl. destruct (chipEl s); reflexivity. Qed.

(** [composeAndSend] when nothing can be written to. *)
Lemma compose_without_surface (s : State) :
  quotedText s <> "" ->
  canInject (page s) = false ->
  composeAndSend s = hideQuoteChip s.
Proof.
  intros Hq Hc. unfold composeAndSend, injectFormattedText.
  now rewrite (truthy_nonempty _ Hq), page_hideQuoteChip, Hc.
Qed.

End ControllerFacts.

(** C3 (amended).  In every state that holds a quote with its chip, for
    every send gesture that makes the script compose: if the composed
    message cannot be injected, the quote session is cleared
    ([quotedText] and [quotedDisplayText] are empty and the chip is
    hidden), nothing reaches the host, so no native send action, no
    callback is scheduled and the bypass flag stays unset. *)
Theorem compose_failure_clears_quote (s : Controller.State)
  (e : Controller.Event) :
  Controller.quotedText s <> "" ->
  Controller.chipEl s = true ->
  Controller.isBypassingSend s = false ->
  Props.sendGesture s e ->
  Controller.canInject (Controller.page s) = false ->
  let s' := Controller.step s e in
  Controller.quotedText s' = "" /\
  Controller.quotedDisplayText s' = "" /\
  Controller.chipVisible s' = false /\
  Controller.hostLog s' = Controller.hostLog s /\
  Controller.pending s' = Controller.pending s /\
  Controller.isBypassingSend s' = false.
Proof.
  intros Hq Hchip Hb Hgesture Hinject s'. unfold s'.
  rewrite (ControllerFacts.gesture_composes s e Hq Hb Hgesture).
  rewrite (ControllerFacts.compose_without_surface s Hq Hinject).
  unfold Controller.hideQuoteChip. simpl. rewrite Hchip. simpl.
  repeat split. exact Hb.
Qed.

(** The send button clicked on a page without an input. *)
Lemma compose_failure_clears_quote_witness :
  let s := Samples.quoting Samples.pageWithoutInput in
  let s' := Controller.step s (Controller.UserClick Controller.OnSendButton) in
  Controller.quotedText s' = "" /\
  Controller.quotedDisplayText s' = "" /\
  Controller.chipVisible s' = false /\
  Controller.hostLog s' = Controller.hostLog s /\
  Controller.pending s' = Controller.pending s /\
  Controller.isBypassingSend s' = false.
Proof.
  apply (compose_failure_clears_quote
           (Samples.quoting Samples.pageWithoutInput)
           (Controller.UserClick Controller.OnSendButton)).
  - discriminate.
  - reflexivity.
  - reflexivity.
  - left. reflexivity.
  - reflexivity.
Defined.

(** C3, counterexample.  The script holds the quote [q], its chip is
    shown, and the page has no input: after a click on the send button
    the quote is gone and the chip hidden. *)
Lemma compose_failure_counterexample :
  let s := Samples.quoting Samples.pageWithoutInput in
  let s' := Controller.step s (Controller.UserClick Controller.OnSendButton) in
  Controller.quotedText s = "q" /\
  Controller.chipVisible s = true /\
  Controller.canInject (Controller.page s) = false /\
  Controller.quotedText s' <> Controller.quotedText s /\
  Controller.quotedDisplayText s' <> Controller.quotedDisplayText s /\
  Controller.chipVisible s' = false.
Proof. repeat split; discriminate. Qed.

Module SessionFacts.
Import Js Dom Content Controller Props.

Section Origin.

Variable origin : Selection -> Prop.

#[local] Abbreviation traced := (textsTraced origin).

(** [textsTraced] reads five fields of the state only. *)
Lemma traced_frame (s s' : State) :
  currentSelectedText s' = currentSelectedText s ->
  currentDisplayText s' = currentDisplayText s ->
  quotedText s' = quotedText s ->
  quotedDisplayText s' = quotedDisplayText s ->
  chipEl s' = chipEl s ->
  traced s -> traced s'.
Proof. unfold textsTraced. intros -> -> -> -> ->. exact (fun H => H). Qed.

(** A state without a quote, whose current texts are those of [s]. *)
Lemma traced_unquoted (s s' : State) :
  currentSelectedText s' = currentSelectedText s ->
  currentDisplayText s' = currentDisplayText s ->
  quotedText s' = "" ->
  traced s -> traced s'.
Proof.
  unfold textsTraced. intros -> -> -> [Hcur _]. split; [assumption | congruence].
Qed.

(** A state without a current text, whose quote is that of [s]. *)
Lemma traced_unselected (s s' : State) :
  currentSelectedText s' = "" ->
  quotedText s' = quotedText s ->
  quotedDisplayText s' = quotedDisplayText s ->
  chipEl s' = chipEl s ->
  traced s -> traced s'.
Proof.
  unfold textsTraced. intros -> -> -> -> [_ Hq].
  split; [congruence | assumption].
Qed.

Lemma hideBubble_traced (s : State) : traced s -> traced (hideBubble s).
Proof.
  apply traced_frame; unfold hideBubble; destruct (bubbleEl s); reflexivity.
Qed.

Lemma hideQuoteChip_traced (s : State) : traced s -> traced (hideQuoteChip s).
Proof.
  apply traced_unquoted; unfold hideQuoteChip; simpl;
    destruct (chipEl s); reflexivity.
Qed.

Lemma composeAndSend_traced (s : State) : traced s -> traced (composeAndSend s).
Proof.
  intros H. unfold composeAndSend.
  destruct (negb (truthy (quotedText s))); [assumption|].
  unfold injectFormattedText.
  destruct (canInject (page (hideQuoteChip s))); simpl.
  - revert H. apply traced_unquoted; unfold hideQuoteChip; simpl;
      destruct (chipEl s); reflexivity.
  - now apply hideQuoteChip_traced.
Qed.

(** The bubble activated: the current texts become the quote. *)
Lemma handleBubbleClick_traced (s : State) :
  traced s -> traced (handleBubbleClick s).
Proof.
  intros H. unfold handleBubbleClick.
  destruct (truthy (currentSelectedText s)) eqn:E; simpl;
    [|now apply hideBubble_traced].
  assert (Hne : currentSelectedText s <> "")
    by (destruct (currentSelectedText s); [discriminate | congruence]).
  destruct H as [Hcur _]. destruct (Hcur Hne) as (sel & Hsel & Hext & Hdisp).
  unfold textsTraced, showQuoteChip, hideBubble, setTimeout,
    requestAnimationFrame. simpl.
  destruct (bubbleEl s); simpl; (split; [congruence|]); intros _;
    (split; [|reflexivity]);
    exists sel; (split; [assumption|]); (split; [assumption|]);
    now rewrite Hdisp.
Qed.

Lemma handleKeyDown_traced (key : Key) (s : State) :
  traced s -> traced (handleKeyDown key s).
Proof.
  intros H. destruct key; try assumption. unfold handleKeyDown.
  apply hideBubble_traced, hideQuoteChip_traced in H. revert H.
  unfold textsTraced. simpl. intros [_ Hq]. split; [congruence | assumption].
Qed.

Lemma handleSendClick_traced (target : ClickTarget) (s : State) :
  traced s -> traced (fst (handleSendClick target s)).
Proof.
  intros H. unfold handleSendClick.
  destruct (negb (truthy (quotedText s)) || isBypassingSend s); [assumption|].
  destruct (negb (isSendButtonClick target)); [assumption|].
  now apply composeAndSend_traced.
Qed.

Lemma handleEnterToSend_traced (key : Key) (shiftKey : bool) (s : State) :
  traced s -> traced (fst (handleEnterToSend key shiftKey s)).
Proof.
  intros H. unfold handleEnterToSend.
  destruct (negb (truthy (quotedText s)) || isBypassingSend s); [assumption|].
  destruct (negb (isEnter key) || shiftKey); [assumption|].
  destruct (inputEl (page s)); [|assumption].
  destruct (negb (inputFocused (page s))); [assumption|].
  now apply composeAndSend_traced.
Qed.

Lemma reachesHost_traced (e : HostEffect) (s : State) :
  traced s -> traced (reachesHost e s).
Proof. apply traced_frame; reflexivity. Qed.

Lemma dispatchClick_traced (origin' : Origin) (target : ClickTarget)
  (s : State) :
  traced s -> traced (dispatchClick origin' target s).
Proof.
  intros H. unfold dispatchClick.
  pose proof (handleSendClick_traced target s H) as H1.
  destruct (handleSendClick target s) as [s1 stopped]. simpl in H1.
  destruct stopped; [assumption|].
  destruct target.
  - now apply reachesHost_traced.
  - now apply handleBubbleClick_traced.
  - now apply hideQuoteChip_traced.
  - assumption.
Qed.

Lemma dispatchKeyDown_traced (origin' : Origin) (key : Key)
  (shiftKey toInput onBubble : bool) (s : State) :
  traced s ->
  traced (dispatchKeyDown origin' key shiftKey toInput onBubble s).
Proof.
  intros H. unfold dispatchKeyDown.
  apply (handleKeyDown_traced key) in H.
  pose proof (handleEnterToSend_traced key shiftKey _ H) as H2.
  destruct (handleEnterToSend key shiftKey (handleKeyDown key s))
    as [s2 stopped]. simpl in H2.
  destruct stopped; [assumption|].
  destruct toInput.
  - destruct (isEnter key && negb shiftKey); [|assumption].
    now apply reachesHost_traced.
  - destruct onBubble; [|assumption].
    destruct key; try assumption; now apply handleBubbleClick_traced.
Qed.

Lemma onConversationChange_traced (s : State) :
  traced s -> traced (onConversationChange s).
Proof.
  intros H. apply hideQuoteChip_traced, hideBubble_traced in H. revert H.
  unfold onConversationChange, textsTraced. simpl.
  intros [_ Hq]. split; [congruence | assumption].
Qed.

Lemma checkUrl_traced (s : State) : traced s -> traced (checkUrl s).
Proof.
  intros H. unfold checkUrl.
  destruct (negb (href (page s) =? lastUrl s)%string); [|assumption].
  apply onConversationChange_traced. revert H. apply traced_frame; reflexivity.
Qed.

(** The callback of [handleMouseUp] reads the selection that the
    window holds when it runs. *)
Lemma readSelection_traced (s : State) :
  (forall sel, selection (page s) = Some sel -> origin sel) ->
  traced s -> traced (readSelection s).
Proof.
  intros Hheld H. unfold readSelection.
  destruct (selection (page s)) as [sel|] eqn:Esel.
  - destruct (extractTextWithMath (Some sel)) as [text|e] eqn:Eext;
      [|assumption].
    assert (Hclear : traced
                       (withDisplayText "" (withSelectedText "" (hideBubble s)))).
    { apply hideBubble_traced in H. revert H.
      apply traced_unselected; reflexivity. }
    destruct (negb (truthy text)); [assumption|].
    destruct (negb (isValidSelectionArea (Some sel))); [assumption|].
    destruct H as [_ Hq]. unfold textsTraced, showBubble. simpl.
    split; [|assumption]. intros _. exists sel.
    split; [now apply Hheld|]. now split.
  - simpl. apply hideBubble_traced in H. revert H.
    apply traced_unselected; reflexivity.
Qed.

Lemma triggerSend_traced (s : State) : traced s -> traced (triggerSend s).
Proof.
  intros H. unfold triggerSend.
  apply traced_frame with
    (s := if sendButton (page s) then
            if sendDisabled (page s) then s
            else dispatchClick Synthesized OnSendButton s
          else match inputEl (page s) with
               | Some _ => dispatchKeyDown Synthesized Enter false true false s
               | None => s
               end); try reflexivity.
  destruct (sendButton (page s));
    [destruct (sendDisabled (page s));
       [assumption | now apply dispatchClick_traced]|].
  destruct (inputEl (page s)); [now apply dispatchKeyDown_traced | assumption].
Qed.

Lemma runTask_traced (task : Task) (s : State) :
  (forall sel, selection (page s) = Some sel -> origin sel) ->
  traced s -> traced (runTask task s).
Proof.
  intros Hheld H. destruct task; simpl.
  - now apply readSelection_traced.
  - destruct (inputEl (page s)); [|assumption].
    revert H. apply traced_frame; reflexivity.
  - revert H. apply traced_frame; reflexivity.
  - now apply triggerSend_traced.
  - revert H. apply traced_frame; reflexivity.
  - now apply checkUrl_traced.
Qed.

Lemma step_traced (s : State) (e : Event) :
  (forall sel, selection (page s) = Some sel -> origin sel) ->
  traced s -> traced (step s e).
Proof.
  intros Hheld H. destruct e; simpl.
  - destruct (bubbleEl s && onBubble); [assumption|].
    revert H. apply traced_frame; reflexivity.
  - destruct (bubbleEl s && negb onBubble); [|assumption].
    now apply hideBubble_traced.
  - now apply hideBubble_traced.
  - now apply dispatchKeyDown_traced.
  - now apply dispatchClick_traced.
  - revert H. apply traced_frame; reflexivity.
  - now apply checkUrl_traced.
  - revert H. apply traced_frame; reflexivity.
  - destruct (negb (truthy (quotedText s))); [assumption|].
    destruct removedResponse; [|assumption].
    now apply onConversationChange_traced.
  - assumption.
  - destruct (nth_error (pending s) i) as [[delay task]|]; [|assumption].
    apply runTask_traced; [exact Hheld|].
    revert H. apply traced_frame; reflexivity.
  - revert H. apply traced_frame; reflexivity.
Qed.

End Origin.

(** More selections to come from. *)
Lemma traced_more (origin origin' : Selection -> Prop) (s : State) :
  (forall sel, origin sel -> origin' sel) ->
  textsTraced origin s -> textsTraced origin' s.
Proof.
  intros Hmore [Hcur Hq]. split.
  - intros Hne. destruct (Hcur Hne) as (sel & Hsel & Hrest).
    exists sel. split; [now apply Hmore | assumption].
  - intros Hne. destruct (Hq Hne) as [(sel & Hsel & Hrest) Hchip].
    split; [|assumption]. exists sel. split; [now apply Hmore | assumption].
Qed.

Lemma run_snoc (s : State) (events : list Event) (e : Event) :
  run s (events ++ [e]) = step (run s events) e.
Proof. unfold run. now rewrite fold_left_app. Qed.

(** In every state the script reaches, its texts come from selections
    that the window held during the run. *)
Lemma run_traced (p : Page) (events : list Event) :
  textsTraced (heldBefore p events) (run (initial p) events).
Proof.
  induction events as [|e events IH] using rev_ind.
  - split; simpl; congruence.
  - rewrite run_snoc. apply step_traced.
    + intros sel Hsel. exists events, [e]. now split.
    + revert IH. apply traced_more.
      intros sel (before & after & -> & Hsel).
      exists before, (after ++ [e]). split; [now rewrite app_assoc | assumption].
Qed.

(** In every state the script reaches, a quote has its chip. *)
Lemma quote_has_chip (p : Page) (events : list Event) :
  let s := run (initial p) events in
  quotedText s <> "" -> chipEl s = true.
Proof.
  intros s Hq.
  destruct (run_traced p events) as [_ Hquoted].
  exact (proj2 (Hquoted Hq)).
Qed.

End SessionFacts.

(** C7 (amended).  In every state the script reaches from its start,
    whatever the events, a quote session that exists was captured from
    a selection that the window held at an earlier moment of the run:
    its raw text is what [extractTextWithMath] gives for that selection,
    and its display text is the trimmed plain visual text of that
    selection when this text is not empty, and the raw text
    otherwise. *)
Theorem display_text_of_session (p : Controller.Page)
  (events : list Controller.Event) :
  let s := Controller.run (Controller.initial p) events in
  Controller.quotedText s <> "" ->
  exists before after sel,
    events = before ++ after /\
    Controller.selection
      (Controller.page (Controller.run (Controller.initial p) before))
    = Some sel /\
    Content.extractTextWithMath (Some sel)
    = Js.Ok (Controller.quotedText s) /\
    Controller.quotedDisplayText s
    = if Js.truthy (Js.trim (Dom.toString sel))
      then Js.trim (Dom.toString sel)
      else Controller.quotedText s.
Proof.
  intros s Hq.
  destruct (SessionFacts.run_traced p events) as [_ Hquoted].
  destruct (Hquoted Hq) as [(sel & (before & after & Hsplit & Hheld) & Hext
                             & Hdisp) _].
  exists before, after, sel. repeat split; assumption.
Qed.

(** The equation of a response, selected from end to end and captured:
    the chip shows its visual text. *)
Lemma display_text_of_session_witness :
  let sel := Samples.wholeEquation "x" in
  let p := Samples.chatPage (Some sel) in
  let s := Controller.run (Controller.initial p) Samples.capture in
  Controller.quotedText s <> "" /\
  exists before after sel',
    Samples.capture = before ++ after /\
    Controller.selection
      (Controller.page (Controller.run (Controller.initial p) before))
    = Some sel' /\
    Content.extractTextWithMath (Some sel')
    = Js.Ok (Controller.quotedText s) /\
    Controller.quotedDisplayText s
    = if Js.truthy (Js.trim (Dom.toString sel'))
      then Js.trim (Dom.toString sel')
      else Controller.quotedText s.
Proof.
  intros sel p s.
  assert (Hv : Controller.quotedText s = "$x$") by (vm_compute; reflexivity).
  assert (Hq : Controller.quotedText s <> "") by (rewrite Hv; discriminate).
  split; [exact Hq|].
  exact (display_text_of_session p Samples.capture Hq).
Defined.

(** C7, counterexample.  A caret placed in a rendered equation (a
    collapsed selection, whose visual text is empty) and captured: the
    display text of the session is its raw text, not the visual text. *)
Lemma display_text_counterexample :
  let sel := Samples.caretInEquation "x" in
  let s :=
    Controller.run (Controller.initial (Samples.chatPage (Some sel)))
      Samples.capture in
  Js.trim (Dom.toString sel) = "" /\
  Controller.quotedText s = "$x$" /\
  Controller.quotedDisplayText s = Controller.quotedText s /\
  Controller.quotedDisplayText s <> Js.trim (Dom.toString sel).
Proof. repeat split. discriminate. Qed.

(** ** The text serializer is well defined *)

Module SerializerFacts.
Import Js Dom Content DomFacts.

(** What lies below a node is less high than the node. *)
Lemma descendants_lower :
  forall n d, In d (descendants n) -> height d < height n.
Proof.
  apply (node_induction (fun n => forall d, In d (descendants n) ->
                                   height d < height n));
    try (intros; simpl in *; contradiction).
  - intros t a ch Hch. induction Hch as [|c ch Hc Hch IH]; intros d Hd;
      [contradiction|].
    rewrite descendants_element_cons in Hd. rewrite height_element_cons.
    destruct Hd as [->|Hd]; [lia|].
    apply in_app_or in Hd as [Hd|Hd].
    + specialize (Hc d Hd). lia.
    + specialize (IH d Hd). lia.
  - intros ch Hch. induction Hch as [|c ch Hc Hch IH]; intros d Hd;
      [contradiction|].
    rewrite descendants_fragment_cons in Hd. rewrite height_fragment_cons.
    destruct Hd as [->|Hd]; [lia|].
    apply in_app_or in Hd as [Hd|Hd].
    + specialize (Hc d Hd). lia.
    + specialize (IH d Hd). lia.
Qed.

Lemma child_is_descendant (n c : node) :
  In c (childNodes n) -> In c (descendants n).
Proof.
  destruct n as [| |t a ch|ch]; simpl childNodes; try contradiction.
  - induction ch as [|x ch IH]; [contradiction|].
    rewrite descendants_element_cons.
    intros [->|Hc]; [now left | right; apply in_or_app; right; now apply IH].
  - induction ch as [|x ch IH]; [contradiction|].
    rewrite descendants_fragment_cons.
    intros [->|Hc]; [now left | right; apply in_or_app; right; now apply IH].
Qed.

Lemma child_lower (n c : node) : In c (childNodes n) -> height c < height n.
Proof. intros Hc. now apply descendants_lower, child_is_descendant. Qed.

Lemma querySelectorAll_lower (n d : node) (sel : selector) :
  In d (querySelectorAll n sel) -> height d < height n.
Proof.
  unfold querySelectorAll. intros Hd. apply filter_In in Hd as [Hd _].
  now apply descendants_lower.
Qed.

(** The table depends on the text of nodes at least two levels below
    it only. *)
Lemma tableToMarkdown_ext (f g : node -> string) (tableEl : node) :
  (forall cell, S (height cell) < height tableEl -> f cell = g cell) ->
  tableToMarkdown f tableEl = tableToMarkdown g tableEl.
Proof.
  intros Hfg.
  assert (Hm : tableMatrix f tableEl = tableMatrix g tableEl).
  { unfold tableMatrix. apply map_ext_in. intros tr Htr.
    apply map_ext_in. intros cell Hcell. rewrite Hfg; [reflexivity|].
    apply querySelectorAll_lower in Htr. apply querySelectorAll_lower in Hcell.
    lia. }
  unfold tableToMarkdown. now rewrite Hm.
Qed.

(** With more fuel than the tree is high, the serializer does not
    depend on the fuel. *)
Lemma getTextFromFragment_fuel :
  forall fuel1 fuel2 n,
    height n < fuel1 -> height n < fuel2 ->
    getTextFromFragment fuel1 n = getTextFromFragment fuel2 n.
Proof.
  induction fuel1 as [|fuel1 IH]; intros fuel2 n H1 H2; [lia|].
  destruct fuel2 as [|fuel2]; [lia|].
  destruct n as [s|d|t a ch|ch]; try reflexivity.
  - cbn [getTextFromFragment].
    rewrite (tableToMarkdown_ext (getTextFromFragment fuel1)
               (getTextFromFragment fuel2) (Element t a ch))
      by (intros cell Hcell; apply IH; lia).
    replace (map (getTextFromFragment fuel1) (childNodes (Element t a ch)))
      with (map (getTextFromFragment fuel2) (childNodes (Element t a ch)));
      [reflexivity|].
    apply map_ext_in. intros c Hc. symmetry.
    apply child_lower in Hc. apply IH; lia.
  - cbn [getTextFromFragment].
    rewrite (tableToMarkdown_ext (getTextFromFragment fuel1)
               (getTextFromFragment fuel2) (Fragment ch))
      by (intros cell Hcell; apply IH; lia).
    replace (map (getTextFromFragment fuel1) (childNodes (Fragment ch)))
      with (map (getTextFromFragment fuel2) (childNodes (Fragment ch)));
      [reflexivity|].
    apply map_ext_in. intros c Hc. symmetry.
    apply child_lower in Hc. apply IH; lia.
Qed.

(** [getText] is the serializer with enough fuel, and obeys the
    equation of the source on the children of a node. *)
Lemma getText_enough (fuel : nat) (n : node) :
  height n < fuel -> getTextFromFragment fuel n = getText n.
Proof. intros H. apply getTextFromFragment_fuel; [assumption | lia]. Qed.

End SerializerFacts.

(** ** The bypass flag *)

Module BypassFacts.
Import Js Dom Content Controller Props.

Lemma guarded_frame (s s' : State) :
  isBypassingSend s' = isBypassingSend s ->
  pending s' = pending s ->
  bypassGuarded s -> bypassGuarded s'.
Proof. unfold bypassGuarded, sendTasks. intros -> ->. exact (fun H => H). Qed.

Lemma sendTasks_setTimeout (task : Task) (delay : nat) (s : State) :
  sendTasks (setTimeout task delay s)
  = sendTasks s + (if isSendTask (delay, task) then 1 else 0).
Proof.
  unfold sendTasks, setTimeout. simpl. rewrite filter_app, length_app. simpl.
  destruct (isSendTask (delay, task)); reflexivity.
Qed.

Lemma sendTasks_removeNth (l : list (nat * Task)) :
  forall i t,
    nth_error l i = Some t ->
    length (filter isSendTask l)
    = length (filter isSendTask (removeNth i l))
      + (if isSendTask t then 1 else 0).
Proof.
  induction l as [|x l IH]; intros i t H; [destruct i; discriminate|].
  destruct i as [|i]; simpl in H |- *.
  - inversion H; subst. destruct (isSendTask t); simpl; lia.
  - destruct (isSendTask x); simpl; rewrite (IH i t H); lia.
Qed.

Lemma hideBubble_keeps (s : State) : keeps s (hideBubble s).
Proof. unfold hideBubble. destruct (bubbleEl s); split; reflexivity. Qed.

Lemma hideQuoteChip_keeps (s : State) : keeps s (hideQuoteChip s).
Proof. unfold hideQuoteChip. simpl. destruct (chipEl s); split; reflexivity. Qed.

Lemma handleKeyDown_keeps (key : Key) (s : State) : keeps s (handleKeyDown key s).
Proof.
  destruct key; try (split; reflexivity). unfold handleKeyDown. simpl.
  destruct (hideQuoteChip_keeps (hideBubble s)) as [H1 H2].
  destruct (hideBubble_keeps s) as [H3 H4].
  split; simpl; congruence.
Qed.

Lemma onConversationChange_keeps (s : State) : keeps s (onConversationChange s).
Proof.
  unfold onConversationChange.
  destruct (hideBubble_keeps (hideQuoteChip s)) as [H1 H2].
  destruct (hideQuoteChip_keeps s) as [H3 H4].
  split; simpl; congruence.
Qed.

Lemma checkUrl_keeps (s : State) : keeps s (checkUrl s).
Proof.
  unfold checkUrl. destruct (negb (href (page s) =? lastUrl s)%string);
    [|split; reflexivity].
  destruct (onConversationChange_keeps (withLastUrl (href (page s)) s))
    as [H1 H2].
  split; simpl in *; congruence.
Qed.

Lemma readSelection_keeps (s : State) : keeps s (readSelection s).
Proof.
  unfold readSelection. destruct (hideBubble_keeps s) as [H1 H2].
  destruct (selection (page s)) as [sel|].
  - destruct (extractTextWithMath (Some sel)) as [text|e]; [|split; reflexivity].
    destruct (negb (truthy text)); [split; simpl; assumption|].
    destruct (negb (isValidSelectionArea (Some sel)));
      split; simpl; try assumption; reflexivity.
  - simpl. split; simpl; assumption.
Qed.

(** The bubble activated: two callbacks more, none of them of
    [composeAndSend]. *)
Lemma handleBubbleClick_guarded (s : State) :
  bypassGuarded s -> bypassGuarded (handleBubbleClick s).
Proof.
  intros H. unfold handleBubbleClick.
  destruct (negb (truthy (currentSelectedText s))).
  - destruct (hideBubble_keeps s) as [H1 H2]. revert H.
    now apply guarded_frame.
  - unfold bypassGuarded in *. rewrite sendTasks_setTimeout. simpl.
    unfold sendTasks, showQuoteChip, requestAnimationFrame, hideBubble in *.
    simpl. destruct (bubbleEl s); simpl;
      rewrite filter_app, length_app; simpl; rewrite !Nat.add_0_r; exact H.
Qed.

(** Composing, which the handlers do with the flag unset only. *)
Lemma composeAndSend_guarded (s : State) :
  isBypassingSend s = false ->
  bypassGuarded s -> bypassGuarded (composeAndSend s).
Proof.
  intros Hb H. unfold composeAndSend.
  destruct (negb (truthy (quotedText s))); [assumption|].
  destruct (hideQuoteChip_keeps s) as [H1 H2].
  unfold injectFormattedText.
  destruct (canInject (page (hideQuoteChip s))); simpl.
  - right. split; [reflexivity|]. rewrite sendTasks_setTimeout. simpl.
    unfold sendTasks. simpl. rewrite H2.
    destruct H as [[_ H]|[H _]]; [unfold sendTasks in H; lia | congruence].
  - revert H. now apply guarded_frame.
Qed.

Lemma handleSendClick_guarded (target : ClickTarget) (s : State) :
  bypassGuarded s -> bypassGuarded (fst (handleSendClick target s)).
Proof.
  intros H. unfold handleSendClick.
  destruct (negb (truthy (quotedText s))); simpl; [assumption|].
  destruct (isBypassingSend s) eqn:Hb; [assumption|].
  destruct (negb (isSendButtonClick target)); [assumption|].
  now apply composeAndSend_guarded.
Qed.

Lemma handleEnterToSend_guarded (key : Key) (shiftKey : bool) (s : State) :
  bypassGuarded s -> bypassGuarded (fst (handleEnterToSend key shiftKey s)).
Proof.
  intros H. unfold handleEnterToSend.
  destruct (negb (truthy (quotedText s))); simpl; [assumption|].
  destruct (isBypassingSend s) eqn:Hb; [assumption|].
  destruct (negb (isEnter key) || shiftKey); [assumption|].
  destruct (inputEl (page s)); [|assumption].
  destruct (negb (inputFocused (page s))); [assumption|].
  now apply composeAndSend_guarded.
Qed.

Lemma dispatchClick_guarded (origin : Origin) (target : ClickTarget) (s : State) :
  bypassGuarded s -> bypassGuarded (dispatchClick origin target s).
Proof.
  intros H. unfold dispatchClick.
  pose proof (handleSendClick_guarded target s H) as H1.
  destruct (handleSendClick target s) as [s1 stopped]. simpl in H1.
  destruct stopped; [assumption|].
  destruct target.
  - revert H1. apply guarded_frame; reflexivity.
  - now apply handleBubbleClick_guarded.
  - destruct (hideQuoteChip_keeps s1). revert H1. now apply guarded_frame.
  - assumption.
Qed.

Lemma dispatchKeyDown_guarded (origin : Origin) (key : Key)
  (shiftKey toInput onBubble : bool) (s : State) :
  bypassGuarded s ->
  bypassGuarded (dispatchKeyDown origin key shiftKey toInput onBubble s).
Proof.
  intros H. unfold dispatchKeyDown.
  assert (H0 : bypassGuarded (handleKeyDown key s)).
  { destruct (handleKeyDown_keeps key s). revert H. now apply guarded_frame. }
  pose proof (handleEnterToSend_guarded key shiftKey _ H0) as H2.
  destruct (handleEnterToSend key shiftKey (handleKeyDown key s))
    as [s2 stopped]. simpl in H2.
  destruct stopped; [assumption|].
  destruct toInput.
  - destruct (isEnter key && negb shiftKey); [|assumption].
    revert H2. apply guarded_frame; reflexivity.
  - destruct onBubble; [|assumption].
    destruct key; try assumption; now apply handleBubbleClick_guarded.
Qed.

(** With the flag set, the send of the script goes by the handlers: it
    reaches the host, and nothing else changes. *)
Lemma dispatchClick_bypassed (s : State) :
  isBypassingSend s = true ->
  dispatchClick Synthesized OnSendButton s
  = reachesHost (SendClick Synthesized) s.
Proof.
  intros Hb. unfold dispatchClick, handleSendClick.
  now rewrite Hb, orb_true_r.
Qed.

Lemma dispatchKeyDown_bypassed (s : State) :
  isBypassingSend s = true ->
  dispatchKeyDown Synthesized Enter false true false s
  = reachesHost (SendEnter Synthesized) s.
Proof.
  intros Hb. unfold dispatchKeyDown, handleEnterToSend, handleKeyDown.
  now rewrite Hb, orb_true_r.
Qed.

(** The deferred send, run with the flag set. *)
Lemma triggerSend_bypassed (s : State) :
  isBypassingSend s = true ->
  triggerSend s
  = setTimeout ClearBypass 300
      (if sendButton (page s) then
         if sendDisabled (page s) then s
         else reachesHost (SendClick Synthesized) s
       else match inputEl (page s) with
            | Some _ => reachesHost (SendEnter Synthesized) s
            | None => s
            end).
Proof.
  intros Hb. unfold triggerSend.
  rewrite (dispatchClick_bypassed s Hb), (dispatchKeyDown_bypassed s Hb).
  reflexivity.
Qed.

Lemma step_guarded (s : State) (e : Event) :
  bypassGuarded s -> bypassGuarded (step s e).
Proof.
  intros H. destruct e; simpl.
  - destruct (bubbleEl s && onBubble); [assumption|].
    unfold bypassGuarded in *. rewrite sendTasks_setTimeout. simpl.
    now rewrite Nat.add_0_r.
  - destruct (bubbleEl s && negb onBubble); [|assumption].
    destruct (hideBubble_keeps s). revert H. now apply guarded_frame.
  - destruct (hideBubble_keeps s). revert H. now apply guarded_frame.
  - now apply dispatchKeyDown_guarded.
  - now apply dispatchClick_guarded.
  - revert H. apply guarded_frame; reflexivity.
  - destruct (checkUrl_keeps s). revert H. now apply guarded_frame.
  - unfold bypassGuarded in *. rewrite sendTasks_setTimeout. simpl.
    now rewrite Nat.add_0_r.
  - destruct (negb (truthy (quotedText s))); [assumption|].
    destruct removedResponse; [|assumption].
    destruct (onConversationChange_keeps s). revert H. now apply guarded_frame.
  - assumption.
  - destruct (nth_error (pending s) i) as [[delay task]|] eqn:Enth; [|assumption].
    pose proof (sendTasks_removeNth (pending s) i (delay, task) Enth) as Hrm.
    set (s0 := withPending (removeNth i (pending s)) s).
    assert (Hb0 : isBypassingSend s0 = isBypassingSend s) by reflexivity.
    assert (Hp0 : sendTasks s0 = length (filter isSendTask (removeNth i (pending s))))
      by reflexivity.
    unfold bypassGuarded, sendTasks in H.
    destruct task; cbn [isSendTask snd] in Hrm; simpl.
    + destruct (readSelection_keeps s0) as [H1 H2].
      unfold bypassGuarded, sendTasks. rewrite H1, H2. simpl.
      rewrite Nat.add_0_r in Hrm. now rewrite <- Hrm.
    + unfold bypassGuarded, sendTasks.
      destruct (inputEl (page s)); simpl;
        rewrite Nat.add_0_r in Hrm; now rewrite <- Hrm.
    + unfold bypassGuarded, sendTasks. simpl.
      rewrite Nat.add_0_r in Hrm. now rewrite <- Hrm.
    + destruct H as [[_ H]|[Hb H]]; [lia|].
      rewrite (triggerSend_bypassed s0 Hb). right.
      rewrite sendTasks_setTimeout. simpl.
      destruct (sendButton (page s));
        [destruct (sendDisabled (page s)) | destruct (inputEl (page s))];
        unfold sendTasks; simpl; (split; [exact Hb | lia]).
    + destruct H as [[_ H]|[Hb H]]; [lia|].
      left. unfold sendTasks. simpl. split; [reflexivity | lia].
    + destruct (checkUrl_keeps s0) as [H1 H2].
      unfold bypassGuarded, sendTasks. rewrite H1, H2. simpl.
      rewrite Nat.add_0_r in Hrm. now rewrite <- Hrm.
  - revert H. apply guarded_frame; reflexivity.
Qed.

Lemma run_guarded (events : list Event) :
  forall s, bypassGuarded s -> bypassGuarded (run s events).
Proof.
  induction events as [|e events IH]; intros s H; [assumption|].
  apply IH. now apply step_guarded.
Qed.

Lemma initial_guarded (p : Page) : bypassGuarded (initial p).
Proof. left. split; reflexivity. Qed.

(** X17.  In every state the script reaches, the deferred send finds
    the bypass flag set, so that the script's own click or key event is
    not taken for a send gesture of the user: a click reaches the host
    when a send button is found and is not disabled, nothing when the
    button found is disabled, an Enter key event when no button is found
    but an input is, nothing otherwise.  The quote is left as it is, and
    the flag is still set afterwards. *)
Lemma own_send_never_intercepted (p : Page) (events : list Event)
  (i delay : nat) :
  let s := run (initial p) events in
  nth_error (pending s) i = Some (delay, TriggerSend) ->
  let s' := step s (TimerFires i) in
  isBypassingSend s = true /\
  isBypassingSend s' = true /\
  quotedText s' = quotedText s /\
  hostLog s'
  = hostLog s
    ++ (if sendButton (page s) then
          if sendDisabled (page s) then [] else [SendClick Synthesized]
        else match inputEl (page s) with
             | Some _ => [SendEnter Synthesized]
             | None => []
             end).
Proof.
  intros s Hnth s'.
  pose proof (run_guarded events _ (initial_guarded p)) as H. fold s in H.
  pose proof (sendTasks_removeNth (pending s) i _ Hnth) as Hrm. simpl in Hrm.
  assert (Hb : isBypassingSend s = true).
  { destruct H as [[_ H]|[Hb _]]; [unfold sendTasks in H; lia | assumption]. }
  split; [assumption|].
  unfold s'. cbn [step]. rewrite Hnth. cbn [runTask].
  rewrite (triggerSend_bypassed (withPending (removeNth i (pending s)) s) Hb).
  simpl. destruct (sendButton (page s));
    [destruct (sendDisabled (page s)) | destruct (inputEl (page s))];
    simpl; repeat split; try assumption; now rewrite ?app_nil_r.
Qed.

End BypassFacts.

(* ===================================================================== *)
(** ** Trimming and the blank lines of the extracted text                *)
(* ===================================================================== *)

Module TrimFacts.
Import Js Props Shapes StringFacts.

Lemma lastChar_cons (c : ascii) (s : string) :
  lastChar (String c s) = match s with "" => Some c | _ => lastChar s end.
Proof. destruct s; reflexivity. Qed.

Lemma lastChar_some (s : string) : s <> "" -> exists c, lastChar s = Some c.
Proof.
  induction s as [|c s IH]; [congruence|]. intros _.
  rewrite lastChar_cons. destruct s as [|d s]; [now exists c|].
  apply IH. congruence.
Qed.

Lemma lastChar_app (a b : string) :
  b <> "" -> lastChar (a ++ b) = lastChar b.
Proof.
  intros Hb. induction a as [|c a IH]; [reflexivity|].
  cbn [String.append]. rewrite lastChar_cons, IH.
  destruct (a ++ b)%string eqn:E; [|reflexivity].
  destruct a; simpl in E; congruence.
Qed.

Lemma trimEnd_cons (c : ascii) (s : string) :
  trimEnd (String c s)
  = match trimEnd s with
    | "" => if isWhiteSpace c then "" else String c ""
    | r => String c r
    end.
Proof. reflexivity. Qed.

(** What [trimEnd] leaves does not end with white space. *)
Lemma trimEnd_last (s : string) :
  match lastChar (trimEnd s) with
  | Some c => isWhiteSpace c = false
  | None => True
  end.
Proof.
  induction s as [|c s IH]; [exact I|].
  rewrite trimEnd_cons. destruct (trimEnd s) as [|d r] eqn:E.
  - destruct (isWhiteSpace c) eqn:Hc; simpl; [exact I | assumption].
  - rewrite lastChar_cons. exact IH.
Qed.

(** [trimEnd] changes nothing of a string that does not end with white
    space. *)
Lemma trimEnd_fixed (s : string) :
  match lastChar s with
  | Some c => isWhiteSpace c = false
  | None => True
  end ->
  trimEnd s = s.
Proof.
  induction s as [|c s IH]; [reflexivity|].
  rewrite lastChar_cons, trimEnd_cons. destruct s as [|d s].
  - intros Hc. simpl. now rewrite Hc.
  - intros H. rewrite (IH H). reflexivity.
Qed.

Lemma trimEnd_idempotent (s : string) : trimEnd (trimEnd s) = trimEnd s.
Proof. apply trimEnd_fixed, trimEnd_last. Qed.

(** What [trimStart] leaves does not start with white space. *)
Lemma trimStart_first (s : string) :
  match trimStart s with
  | String c _ => isWhiteSpace c = false
  | "" => True
  end.
Proof.
  induction s as [|c s IH]; [exact I|].
  simpl. destruct (isWhiteSpace c) eqn:Hc; [exact IH | assumption].
Qed.

Lemma trimEnd_first (c : ascii) (s : string) :
  isWhiteSpace c = false -> exists r, trimEnd (String c s) = String c r.
Proof.
  intros Hc. rewrite trimEnd_cons. destruct (trimEnd s) as [|d r].
  - rewrite Hc. now exists "".
  - now exists (String d r).
Qed.

Lemma noOuterSpace_trim (s : string) : noOuterSpace (trim s) = true.
Proof.
  unfold noOuterSpace, trim. apply andb_true_iff. split.
  - pose proof (trimStart_first s) as H.
    destruct (trimStart s) as [|c u]; [reflexivity|].
    destruct (trimEnd_first c u H) as [r ->]. now rewrite H.
  - pose proof (trimEnd_last (trimStart s)) as H.
    destruct (lastChar (trimEnd (trimStart s))); [now rewrite H | reflexivity].
Qed.

Lemma trim_fixed (s : string) : noOuterSpace s = true -> trim s = s.
Proof.
  unfold noOuterSpace, trim. intros H. apply andb_true_iff in H as [H1 H2].
  assert (Hs : trimStart s = s).
  { destruct s as [|c s]; [reflexivity|]. simpl.
    apply negb_true_iff in H1. now rewrite H1. }
  rewrite Hs. apply trimEnd_fixed.
  destruct (lastChar s); [now apply negb_true_iff | exact I].
Qed.

Lemma trim_idempotent (s : string) : trim (trim s) = trim s.
Proof. apply trim_fixed, noOuterSpace_trim. Qed.

Lemma isWhiteSpace_LF (c : ascii) :
  isWhiteSpace c = false -> (c =? LF)%char = false.
Proof.
  unfold isWhiteSpace, LF. intros H.
  repeat (apply orb_false_iff in H as [H ?]). assumption.
Qed.

(** Collapsing keeps a last code unit that is no line feed. *)
Lemma collapseRuns_last (s : string) (c : ascii) :
  (c =? LF)%char = false ->
  forall run, lastChar s = Some c -> lastChar (collapseRuns run s) = Some c.
Proof.
  intros Hc. induction s as [|d s IH]; intros run; [discriminate|].
  rewrite lastChar_cons. destruct s as [|e s].
  - intros [= ->]. simpl. rewrite Hc. now rewrite lastChar_app.
  - intros H. remember (String e s) as t eqn:Et.
    change (collapseRuns run (String d t))
      with (if (d =? LF)%char then collapseRuns (S run) t
            else (flushRun run ++ String d (collapseRuns 0 t))%string).
    destruct (d =? LF)%char.
    + now apply IH.
    + rewrite lastChar_app by discriminate. rewrite lastChar_cons.
      specialize (IH 0 H). destruct (collapseRuns 0 t); [discriminate | exact IH].
Qed.

Lemma noOuterSpace_collapse (s : string) :
  noOuterSpace s = true -> noOuterSpace (collapseBlankLines s) = true.
Proof.
  destruct s as [|c s]; [reflexivity|].
  unfold noOuterSpace, collapseBlankLines. intros H.
  apply andb_true_iff in H as [H1 H2]. apply negb_true_iff in H1.
  destruct (lastChar_some (String c s)) as [z Hz]; [discriminate|].
  rewrite Hz in H2. apply negb_true_iff in H2.
  rewrite (collapseRuns_last (String c s) z (isWhiteSpace_LF z H2) 0 Hz).
  cbn [collapseRuns]. rewrite (isWhiteSpace_LF c H1). simpl.
  now rewrite H1, H2.
Qed.

(** Collapsing only takes line feeds away. *)
Lemma withoutLF_app (a b : string) :
  withoutLF (a ++ b) = (withoutLF a ++ withoutLF b)%string.
Proof.
  induction a as [|c a IH]; [reflexivity|]. simpl.
  destruct (c =? LF)%char; simpl; now rewrite IH.
Qed.

Lemma withoutLF_repeat (n : nat) : withoutLF (repeatChar LF n) = "".
Proof. induction n as [|n IH]; [reflexivity | exact IH]. Qed.

Lemma withoutLF_flushRun (run : nat) : withoutLF (flushRun run) = "".
Proof. unfold flushRun. destruct (3 <=? run)%nat; apply withoutLF_repeat. Qed.

Lemma withoutLF_collapseRuns (s : string) :
  forall run, withoutLF (collapseRuns run s) = withoutLF s.
Proof.
  induction s as [|c s IH]; intros run; simpl.
  - apply withoutLF_flushRun.
  - destruct (c =? LF)%char eqn:Hc; [apply IH|].
    rewrite withoutLF_app, withoutLF_flushRun. simpl. now rewrite Hc, IH.
Qed.

End TrimFacts.

Module TidyFacts.
Import Js Dom Content Controller Props Shapes StringFacts TrimFacts.

Lemma directLatex_wrapped (ancestor : located) (text : string) :
  directLatex ancestor = Some text ->
  exists isBlock latex, text = wrapMath isBlock latex.
Proof.
  unfold directLatex. destruct (mathParentOf ancestor) as [|m rest];
    [discriminate|].
  destruct (getAttribute "data-math" m) as [latex|]; [|discriminate].
  destruct (truthy latex); [|discriminate].
  intros [= <-]. now exists (hasClass "math-block" m), latex.
Qed.

Lemma extractTry_trimmed (sel : Selection) (text : string) :
  extractTry sel = Ok text -> trim text = text.
Proof.
  unfold extractTry.
  destruct (directLatex _) as [direct|] eqn:Ed.
  - intros [= <-]. destruct (directLatex_wrapped _ _ Ed) as (b & l & ->).
    apply ExtractFacts.trim_wrapMath.
  - destruct (cloneContents (getRangeAt0 sel)) as [children|e];
      [|discriminate]. cbn [bind].
    destruct (querySelector (Fragment children) ANY_MATH).
    + destruct (annotateMathFromOriginalDOM _ _) as [annotated|e];
        [|discriminate]. cbn [bind]. intros [= <-].
      apply trim_fixed, noOuterSpace_collapse, noOuterSpace_trim.
    + intros [= <-]. apply trim_idempotent.
Qed.

Lemma lastChar_truthy_trim (s : string) :
  truthy (trim s) = true ->
  exists c, lastChar (trim s) = Some c /\ isWhiteSpace c = false.
Proof.
  intros H. destruct (lastChar_some (trim s)) as [c Hc].
  { intros E. rewrite E in H. discriminate. }
  exists c. split; [assumption|].
  pose proof (trimEnd_last (trimStart s)) as Hl. unfold trim in Hc.
  now rewrite Hc in Hl.
Qed.

Lemma getUserInput_trimmed (p : Page) :
  getUserInput p = "" \/ exists text, getUserInput p = trim text.
Proof.
  unfold getUserInput. destruct (inputEl p) as [[]|]; eauto.
Qed.

Lemma fullMessage_tidy (p : Page) (format quoted : string) :
  trimEnd (fullMessage format quoted (getUserInput p))
  = fullMessage format quoted (getUserInput p).
Proof.
  unfold fullMessage. destruct (truthy (getUserInput p)) eqn:Ht.
  - destruct (getUserInput_trimmed p) as [E|[text E]]; rewrite E in Ht |- *;
      [discriminate|].
    destruct (lastChar_truthy_trim text Ht) as (c & Hc & Hw).
    apply trimEnd_fixed.
    assert (Hne : trim text <> "") by (intros E'; rewrite E' in Ht; discriminate).
    rewrite lastChar_app by (destruct (trim text); [congruence | discriminate]).
    rewrite lastChar_app by assumption. now rewrite Hc.
  - apply trimEnd_idempotent.
Qed.

Lemma extract_returns_trimmed (selection : option Selection) :
  exists text,
    extractTextWithMath selection = Ok text /\ trim text = text.
Proof.
  destruct selection as [sel|]; [|now exists ""].
  unfold extractTextWithMath.
  destruct (rangeCount sel =? 0)%nat; [now exists ""|].
  destruct (extractTry sel) as [text|e] eqn:E; simpl.
  - exists text. split; [reflexivity|]. now apply (extractTry_trimmed sel).
  - eexists. split; [reflexivity|]. apply trim_idempotent.
Qed.

End TidyFacts.

(** X1.  The text that [extractTextWithMath] returns has no white space
    at its start or at its end: for every selection the call returns a
    text, and trimming that text again changes nothing.  This holds on
    every path of the function: the LaTeX source taken from the
    document, the plain text of the selection, the serialized fragment
    after its blank lines are collapsed, and the text returned when the
    extraction throws. *)
Theorem extracted_text_is_trimmed (selection : option Dom.Selection) :
  exists text,
    Content.extractTextWithMath selection = Js.Ok text /\
    Js.trim text = text.
Proof.
  destruct selection as [sel|]; [|now exists ""].
  unfold Content.extractTextWithMath.
  destruct (Dom.rangeCount sel =? 0)%nat; [now exists ""|].
  destruct (Content.extractTry sel) as [text|e] eqn:E; simpl.
  - exists text. split; [reflexivity|].
    now apply (TidyFacts.extractTry_trimmed sel).
  - eexists. split; [reflexivity|]. apply TrimFacts.trim_idempotent.
Qed.

(** X2.  Collapsing the blank lines of the extracted text
    ([raw.replace(/\n{3,}/g, "\n\n")]) leaves no run of three or more
    line feeds, and takes nothing but line feeds away: without their
    line feeds, the text before and the text after are the same. *)
Theorem collapse_only_drops_line_feeds (s : string) :
  Props.noLongRun 0 (Js.collapseBlankLines s) = true /\
  Shapes.withoutLF (Js.collapseBlankLines s) = Shapes.withoutLF s.
Proof.
  split.
  - apply StringFacts.collapseRuns_settled.
  - apply TrimFacts.withoutLF_collapseRuns.
Qed.

(** X3.  The message that [composeAndSend] writes into the input never
    ends with white space.  When the script holds a quote and the page
    has an input it can write to, the call writes exactly one message,
    the citation of the quote followed by what the input held, and
    trimming the end of that message changes nothing: the user's typed
    text is trimmed before it is appended, and a citation without typed
    text has its end trimmed. *)
Theorem composed_message_is_tidy (s : Controller.State) :
  Controller.quotedText s <> "" ->
  Controller.canInject (Controller.page s) = true ->
  let s' := Controller.composeAndSend s in
  let message :=
    Controller.fullMessage (Controller.citationFormat s)
      (Controller.quotedText s) (Controller.getUserInput (Controller.page s)) in
  Controller.hostLog s' = Controller.hostLog s ++ [Controller.Injected message] /\
  Js.trimEnd message = message.
Proof.
  intros Hq Hc s' message. unfold s', Controller.composeAndSend.
  rewrite (StringFacts.truthy_nonempty _ Hq). cbn [negb].
  unfold Controller.injectFormattedText.
  rewrite ControllerFacts.page_hideQuoteChip, Hc. cbn [negb].
  split; [|apply TidyFacts.fullMessage_tidy].
  unfold Controller.hideQuoteChip. simpl.
  destruct (Controller.chipEl s); reflexivity.
Qed.

Lemma composed_message_is_tidy_witness :
  let s := Samples.quoting (Samples.chatPage None) in
  let s' := Controller.composeAndSend s in
  let message :=
    Controller.fullMessage (Controller.citationFormat s)
      (Controller.quotedText s) (Controller.getUserInput (Controller.page s)) in
  Controller.quotedText s <> "" /\
  Controller.canInject (Controller.page s) = true /\
  Controller.hostLog s' = Controller.hostLog s ++ [Controller.Injected message] /\
  Js.trimEnd message = message.
Proof.
  intros s s' message. split; [discriminate|]. split; [reflexivity|].
  apply (composed_message_is_tidy s); [discriminate | reflexivity].
Defined.

(* ===================================================================== *)
(** ** The columns of the Markdown table                                  *)
(* ===================================================================== *)

Module AlignFacts.
Import Js Dom Content Props StringFacts TableFacts.

Lemma len_app (a b : string) : len (a ++ b) = len a + len b.
Proof. induction a as [|c a IH]; simpl; [reflexivity | now rewrite IH]. Qed.

Lemma len_repeatChar (c : ascii) (n : nat) : len (repeatChar c n) = n.
Proof. induction n as [|n IH]; simpl; [reflexivity | now rewrite IH]. Qed.

Lemma len_pad (s : string) (w : nat) : len s <= w -> len (pad s w) = w.
Proof. intros H. unfold pad. rewrite len_app, len_repeatChar. lia. Qed.

Lemma len_join (sep : string) (parts : list string) :
  len (join sep parts)
  = list_sum (map len parts) + (length parts - 1) * len sep.
Proof.
  induction parts as [|x parts IH]; [reflexivity|].
  destruct parts as [|y parts]; [simpl; lia|].
  change (join sep (x :: y :: parts))
    with (x ++ sep ++ join sep (y :: parts))%string.
  rewrite !len_app, IH. simpl. lia.
Qed.

(** The length of a line is fixed by the lengths of its cells. *)
Lemma len_line (cells : list string) :
  len ("| " ++ join " | " cells ++ " |")
  = 4 + list_sum (map len cells) + (length cells - 1) * 3.
Proof. rewrite !len_app, len_join. simpl. lia. Qed.

Lemma columnWidth_from (c : nat) (matrix : list (list string)) :
  forall start,
    let width :=
      fold_left
        (fun max row =>
           if (max <? len (nth c row ""))%nat then len (nth c row "") else max)
        matrix start in
    start <= width /\ Forall (fun row => len (nth c row "") <= width) matrix.
Proof.
  induction matrix as [|row matrix IH]; intros start; simpl.
  - split; [lia | constructor].
  - destruct (IH (if (start <? len (nth c row ""))%nat
                  then len (nth c row "") else start)) as [Hle Hall].
    destruct (start <? len (nth c row ""))%nat eqn:E;
      [apply Nat.ltb_lt in E | apply Nat.ltb_ge in E];
      (split; [lia | constructor; [lia | assumption]]).
Qed.

(** A column is as wide as its longest cell. *)
Lemma columnWidth_bound (matrix : list (list string)) (c : nat)
  (row : list string) :
  In row matrix -> len (nth c row "") <= columnWidth matrix c.
Proof.
  intros Hin. destruct (columnWidth_from c matrix 3) as [_ H].
  rewrite Forall_forall in H. now apply H.
Qed.

Lemma map_nth_seq (widths : list nat) :
  map (fun j => nth j widths 0) (seq 0 (length widths)) = widths.
Proof.
  induction widths as [|w widths IH]; [reflexivity|].
  simpl. f_equal. rewrite <- seq_shift, map_map. exact IH.
Qed.

(** The lengths of the padded cells of a row are the widths. *)
Lemma padded_cells (widths : list nat) (row : list string) :
  forall i,
    (forall k, k < length row -> len (nth k row "") <= nth (i + k) widths 0) ->
    map len (mapIndexedFrom (fun cell j => pad cell (nth j widths 0)) i row)
    = map (fun j => nth j widths 0) (seq i (length row)).
Proof.
  induction row as [|cell row IH]; intros i H; [reflexivity|].
  simpl. f_equal.
  - apply len_pad. specialize (H 0). rewrite Nat.add_0_r in H.
    apply H. simpl. lia.
  - apply IH. intros k Hk. replace (S i + k) with (i + S k) by lia.
    apply (H (S k)). simpl. lia.
Qed.

Lemma len_rowLine (widths : list nat) (row : list string) :
  length row = length widths ->
  (forall k, k < length row -> len (nth k row "") <= nth k widths 0) ->
  len (rowLine widths row)
  = 4 + list_sum widths + (length widths - 1) * 3.
Proof.
  intros Hlen Hcells. unfold rowLine, mapIndexed.
  rewrite len_line, mapIndexedFrom_length, (padded_cells widths row 0 Hcells).
  now rewrite Hlen, map_nth_seq.
Qed.

Lemma len_separatorLine (widths : list nat) :
  len (separatorLine widths) = 4 + list_sum widths + (length widths - 1) * 3.
Proof.
  unfold separatorLine. rewrite len_line, length_map, map_map.
  f_equal. f_equal. f_equal. rewrite <- (map_id widths) at 2.
  apply map_ext. intros w. apply len_repeatChar.
Qed.

(** All lines of the table have the length of the separator line. *)
Lemma tableLines_aligned (matrix : list (list string)) :
  matrix <> [] ->
  Forall
    (fun line =>
       len line
       = len (separatorLine
                (columnWidths (map (padRow (columnCount matrix)) matrix)
                   (columnCount matrix))))
    (tableLines matrix).
Proof.
  intros Hne. unfold tableLines.
  set (colCount := columnCount matrix).
  set (padded := map (padRow colCount) matrix).
  set (widths := columnWidths padded colCount).
  assert (Hw : length widths = colCount).
  { unfold widths, columnWidths. now rewrite length_map, length_seq. }
  assert (Hrow : forall row, In row padded ->
                 len (rowLine widths row) = len (separatorLine widths)).
  { intros row Hin. rewrite len_separatorLine.
    assert (Hlen : length row = colCount).
    { unfold padded in Hin. apply in_map_iff in Hin as (row0 & <- & Hin0).
      apply padRow_length. pose proof (columnCount_bound matrix) as Hb.
      rewrite Forall_forall in Hb. now apply Hb. }
    apply len_rowLine; [congruence|].
    intros k Hk. unfold widths, columnWidths.
    rewrite (nth_indep _ 0 (columnWidth padded 0))
      by (rewrite length_map, length_seq; lia).
    rewrite (map_nth (columnWidth padded)), seq_nth by lia.
    now apply columnWidth_bound. }
  constructor; [|constructor; [reflexivity|]].
  - apply Hrow. destruct padded as [|row rest] eqn:E.
    + destruct matrix; [congruence | discriminate].
    + now left.
  - apply Forall_forall. intros line Hline.
    apply in_map_iff in Hline as (row & <- & Hin).
    apply Hrow. destruct padded; [contradiction | now right].
Qed.

(** The width of a column is three, or the length of one of its
    cells. *)
Lemma columnWidth_attained (c : nat) (matrix : list (list string)) :
  forall start,
    fold_left
      (fun max row =>
         if (max <? len (nth c row ""))%nat then len (nth c row "") else max)
      matrix start
    = start \/
    exists row,
      In row matrix /\
      len (nth c row "")
      = fold_left
          (fun max row =>
             if (max <? len (nth c row ""))%nat then len (nth c row "")
             else max)
          matrix start.
Proof.
  induction matrix as [|row matrix IH]; intros start; simpl; [now left|].
  destruct (IH (if (start <? len (nth c row ""))%nat
                then len (nth c row "") else start)) as [H|(row' & Hin & H)].
  - destruct (start <? len (nth c row ""))%nat eqn:E.
    + right. exists row. split; [now left | now rewrite H].
    + now left.
  - right. exists row'. split; [now right | exact H].
Qed.

Lemma columnWidths_nth (rows : list (list string)) (colCount c : nat) :
  c < colCount -> nth c (columnWidths rows colCount) 0 = columnWidth rows c.
Proof.
  intros Hc. unfold columnWidths.
  rewrite (nth_indep _ 0 (columnWidth rows 0))
    by (rewrite length_map, length_seq; lia).
  now rewrite (map_nth (columnWidth rows)), seq_nth by lia.
Qed.

Lemma columnWidth_is_width (rows : list (list string)) (c : nat) :
  Shapes.isColumnWidth rows c (columnWidth rows c).
Proof.
  split; [|split].
  - destruct (columnWidth_from c rows 3) as [H _]. exact H.
  - intros row Hin. now apply columnWidth_bound.
  - destruct (columnWidth_attained c rows 3) as [H|(row & Hin & H)].
    + now left.
    + right. now exists row.
Qed.

Lemma mapIndexedFrom_nth (f : string -> nat -> string) (row : list string) :
  forall i k,
    k < length row ->
    nth k (mapIndexedFrom f i row) "" = f (nth k row "") (i + k).
Proof.
  induction row as [|cell row IH]; intros i k Hk; [simpl in Hk; lia|].
  destruct k as [|k]; simpl.
  - now rewrite Nat.add_0_r.
  - rewrite IH by (simpl in Hk; lia). f_equal. lia.
Qed.

(** The line of a row shows its cells, each padded to its width. *)
Lemma rowLine_shows (widths : list nat) (row : list string) :
  (forall k, k < length row -> len (nth k row "") <= nth k widths 0) ->
  Shapes.showsRow widths row (rowLine widths row).
Proof.
  intros Hcells.
  exists (mapIndexed (fun cell i => pad cell (nth i widths 0)) row).
  split; [reflexivity|]. split; [apply mapIndexedFrom_length|].
  intros k Hk. unfold mapIndexed. rewrite mapIndexedFrom_nth by assumption.
  cbn [Nat.add]. exists (nth k widths 0 - len (nth k row "")).
  split; [reflexivity|]. apply len_pad. now apply Hcells.
Qed.

Lemma padRow_filled (colCount : nat) (row : list string) :
  Shapes.filledFrom row (padRow colCount row).
Proof. now exists (colCount - length row). Qed.

(** The count of columns is the number of cells of a longest row. *)
Lemma columnCount_attained (matrix : list (list string)) :
  forall start,
    fold_left
      (fun colCount row =>
         if (colCount <? length row)%nat then length row else colCount)
      matrix start
    = start \/
    exists row : list string,
      In row matrix /\
      length row
      = fold_left
          (fun colCount row =>
             if (colCount <? length row)%nat then length row else colCount)
          matrix start.
Proof.
  induction matrix as [|row matrix IH]; intros start; simpl; [now left|].
  destruct (IH (if (start <? length row)%nat then length row else start))
    as [H|(row' & Hin & H)].
  - destruct (start <? length row)%nat eqn:E.
    + right. exists row. split; [now left | now rewrite H].
    + now left.
  - right. exists row'. split; [now right | exact H].
Qed.

End AlignFacts.

(** X4.  The Markdown table that [tableToMarkdown] builds for a table
    with at least one row is aligned.  There is one width for each
    column, as many as the longest row has cells; a short row is filled
    with empty cells; the width of a column is the length of its
    longest cell, and at least three.  The first line shows the first
    row, the second is made of as many dashes as each column is wide,
    and the lines after it show the other rows; in each of them every
    cell is followed by spaces up to the width of its column.  So all
    lines have the same length: four for the pipes at both ends, the
    widths, and three between two columns. *)
Theorem table_lines_aligned (cellText : Dom.node -> string)
  (tableEl : Dom.node) :
  let matrix := Content.tableMatrix cellText tableEl in
  matrix <> [] ->
  exists widths rows,
    (Forall (fun short => length short <= length widths) matrix /\
     (length widths = 0 \/
      exists short, In short matrix /\ length short = length widths)) /\
    (Forall2 Shapes.filledFrom matrix rows /\
     Forall (fun row => length row = length widths) rows) /\
    (forall c, c < length widths ->
       Shapes.isColumnWidth rows c (nth c widths 0)) /\
    (exists header data,
       Js.split Js.LF (Content.tableToMarkdown cellText tableEl)
       = header
         :: ("| " ++ Js.join " | " (map (Js.repeatChar "-") widths) ++ " |")%string
         :: data /\
       Shapes.showsRow widths (hd [] rows) header /\
       Forall2 (Shapes.showsRow widths) (tl rows) data) /\
    Forall
      (fun line =>
         Js.len line = 4 + list_sum widths + 3 * (length widths - 1))
      (Js.split Js.LF (Content.tableToMarkdown cellText tableEl)).
Proof.
  intros matrix Hne.
  set (colCount := Content.columnCount matrix).
  set (rows := map (Content.padRow colCount) matrix).
  set (widths := Content.columnWidths rows colCount).
  assert (Hw : length widths = colCount).
  { unfold widths, Content.columnWidths. now rewrite length_map, length_seq. }
  assert (Hshort : Forall (fun short => length short <= colCount) matrix)
    by apply TableFacts.columnCount_bound.
  assert (Hrows : Forall (fun row => length row = colCount) rows).
  { unfold rows. apply Forall_forall. intros row Hin.
    apply in_map_iff in Hin as (short & <- & Hin).
    apply TableFacts.padRow_length.
    rewrite Forall_forall in Hshort. now apply Hshort. }
  assert (Hcells : forall row, In row rows ->
            forall k, k < length row ->
              Js.len (nth k row "") <= nth k widths 0).
  { intros row Hin k Hk. rewrite Forall_forall in Hrows.
    rewrite (Hrows row Hin) in Hk. unfold widths.
    rewrite AlignFacts.columnWidths_nth by assumption.
    now apply AlignFacts.columnWidth_bound. }
  assert (Hlines : Js.split Js.LF (Content.tableToMarkdown cellText tableEl)
                   = Content.tableLines matrix).
  { rewrite TableFacts.tableToMarkdown_lines by assumption.
    apply TableFacts.split_join.
    - unfold Content.tableLines. discriminate.
    - pose proof (TableFacts.tableLines_count Js.LF _ eq_refl eq_refl Hne
                    (TableFacts.tableMatrix_free cellText tableEl)) as H.
      eapply Forall_impl; [|exact H]. intros line Hl. unfold Props.freeOf.
      rewrite Hl. simpl. lia. }
  exists widths, rows. split; [|split; [|split; [|split]]].
  - rewrite Hw. split; [exact Hshort|].
    destruct (AlignFacts.columnCount_attained matrix 0) as [H|(short & Hin & H)].
    + now left.
    + right. now exists short.
  - rewrite Hw. split; [|exact Hrows].
    unfold rows. generalize colCount. intros n. clear.
    induction matrix as [|short matrix IH]; constructor.
    + apply AlignFacts.padRow_filled.
    + exact IH.
  - intros c Hc. rewrite Hw in Hc. unfold widths.
    rewrite AlignFacts.columnWidths_nth by assumption.
    apply AlignFacts.columnWidth_is_width.
  - exists (Content.rowLine widths (hd [] rows)),
      (map (Content.rowLine widths) (tl rows)).
    split; [exact Hlines|]. split.
    + apply AlignFacts.rowLine_shows. apply Hcells.
      destruct rows as [|row rest] eqn:E; [|now left].
      unfold rows in E. destruct matrix; [congruence | discriminate].
    + assert (Htl : forall row, In row (tl rows) -> In row rows)
        by (intros row Hin; destruct rows; [contradiction | now right]).
      induction (tl rows) as [|row rest IH]; constructor.
      * apply AlignFacts.rowLine_shows, Hcells, Htl. now left.
      * apply IH. intros row' Hin. apply Htl. now right.
  - rewrite Hlines.
    eapply Forall_impl; [|exact (AlignFacts.tableLines_aligned matrix Hne)].
    intros line Hl. cbv beta in Hl. rewrite Hl.
    fold colCount. fold rows. fold widths.
    rewrite AlignFacts.len_separatorLine. lia.
Qed.

(** The table [A, BB / CCC, D]: the columns are three wide. *)
Lemma table_lines_aligned_witness :
  Content.tableMatrix Dom.textContent Samples.table2x2 <> [] /\
  Js.split Js.LF (Content.tableToMarkdown Dom.textContent Samples.table2x2)
  = ["| A   | BB  |"; "| --- | --- |"; "| CCC | D   |"] /\
  exists widths rows,
    (Forall (fun short => length short <= length widths)
       (Content.tableMatrix Dom.textContent Samples.table2x2) /\
     (length widths = 0 \/
      exists short,
        In short (Content.tableMatrix Dom.textContent Samples.table2x2) /\
        length short = length widths)) /\
    (Forall2 Shapes.filledFrom
       (Content.tableMatrix Dom.textContent Samples.table2x2) rows /\
     Forall (fun row => length row = length widths) rows) /\
    (forall c, c < length widths ->
       Shapes.isColumnWidth rows c (nth c widths 0)) /\
    (exists header data,
       Js.split Js.LF
         (Content.tableToMarkdown Dom.textContent Samples.table2x2)
       = header
         :: ("| " ++ Js.join " | " (map (Js.repeatChar "-") widths) ++ " |")%string
         :: data /\
       Shapes.showsRow widths (hd [] rows) header /\
       Forall2 (Shapes.showsRow widths) (tl rows) data) /\
    Forall
      (fun line =>
         Js.len line = 4 + list_sum widths + 3 * (length widths - 1))
      (Js.split Js.LF
         (Content.tableToMarkdown Dom.textContent Samples.table2x2)).
Proof.
  assert (Hne : Content.tableMatrix Dom.textContent Samples.table2x2 <> [])
    by (vm_compute; discriminate).
  split; [exact Hne|]. split; [reflexivity|].
  exact (table_lines_aligned Dom.textContent Samples.table2x2 Hne).
Defined.

(* ===================================================================== *)
(** ** What the passes over the fragment leave                            *)
(* ===================================================================== *)

Module PassFacts.
Import Js Dom Content Props Shapes DomFacts SerializerFacts.

(** Whether an element matches a selector depends on its tag and its
    attributes only, which a rewriting of its children keeps. *)
Lemma matches_rewriteChildren (C : Type) (enter : C -> node -> C)
  (visit : C -> node -> option (list node)) (ctx : C) (n : node)
  (sel : selector) :
  matches (rewriteChildren enter visit ctx n) sel = matches n sel.
Proof. destruct n; reflexivity. Qed.

(** The descendants of a node, child by child. *)
Lemma descendants_children (n : node) :
  descendants n = flat_map (fun c => c :: descendants c) (childNodes n).
Proof.
  destruct n as [s|d|t a ch|ch]; try reflexivity; simpl;
    (induction ch as [|c ch IH]; [reflexivity|]);
    simpl; now rewrite IH.
Qed.

(** The children of a rewritten node, child by child. *)
Lemma rewriteChildren_children (C : Type) (enter : C -> node -> C)
  (visit : C -> node -> option (list node)) (ctx : C) (n : node) :
  childNodes (rewriteChildren enter visit ctx n)
  = flat_map
      (fun c =>
         match visit (enter ctx n) c with
         | Some r => r
         | None => [rewriteChildren enter visit (enter ctx n) c]
         end)
      (childNodes n).
Proof.
  destruct n as [s|d|t a ch|ch]; try reflexivity; simpl.
  - generalize (enter ctx (Element t a ch)). intros inner.
    induction ch as [|c ch IH]; [reflexivity|].
    simpl. rewrite IH. destruct (visit inner c); reflexivity.
  - generalize (enter ctx (Fragment ch)). intros inner.
    induction ch as [|c ch IH]; [reflexivity|].
    simpl. rewrite IH. destruct (visit inner c); reflexivity.
Qed.

Lemma removeHidden_clean :
  forall n,
    Forall (fun d => matches d HIDDEN_COPIES = false)
      (descendants (rewriteEach removeHidden n)).
Proof.
  apply (node_induction
           (fun n =>
              Forall (fun d => matches d HIDDEN_COPIES = false)
                (descendants (rewriteEach removeHidden n))));
    try (intros; constructor).
  - intros t a ch Hch. unfold rewriteEach.
    rewrite descendants_children, rewriteChildren_children.
    cbn [childNodes].
    induction Hch as [|c ch Hc Hch IH]; [constructor|].
    cbn [flat_map]. unfold removeHidden at 1.
    destruct (matches c HIDDEN_COPIES) eqn:Em; [exact IH|].
    rewrite flat_map_app. apply Forall_app. split; [|exact IH].
    cbn [flat_map]. rewrite app_nil_r. constructor.
    + now rewrite matches_rewriteChildren.
    + exact Hc.
  - intros ch Hch. unfold rewriteEach.
    rewrite descendants_children, rewriteChildren_children.
    cbn [childNodes].
    induction Hch as [|c ch Hc Hch IH]; [constructor|].
    cbn [flat_map]. unfold removeHidden at 1.
    destruct (matches c HIDDEN_COPIES) eqn:Em; [exact IH|].
    rewrite flat_map_app. apply Forall_app. split; [|exact IH].
    cbn [flat_map]. rewrite app_nil_r. constructor.
    + now rewrite matches_rewriteChildren.
    + exact Hc.
Qed.

Lemma filter_none (A : Type) (f : A -> bool) (l : list A) :
  Forall (fun x => f x = false) l -> filter f l = [].
Proof.
  induction 1 as [|x l Hx Hl IH]; [reflexivity|]. simpl. now rewrite Hx.
Qed.

(** A selector list matches what one of its members matches. *)
Lemma matches_member (d : node) (c : compound) (sel : selector) :
  In c sel -> matches d sel = false -> matchesCompound d c = false.
Proof.
  unfold matches. intros Hin H.
  destruct (matchesCompound d c) eqn:E; [|reflexivity].
  assert (Hex : existsb (matchesCompound d) sel = true)
    by (apply existsb_exists; now exists c).
  congruence.
Qed.


Lemma matches_part (d : node) (part sel : selector) :
  incl part sel -> matches d sel = false -> matches d part = false.
Proof.
  intros Hincl H. unfold matches.
  destruct (existsb (matchesCompound d) part) eqn:E; [|reflexivity].
  apply existsb_exists in E as (c & Hc & Hm).
  now rewrite (matches_member d c sel (Hincl c Hc) H) in Hm.
Qed.

(** The pass for MathJax 2 changes nothing where no element has the
    class [MathJax]. *)
Lemma replaceMathJax2_none :
  forall n,
    (forall d, In d (descendants n) -> matches d MATHJAX = false) ->
    replaceMathJax2 n = n.
Proof.
  apply (node_induction
           (fun n =>
              (forall d, In d (descendants n) -> matches d MATHJAX = false) ->
              replaceMathJax2 n = n));
    try reflexivity.
  - intros t a ch Hch Hnone. cbn -[matches texScriptAfter]. f_equal.
    induction Hch as [|c ch Hc Hch IH]; [reflexivity|].
    rewrite descendants_element_cons in Hnone.
    rewrite (Hnone c) by now left.
    rewrite Hc by (intros d Hd; apply Hnone; right; apply in_or_app; now left).
    rewrite IH by (intros d Hd; apply Hnone; right; apply in_or_app; now right).
    now destruct (isElement c).
  - intros ch Hch Hnone. cbn -[matches texScriptAfter]. f_equal.
    induction Hch as [|c ch Hc Hch IH]; [reflexivity|].
    rewrite descendants_fragment_cons in Hnone.
    rewrite (Hnone c) by now left.
    rewrite Hc by (intros d Hd; apply Hnone; right; apply in_or_app; now left).
    rewrite IH by (intros d Hd; apply Hnone; right; apply in_or_app; now right).
    now destruct (isElement c).
Qed.

Lemma visit_unmatched (d : node) :
  matches d ANY_MATH = false ->
  replaceDataMath MATH_BLOCK_DATA true d = None /\
  replaceDataMath MATH_INLINE_DATA false d = None /\
  (forall ctx, replaceKatex KATEX_DISPLAY true ctx d = None) /\
  (forall ctx, replaceKatex KATEX false ctx d = None) /\
  replaceMjxContainer d = None /\
  matches d MATHJAX = false /\
  replaceMathML d = None.
Proof.
  intros H.
  assert (Hdata : matches d DATA_MATH = false)
    by (apply (matches_part d DATA_MATH ANY_MATH); [|assumption];
        intros c [<-|[]]; unfold ANY_MATH; simpl; tauto).
  assert (Hkd : matches d KATEX_DISPLAY = false)
    by (apply (matches_part d KATEX_DISPLAY ANY_MATH); [|assumption];
        intros c [<-|[]]; unfold ANY_MATH; simpl; tauto).
  assert (Hk : matches d KATEX = false)
    by (apply (matches_part d KATEX ANY_MATH); [|assumption];
        intros c [<-|[]]; unfold ANY_MATH; simpl; tauto).
  assert (Hmjx : matches d MJX_CONTAINER = false)
    by (apply (matches_part d MJX_CONTAINER ANY_MATH); [|assumption];
        intros c [<-|[]]; unfold ANY_MATH; simpl; tauto).
  assert (Hmj : matches d MATHJAX = false)
    by (apply (matches_part d MATHJAX ANY_MATH); [|assumption];
        intros c [<-|[]]; unfold ANY_MATH; simpl; tauto).
  assert (Hm : matches d MATH = false)
    by (apply (matches_part d MATH ANY_MATH); [|assumption];
        intros c [<-|[]]; unfold ANY_MATH; simpl; tauto).
  repeat split.
  - now apply ExtractFacts.replaceDataMath_miss.
  - now apply ExtractFacts.replaceDataMath_miss.
  - intros ctx. unfold replaceKatex. now rewrite Hkd.
  - intros ctx. unfold replaceKatex. now rewrite Hk.
  - unfold replaceMjxContainer. now rewrite Hmjx.
  - assumption.
  - unfold replaceMathML. now rewrite Hm.
Qed.

End PassFacts.

(** X5.  [replaceMathElements] leaves no hidden copy of an equation in
    the fragment: whatever the fragment holds, after the call none of
    its descendants has the class [katex-mathml], [MathJax_Preview] or
    [katex-html], so the text of these copies is not serialized a
    second time. *)
Theorem hidden_copies_removed (root : Dom.node) :
  Dom.querySelectorAll (Content.replaceMathElements root)
    Content.HIDDEN_COPIES = [].
Proof.
  unfold Content.replaceMathElements, Dom.querySelectorAll.
  apply PassFacts.filter_none. apply PassFacts.removeHidden_clean.
Qed.

(** X6.  [replaceMathElements] touches nothing but math: a fragment in
    which no descendant matches one of the math selectors
    ([.katex], [.katex-display], [.MathJax], [mjx-container], [math],
    [.math-inline], [.math-block], [[data-math]]) or is a hidden copy
    comes out of the call as it went in. *)
Theorem math_free_fragment_untouched (root : Dom.node) :
  Dom.querySelectorAll root Content.ANY_MATH = [] ->
  Dom.querySelectorAll root Content.HIDDEN_COPIES = [] ->
  Content.replaceMathElements root = root.
Proof.
  intros Hmath Hhidden.
  pose proof (DomFacts.querySelectorAll_none root _ Hmath) as Hm.
  pose proof (DomFacts.querySelectorAll_none root _ Hhidden) as Hh.
  pose proof (fun d Hd => PassFacts.visit_unmatched d (Hm d Hd)) as Hv.
  unfold Content.replaceMathElements, Content.rewriteEach.
  rewrite (DomFacts.rewriteChildren_none unit _ _ root)
    by (intros ctx d Hd; apply (Hv d Hd)).
  rewrite (DomFacts.rewriteChildren_none unit _ _ root)
    by (intros ctx d Hd; apply (Hv d Hd)).
  rewrite (DomFacts.rewriteChildren_none (option string) _ _ root)
    by (intros ctx d Hd; apply (Hv d Hd)).
  rewrite (DomFacts.rewriteChildren_none (option string) _ _ root)
    by (intros ctx d Hd; apply (Hv d Hd)).
  rewrite (DomFacts.rewriteChildren_none unit _ _ root)
    by (intros ctx d Hd; apply (Hv d Hd)).
  rewrite (PassFacts.replaceMathJax2_none root)
    by (intros d Hd; apply (Hv d Hd)).
  rewrite (DomFacts.rewriteChildren_none unit _ _ root)
    by (intros ctx d Hd; apply (Hv d Hd)).
  apply DomFacts.rewriteChildren_none. intros ctx d Hd.
  unfold Content.removeHidden. now rewrite (Hh d Hd).
Qed.

Lemma math_free_fragment_untouched_witness :
  let root := Dom.Fragment [Samples.answer] in
  Dom.querySelectorAll root Content.ANY_MATH = [] /\
  Dom.querySelectorAll root Content.HIDDEN_COPIES = [] /\
  Content.replaceMathElements root = root.
Proof.
  intros root. split; [reflexivity|]. split; [reflexivity|].
  apply (math_free_fragment_untouched root); reflexivity.
Defined.

(* ===================================================================== *)
(** ** The text serializer on inline markup                               *)
(* ===================================================================== *)

Module InlineFacts.
Import Js Dom Content Props Shapes DomFacts SerializerFacts PassFacts.

(** The text of an element or a fragment: the texts of its children
    that are not comments, one after the other. *)
Lemma textContent_children (n : node) :
  textContent n
  = match n with
    | Text s => s
    | Other d => d
    | _ => concatStrings
             (map textContent
                (filter (fun c => negb (isComment c)) (childNodes n)))
    end.
Proof.
  destruct n as [s|d|t a ch|ch]; try reflexivity; simpl;
    (induction ch as [|c ch IH]; [reflexivity|]);
    destruct c; simpl; now rewrite <- ?IH.
Qed.

(** The serializer on a node with an inline tag: the texts of the
    children, one after the other. *)
Lemma getText_inline (n : node) :
  isInlineTag (tagOf n) = true ->
  getText n
  = match n with
    | Text s => s
    | Other _ => ""
    | _ => concatStrings (map getText (childNodes n))
    end.
Proof.
  intros Hinline. unfold isInlineTag in Hinline.
  apply negb_true_iff in Hinline.
  repeat (apply orb_false_iff in Hinline as [Hinline ?]).
  assert (Hch : map (getTextFromFragment (height n)) (childNodes n)
                = map getText (childNodes n)).
  { apply map_ext_in. intros c Hc. apply getText_enough.
    now apply child_lower. }
  destruct n as [s|d|t a ch|ch]; try reflexivity.
  - unfold getText at 1. cbn [getTextFromFragment]. rewrite Hch.
    cbn [tagOf] in *. rewrite Hinline, H, H0, H1, H2. reflexivity.
  - unfold getText at 1. cbn [getTextFromFragment]. rewrite Hch.
    reflexivity.
Qed.

Lemma inlineOnly_child (n c : node) :
  inlineOnly n = true -> In c (childNodes n) -> inlineOnly c = true.
Proof.
  unfold inlineOnly. intros H Hc. rewrite forallb_forall in H |- *.
  intros d [<-|Hd]; apply H; right.
  - now apply child_is_descendant.
  - rewrite descendants_children. apply in_flat_map. exists c.
    split; [assumption | now right].
Qed.

(** The serializer leaves a comment out; so does the text of the
    element the comment stands in. *)
Lemma shownText_children (ch : list node) :
  Forall (fun c => getText c = shownText c) ch ->
  concatStrings (map getText ch)
  = concatStrings
      (map textContent (filter (fun c => negb (isComment c)) ch)).
Proof.
  induction 1 as [|c ch Hc Hch IH]; [reflexivity|].
  simpl. rewrite Hc, IH. unfold shownText.
  destruct (isComment c); reflexivity.
Qed.

Lemma getText_shownText :
  forall n, inlineOnly n = true -> getText n = shownText n.
Proof.
  apply (node_induction
           (fun n => inlineOnly n = true -> getText n = shownText n));
    try reflexivity.
  - intros t a ch Hch Hin. unfold shownText. cbn [isComment].
    rewrite getText_inline, textContent_children.
    + apply shownText_children. rewrite Forall_forall in Hch |- *.
      intros c Hc. apply (Hch c Hc).
      now apply (inlineOnly_child (Element t a ch)).
    + unfold inlineOnly in Hin. simpl in Hin.
      now apply andb_true_iff in Hin as [Hin _].
  - intros ch Hch Hin. unfold shownText. cbn [isComment].
    rewrite getText_inline, textContent_children.
    + apply shownText_children. rewrite Forall_forall in Hch |- *.
      intros c Hc. apply (Hch c Hc).
      now apply (inlineOnly_child (Fragment ch)).
    + reflexivity.
Qed.

Lemma getText_textContent (n : node) :
  inlineOnly n = true -> isComment n = false -> getText n = textContent n.
Proof.
  intros Hin Hc. rewrite (getText_shownText n Hin). unfold shownText.
  now rewrite Hc.
Qed.

End InlineFacts.

(** X7.  On inline markup the text serializer agrees with the DOM: for
    a node that is not itself a comment and under which there is no
    table, line break, style, script or block element,
    [getTextFromFragment] returns the [textContent] of the node, the
    comments below the node adding nothing to either.  Line feeds are
    added, and text is left out, only where one of these elements
    stands. *)
Theorem inline_text_is_text_content (n : Dom.node) :
  Shapes.inlineOnly n = true ->
  Dom.isComment n = false ->
  Content.getText n = Dom.textContent n.
Proof. apply InlineFacts.getText_textContent. Qed.

Lemma inline_text_is_text_content_witness :
  Shapes.inlineOnly Scenes.inlineMarkup = true /\
  Dom.isComment Scenes.inlineMarkup = false /\
  Content.getText Scenes.inlineMarkup = Dom.textContent Scenes.inlineMarkup /\
  Content.getText Scenes.inlineMarkup = "see x here".
Proof.
  split; [reflexivity|]. split; [reflexivity|]. split; [|reflexivity].
  apply (inline_text_is_text_content Scenes.inlineMarkup); reflexivity.
Defined.

(* ===================================================================== *)
(** ** The citation of a block equation                                   *)
(* ===================================================================== *)

Module DollarFacts.
Import Js Content Controller Props StringFacts.

(** In a replacement text, a text without dollar signs followed by two
    dollar signs stands for the text followed by one. *)
Lemma getSubstitution_closing (matched pre post latex : string) :
  countChar "$" latex = 0 ->
  getSubstitution matched pre post (latex ++ "$$") = (latex ++ "$")%string.
Proof.
  induction latex as [|c latex IH]; intros H; [reflexivity|].
  simpl in H. destruct (c =? "$")%char eqn:Ec; [discriminate|].
  cbn [String.append getSubstitution]. rewrite Ec. now rewrite IH.
Qed.

Lemma getSubstitution_block (matched pre post latex : string) :
  countChar "$" latex = 0 ->
  getSubstitution matched pre post (wrapMath true latex)
  = wrapMath false latex.
Proof.
  intros H. unfold wrapMath. cbn [String.append getSubstitution].
  change ("$" =? "$")%char with true. cbn iota.
  now rewrite (getSubstitution_closing matched pre post latex H).
Qed.

Lemma includes_split (pat s : string) :
  includes pat s = true ->
  exists pre post,
    splitAtFirst pat s = Some (pre, post) /\ s = (pre ++ pat ++ post)%string.
Proof.
  unfold includes. destruct (splitAtFirst pat s) as [[pre post]|] eqn:E;
    [|discriminate].
  intros _. exists pre, post. split; [reflexivity|].
  now apply splitAtFirst_app.
Qed.

End DollarFacts.

(** X8.  A block equation is quoted as an inline equation.  The quote
    of a selection inside a block equation is [$$latex$$], and
    [composeAndSend] passes it to [String.prototype.replace] as the
    replacement text, in which [$$] stands for one dollar sign.  So for
    every citation format with the placeholder and every LaTeX source
    without a dollar sign, the citation holds [$latex$] where the
    placeholder was. *)
Theorem block_equation_quoted_inline (format latex : string) :
  Js.includes Content.PLACEHOLDER format = true ->
  Js.countChar "$" latex = 0 ->
  exists pre post,
    format = (pre ++ Content.PLACEHOLDER ++ post)%string /\
    Controller.citation format (Content.wrapMath true latex)
    = (pre ++ Content.wrapMath false latex ++ post)%string.
Proof.
  intros Hin Hfree.
  destruct (DollarFacts.includes_split _ _ Hin) as (pre & post & Hsplit & Heq).
  exists pre, post. split; [assumption|].
  unfold Controller.citation, Js.replace. rewrite Hsplit.
  now rewrite DollarFacts.getSubstitution_block.
Qed.

Lemma block_equation_quoted_inline_witness :
  Js.includes Content.PLACEHOLDER Content.DEFAULT_CITATION_FORMAT = true /\
  Js.countChar "$" "x^2" = 0 /\
  exists pre post,
    Content.DEFAULT_CITATION_FORMAT
    = (pre ++ Content.PLACEHOLDER ++ post)%string /\
    Controller.citation Content.DEFAULT_CITATION_FORMAT
      (Content.wrapMath true "x^2")
    = (pre ++ Content.wrapMath false "x^2" ++ post)%string.
Proof.
  split; [reflexivity|]. split; [reflexivity|].
  apply (block_equation_quoted_inline Content.DEFAULT_CITATION_FORMAT "x^2");
    reflexivity.
Defined.

(* ===================================================================== *)
(** ** The settings page                                                  *)
(* ===================================================================== *)

Module PopupPageFacts.
Import Js Popup PopupPage Props StringFacts PopupFacts.

(** A format without a backslash followed by the letter n is shown and
    read back unchanged. *)
Lemma shown_read_back (s : string) :
  noBackslashN s = true -> fromDisplay (toDisplay s) = s.
Proof.
  unfold fromDisplay.
  induction s as [|c s IH]; intros H; [reflexivity|].
  assert (Hs : noBackslashN s = true).
  { simpl in H. destruct s; [reflexivity|].
    now apply andb_true_iff in H as [_ H]. }
  specialize (IH Hs).
  unfold toDisplay in *. simpl.
  destruct (c =? LF)%char eqn:E.
  - apply Ascii.eqb_eq in E. subst c. simpl. now rewrite IH.
  - cbn [replaceBackslashN].
    destruct (replaceEachLF (String BACKSLASH "n") s) as [|d r] eqn:Er.
    + destruct s as [|c' s]; [reflexivity|].
      simpl in Er. destruct (c' =? LF)%char; discriminate.
    + destruct ((c =? BACKSLASH)%char && (d =? "n")%char) eqn:E2.
      * exfalso. apply andb_true_iff in E2 as [Ec Ed].
        destruct (toDisplay_head_not_n s d r Er Ed) as [s' ->].
        simpl in H. rewrite Ec in H. discriminate.
      * now rewrite IH.
Qed.

Lemma usable_default : usable Content.DEFAULT_CITATION_FORMAT.
Proof. split; reflexivity. Qed.

Lemma usable_read (shown : string) :
  includes "[SELECTED]" (fromDisplay shown) = true ->
  usable (fromDisplay shown).
Proof.
  intros H. split; [exact H|]. apply shown_read_back, fromDisplay_saved.
Qed.

Lemma settled_frame (s s' : State) :
  writes s' = writes s -> storage s' = storage s -> settled s -> settled s'.
Proof. unfold settled. intros -> ->. exact (fun H => H). Qed.

Lemma storageSet_settled (value message : string) (s : State) :
  usable value -> settled s -> settled (storageSet value message s).
Proof.
  intros Hv [Hw _]. split; simpl.
  - apply Forall_app. split; [assumption | now constructor].
  - intros _. now exists value.
Qed.

Lemma step_settled (s : State) (e : Event) : settled s -> settled (step s e).
Proof.
  intros H. destruct e as [value| | |i]; simpl.
  - revert H. apply settled_frame; reflexivity.
  - unfold saveClick.
    destruct (includes "[SELECTED]" (fromDisplay (formatInput s))) eqn:E;
      simpl.
    + apply storageSet_settled; [now apply usable_read | assumption].
    + revert H. apply settled_frame; reflexivity.
  - unfold resetClick. apply storageSet_settled; [apply usable_default|].
    revert H. apply settled_frame; reflexivity.
  - destruct (nth_error (pending s) i) as [[|message|]|]; try assumption;
      revert H; apply settled_frame; reflexivity.
Qed.

Lemma run_settled (events : list Event) :
  forall s, settled s -> settled (run s events).
Proof.
  induction events as [|e events IH]; intros s H; [assumption|].
  apply IH. now apply step_settled.
Qed.

Lemma opened_settled (shown status className : string)
  (stored : option string) :
  settled (opened shown status className stored).
Proof. split; [constructor | intros H; now contradiction H]. Qed.

Lemma usable_truthy (format : string) : usable format -> truthy format = true.
Proof. intros [H _]. destruct format; [discriminate | reflexivity]. Qed.

End PopupPageFacts.

(** X9.  The settings page stores usable formats only.  Whatever the
    user types and clicks, and in whatever order the callbacks run,
    every value that the page passes to [chrome.storage.sync.set]
    contains the placeholder [[SELECTED]], and is a text that the page
    shows and reads back unchanged ([fromDisplay (toDisplay format)] is
    [format]). *)
Theorem popup_stores_usable_formats (shown status className : string)
  (stored : option string) (events : list PopupPage.Event) :
  Forall PopupPage.usable
    (PopupPage.writes
       (PopupPage.run (PopupPage.opened shown status className stored)
          events)).
Proof.
  apply (PopupPageFacts.run_settled events).
  apply PopupPageFacts.opened_settled.
Qed.

(** X10.  Saving without editing changes nothing.  Once the settings
    page has stored a format, opening the page again and clicking Save
    when the stored format is shown stores the same format again: the
    textarea shows the display form of the stored format, the value
    written is the stored format itself, and the page reports the
    save. *)
Theorem reopened_popup_keeps_format (shown status className : string)
  (stored : option string) (events : list PopupPage.Event)
  (shown' status' className' : string) :
  let s :=
    PopupPage.run (PopupPage.opened shown status className stored) events in
  PopupPage.writes s <> [] ->
  let s' :=
    PopupPage.run
      (PopupPage.opened shown' status' className' (PopupPage.storage s))
      [PopupPage.Runs 0; PopupPage.SaveClick; PopupPage.Runs 0] in
  exists format,
    PopupPage.storage s = Some format /\
    PopupPage.formatInput s' = Popup.toDisplay format /\
    PopupPage.writes s' = [format] /\
    PopupPage.storage s' = Some format /\
    PopupPage.statusText s' = "Saved!".
Proof.
  intros s Hw s'.
  destruct (PopupPageFacts.run_settled events _
              (PopupPageFacts.opened_settled shown status className stored))
    as [_ Hlast].
  destruct (Hlast Hw) as (format & Hst & Hin & Hrt).
  exists format. split; [exact Hst|].
  unfold s'. unfold s. rewrite Hst. unfold PopupPage.run. simpl.
  unfold PopupPage.saveClick. simpl. rewrite Hrt.
  unfold Content.PLACEHOLDER in Hin. rewrite Hin. simpl.
  repeat split; reflexivity.
Qed.

Lemma reopened_popup_keeps_format_witness :
  let s :=
    PopupPage.run (PopupPage.opened "" "" "status" None)
      [ PopupPage.Runs 0;
        PopupPage.UserEdits (String "Q" (String ":" (String Js.BACKSLASH
                               "n[SELECTED]")));
        PopupPage.SaveClick ] in
  let s' :=
    PopupPage.run (PopupPage.opened "" "" "status" (PopupPage.storage s))
      [PopupPage.Runs 0; PopupPage.SaveClick; PopupPage.Runs 0] in
  PopupPage.writes s <> [] /\
  exists format,
    PopupPage.storage s = Some format /\
    PopupPage.formatInput s' = Popup.toDisplay format /\
    PopupPage.writes s' = [format] /\
    PopupPage.storage s' = Some format /\
    PopupPage.statusText s' = "Saved!".
Proof.
  intros s s'. split; [discriminate|].
  apply (reopened_popup_keeps_format "" "" "status" None
           [ PopupPage.Runs 0;
             PopupPage.UserEdits (String "Q" (String ":" (String Js.BACKSLASH
                                    "n[SELECTED]")));
             PopupPage.SaveClick ] "" "" "status").
  discriminate.
Defined.

(** X11.  A format stored by the settings page makes the content script
    splice the quote.  When the content script receives a value that
    the settings page has written, it takes that value for its citation
    format (the value is not empty, so the default does not replace
    it), and the citation of a quote without dollar signs is the format
    with the quote in the place of the first placeholder. *)
Theorem stored_format_splices_quote (shown status className : string)
  (stored : option string) (events : list PopupPage.Event)
  (format quoted : string) (s : Controller.State) :
  In format
    (PopupPage.writes
       (PopupPage.run (PopupPage.opened shown status className stored)
          events)) ->
  Js.countChar "$" quoted = 0 ->
  let s' := Controller.step s (Controller.StorageValue format) in
  Controller.citationFormat s' = format /\
  exists pre post,
    format = (pre ++ Content.PLACEHOLDER ++ post)%string /\
    Controller.citation (Controller.citationFormat s') quoted
    = (pre ++ quoted ++ post)%string.
Proof.
  intros Hin Hfree s'.
  destruct (PopupPageFacts.run_settled events _
              (PopupPageFacts.opened_settled shown status className stored))
    as [Hall _].
  rewrite Forall_forall in Hall. pose proof (Hall format Hin) as Hu.
  assert (Hf : Controller.citationFormat s' = format).
  { unfold s'. simpl. unfold Js.orElse.
    now rewrite (PopupPageFacts.usable_truthy format Hu). }
  split; [exact Hf|]. rewrite Hf. destruct Hu as [Hp _].
  destruct (DollarFacts.includes_split _ _ Hp) as (pre & post & Hsplit & Heq).
  exists pre, post. split; [assumption|].
  now apply CitationFacts.citation_plain.
Qed.

Lemma stored_format_splices_quote_witness :
  let events :=
    [ PopupPage.Runs 0; PopupPage.UserEdits "Q: [SELECTED]";
      PopupPage.SaveClick ] in
  let s := Controller.initial (Samples.chatPage None) in
  let s' := Controller.step s (Controller.StorageValue "Q: [SELECTED]") in
  In "Q: [SELECTED]"
    (PopupPage.writes
       (PopupPage.run (PopupPage.opened "" "" "status" None) events)) /\
  Controller.citationFormat s' = "Q: [SELECTED]" /\
  exists pre post,
    "Q: [SELECTED]" = (pre ++ Content.PLACEHOLDER ++ post)%string /\
    Controller.citation (Controller.citationFormat s') "The sky is blue"
    = (pre ++ "The sky is blue" ++ post)%string.
Proof.
  intros events s s'. split; [now left|].
  apply (stored_format_splices_quote "" "" "status" None events
           "Q: [SELECTED]" "The sky is blue" s);
    [now left | reflexivity].
Defined.

(* ===================================================================== *)
(** ** The sends of the script and the messages it writes                 *)
(* ===================================================================== *)

Module LedgerFacts.
Import Js Dom Content Controller Props Ledger BypassFacts.

Lemma count_app (A : Type) (f : A -> bool) (l1 l2 : list A) :
  length (filter f (l1 ++ l2)) = length (filter f l1) + length (filter f l2).
Proof. now rewrite filter_app, length_app. Qed.

Lemma grows_quiet (s s' : State) :
  hostLog s' = hostLog s -> pending s' = pending s -> growsBy 0 s s'.
Proof.
  intros Hl Hp. exists [], []. rewrite !app_nil_r. repeat split; auto.
Qed.

Lemma grows_refl (s : State) : growsBy 0 s s.
Proof. now apply grows_quiet. Qed.

Lemma grows_trans (k1 k2 : nat) (s s1 s2 : State) :
  growsBy k1 s s1 -> growsBy k2 s1 s2 -> growsBy (k1 + k2) s s2.
Proof.
  intros (e1 & t1 & Hl1 & Hp1 & H1) (e2 & t2 & Hl2 & Hp2 & H2).
  exists (e1 ++ e2), (t1 ++ t2).
  rewrite Hl2, Hl1, Hp2, Hp1, <- !app_assoc.
  repeat split; try reflexivity.
  unfold ownSends, triggers, injections in *. rewrite !count_app. lia.
Qed.

Lemma grows_task (task : Task) (delay : nat) (s : State) :
  isTriggerSend (delay, task) = false -> growsBy 0 s (setTimeout task delay s).
Proof.
  intros H. exists [], [(delay, task)]. rewrite app_nil_r.
  repeat split; try reflexivity. unfold triggers. simpl. now rewrite H.
Qed.

Lemma grows_effect (e : HostEffect) (s : State) :
  isOwnSend e = false -> growsBy 0 s (reachesHost e s).
Proof.
  intros H. exists [e], []. rewrite app_nil_r.
  repeat split; try reflexivity. unfold ownSends, triggers, injections.
  simpl. rewrite H. simpl. lia.
Qed.

Lemma covered_grows (k : nat) (s s' : State) :
  growsBy k s s' ->
  ownSends (hostLog s) + triggers (pending s) + k <= injections (hostLog s) ->
  sendsCovered s'.
Proof.
  intros (effects & tasks & Hl & Hp & H) Hs. unfold sendsCovered.
  rewrite Hl, Hp. unfold ownSends, triggers, injections in *.
  rewrite !count_app. lia.
Qed.

Lemma hideBubble_grows (s : State) : growsBy 0 s (hideBubble s).
Proof.
  apply grows_quiet; unfold hideBubble; destruct (bubbleEl s); reflexivity.
Qed.

Lemma hideQuoteChip_grows (s : State) : growsBy 0 s (hideQuoteChip s).
Proof.
  apply grows_quiet; unfold hideQuoteChip; simpl; destruct (chipEl s);
    reflexivity.
Qed.

Lemma handleKeyDown_grows (key : Key) (s : State) :
  growsBy 0 s (handleKeyDown key s).
Proof.
  destruct key; try apply grows_refl. unfold handleKeyDown.
  apply (grows_trans 0 0 s (hideBubble s)); [apply hideBubble_grows|].
  apply (grows_trans 0 0 _ (hideQuoteChip (hideBubble s)));
    [apply hideQuoteChip_grows|].
  apply grows_quiet; reflexivity.
Qed.

Lemma onConversationChange_grows (s : State) :
  growsBy 0 s (onConversationChange s).
Proof.
  unfold onConversationChange.
  apply (grows_trans 0 0 s (hideQuoteChip s)); [apply hideQuoteChip_grows|].
  apply (grows_trans 0 0 _ (hideBubble (hideQuoteChip s)));
    [apply hideBubble_grows|].
  apply grows_quiet; reflexivity.
Qed.

Lemma checkUrl_grows (s : State) : growsBy 0 s (checkUrl s).
Proof.
  unfold checkUrl. destruct (negb (href (page s) =? lastUrl s)%string);
    [|apply grows_refl].
  apply (grows_trans 0 0 s (withLastUrl (href (page s)) s));
    [apply grows_quiet; reflexivity | apply onConversationChange_grows].
Qed.

Lemma readSelection_grows (s : State) : growsBy 0 s (readSelection s).
Proof.
  destruct (readSelection_keeps s) as [_ Hp].
  apply grows_quiet; [|assumption].
  unfold readSelection.
  assert (Hh : hostLog (hideBubble s) = hostLog s)
    by (unfold hideBubble; destruct (bubbleEl s); reflexivity).
  destruct (selection (page s)) as [sel|].
  - destruct (extractTextWithMath (Some sel)) as [text|e]; [|reflexivity].
    destruct (negb (truthy text)); [exact Hh|].
    destruct (negb (isValidSelectionArea (Some sel))); [exact Hh | reflexivity].
  - exact Hh.
Qed.

Lemma handleBubbleClick_grows (s : State) :
  growsBy 0 s (handleBubbleClick s).
Proof.
  unfold handleBubbleClick.
  destruct (negb (truthy (currentSelectedText s))); [apply hideBubble_grows|].
  exists [], [(0, ShowChip); (100, FocusInput)]. rewrite app_nil_r.
  unfold setTimeout, showQuoteChip, requestAnimationFrame, hideBubble. simpl.
  destruct (bubbleEl s); simpl; rewrite <- app_assoc;
    repeat split; reflexivity.
Qed.

Lemma composeAndSend_grows (s : State) : growsBy 0 s (composeAndSend s).
Proof.
  unfold composeAndSend.
  destruct (negb (truthy (quotedText s))); [apply grows_refl|].
  unfold injectFormattedText.
  destruct (canInject (page (hideQuoteChip s))); simpl.
  - eexists [Injected _], [(200, TriggerSend)].
    unfold hideQuoteChip. simpl. destruct (chipEl s); simpl;
      repeat split; reflexivity.
  - apply hideQuoteChip_grows.
Qed.

Lemma handleSendClick_grows (target : ClickTarget) (s : State) :
  growsBy 0 s (fst (handleSendClick target s)).
Proof.
  unfold handleSendClick.
  destruct (negb (truthy (quotedText s)) || isBypassingSend s);
    [apply grows_refl|].
  destruct (negb (isSendButtonClick target)); [apply grows_refl|].
  apply composeAndSend_grows.
Qed.

Lemma handleEnterToSend_grows (key : Key) (shiftKey : bool) (s : State) :
  growsBy 0 s (fst (handleEnterToSend key shiftKey s)).
Proof.
  unfold handleEnterToSend.
  destruct (negb (truthy (quotedText s)) || isBypassingSend s);
    [apply grows_refl|].
  destruct (negb (isEnter key) || shiftKey); [apply grows_refl|].
  destruct (inputEl (page s)); [|apply grows_refl].
  destruct (negb (inputFocused (page s))); [apply grows_refl|].
  apply composeAndSend_grows.
Qed.

(** A click: the script may compose; a click of the user that reaches
    the host is no send of the script, a click of the script is one. *)
Lemma dispatchClick_grows (origin : Origin) (target : ClickTarget)
  (s : State) :
  growsBy (match origin with User => 0 | Synthesized => 1 end) s
    (dispatchClick origin target s).
Proof.
  unfold dispatchClick.
  pose proof (handleSendClick_grows target s) as H.
  destruct (handleSendClick target s) as [s1 stopped]. simpl in H.
  assert (Hk : forall s2, growsBy 0 s1 s2 ->
               growsBy (match origin with User => 0 | Synthesized => 1 end)
                 s s2).
  { intros s2 H2. pose proof (grows_trans 0 0 s s1 s2 H H2) as H3.
    destruct origin; [exact H3|].
    destruct H3 as (e & t & Hl & Hp & Hc). exists e, t.
    repeat split; try assumption. lia. }
  destruct stopped; [apply Hk, grows_refl|].
  destruct target.
  - destruct origin; [apply Hk, grows_effect; reflexivity|].
    destruct H as (e & t & Hl & Hp & Hc).
    exists (e ++ [SendClick Synthesized]), t. simpl.
    rewrite Hl, Hp, <- app_assoc. repeat split; try reflexivity.
    unfold ownSends, injections in *. rewrite !count_app. simpl. lia.
  - apply Hk, handleBubbleClick_grows.
  - apply Hk, hideQuoteChip_grows.
  - apply Hk, grows_refl.
Qed.

Lemma dispatchKeyDown_grows (origin : Origin) (key : Key)
  (shiftKey toInput onBubble : bool) (s : State) :
  growsBy (match origin with User => 0 | Synthesized => 1 end) s
    (dispatchKeyDown origin key shiftKey toInput onBubble s).
Proof.
  unfold dispatchKeyDown.
  pose proof (grows_trans 0 0 s _ _ (handleKeyDown_grows key s)
                (handleEnterToSend_grows key shiftKey (handleKeyDown key s)))
    as H.
  destruct (handleEnterToSend key shiftKey (handleKeyDown key s))
    as [s2 stopped]. simpl in H.
  assert (Hk : forall s3, growsBy 0 s2 s3 ->
               growsBy (match origin with User => 0 | Synthesized => 1 end)
                 s s3).
  { intros s3 H3. pose proof (grows_trans 0 0 s s2 s3 H H3) as H4.
    destruct origin; [exact H4|].
    destruct H4 as (e & t & Hl & Hp & Hc). exists e, t.
    repeat split; try assumption. lia. }
  destruct stopped; [apply Hk, grows_refl|].
  destruct toInput.
  - destruct (isEnter key && negb shiftKey); [|apply Hk, grows_refl].
    destruct origin; [apply Hk, grows_effect; reflexivity|].
    destruct H as (e & t & Hl & Hp & Hc).
    exists (e ++ [SendEnter Synthesized]), t. simpl.
    rewrite Hl, Hp, <- app_assoc. repeat split; try reflexivity.
    unfold ownSends, injections in *. rewrite !count_app. simpl. lia.
  - destruct onBubble; [|apply Hk, grows_refl].
    destruct key; try apply Hk, grows_refl;
      apply Hk, handleBubbleClick_grows.
Qed.

Lemma triggerSend_grows (s : State) : growsBy 1 s (triggerSend s).
Proof.
  unfold triggerSend.
  apply (grows_trans 1 0 s
           (if sendButton (page s)
            then if sendDisabled (page s) then s
                 else dispatchClick Synthesized OnSendButton s
            else match inputEl (page s) with
                 | Some _ => dispatchKeyDown Synthesized Enter false true false s
                 | None => s
                 end)).
  - destruct (sendButton (page s)).
    + destruct (sendDisabled (page s)).
      * exists [], []. rewrite !app_nil_r. repeat split.
        unfold ownSends, triggers, injections. simpl. lia.
      * apply (dispatchClick_grows Synthesized).
    + destruct (inputEl (page s)).
      * apply (dispatchKeyDown_grows Synthesized).
      * exists [], []. rewrite !app_nil_r. repeat split.
        unfold ownSends, triggers, injections. simpl. lia.
  - now apply grows_task.
Qed.

Lemma runTask_grows (task : Task) (s : State) :
  growsBy (if isTriggerSend (0, task) then 1 else 0) s (runTask task s).
Proof.
  destruct task; simpl.
  - apply readSelection_grows.
  - destruct (inputEl (page s)); apply grows_quiet; reflexivity.
  - apply grows_quiet; reflexivity.
  - apply triggerSend_grows.
  - apply grows_quiet; reflexivity.
  - apply checkUrl_grows.
Qed.

Lemma triggers_removeNth (l : list (nat * Task)) :
  forall i t,
    nth_error l i = Some t ->
    triggers l = triggers (removeNth i l) + (if isTriggerSend t then 1 else 0).
Proof.
  unfold triggers.
  induction l as [|x l IH]; intros i t H; [destruct i; discriminate|].
  destruct i as [|i]; simpl in H |- *.
  - inversion H; subst. destruct (isTriggerSend t); simpl; lia.
  - destruct (isTriggerSend x); simpl; rewrite (IH i t H); lia.
Qed.

Lemma step_covered (s : State) (e : Event) :
  sendsCovered s -> sendsCovered (step s e).
Proof.
  intros H.
  assert (H0 : forall s', growsBy 0 s s' -> sendsCovered s').
  { intros s' Hg. apply (covered_grows 0 s s' Hg).
    unfold sendsCovered in H. lia. }
  destruct e; cbn [step].
  - destruct (bubbleEl s && onBubble); [assumption|].
    now apply H0, grows_task.
  - destruct (bubbleEl s && negb onBubble); [|assumption].
    apply H0, hideBubble_grows.
  - apply H0, hideBubble_grows.
  - apply H0. apply (dispatchKeyDown_grows User).
  - apply H0. apply (dispatchClick_grows User).
  - apply H0, grows_quiet; reflexivity.
  - apply H0, checkUrl_grows.
  - now apply H0, grows_task.
  - destruct (negb (truthy (quotedText s))); [assumption|].
    destruct removedResponse; [|assumption].
    apply H0, onConversationChange_grows.
  - assumption.
  - destruct (nth_error (pending s) i) as [[delay task]|] eqn:Enth;
      [|assumption].
    pose proof (triggers_removeNth (pending s) i (delay, task) Enth) as Hrm.
    apply (covered_grows _ _ _
             (runTask_grows task (withPending (removeNth i (pending s)) s))).
    unfold sendsCovered in H. cbn [hostLog pending withPending].
    change (isTriggerSend (delay, task)) with (isTriggerSend (0, task)) in Hrm.
    destruct (isTriggerSend (0, task)); lia.
  - apply H0, grows_quiet; reflexivity.
Qed.

Lemma run_covered (events : list Event) :
  forall s, sendsCovered s -> sendsCovered (run s events).
Proof.
  induction events as [|e events IH]; intros s H; [assumption|].
  apply IH. now apply step_covered.
Qed.

End LedgerFacts.

(** X12.  The script sends only what it has written.  In every state
    that the script reaches, the sends it has made itself (its click on
    the send button, its Enter key event) together with the deferred
    sends that still wait are at most as many as the messages it has
    written into the input: no send of the script goes out without a
    message composed for it. *)
Theorem own_sends_follow_injections (p : Controller.Page)
  (events : list Controller.Event) :
  let s := Controller.run (Controller.initial p) events in
  Ledger.ownSends (Controller.hostLog s)
  + Ledger.triggers (Controller.pending s)
  <= Ledger.injections (Controller.hostLog s).
Proof.
  apply (LedgerFacts.run_covered events (Controller.initial p)).
  unfold Ledger.sendsCovered, Ledger.ownSends, Ledger.triggers,
    Ledger.injections. simpl. lia.
Qed.

(* ===================================================================== *)
(** ** The bubble                                                         *)
(* ===================================================================== *)

Module BubbleFacts.
Import Js Dom Content Controller Props Ledger.

Lemma bubble_frame (s s' : State) :
  bubbleVisible s' = bubbleVisible s ->
  bubbleEl s' = bubbleEl s ->
  currentSelectedText s' = currentSelectedText s ->
  bubbleHasText s -> bubbleHasText s'.
Proof. unfold bubbleHasText. intros -> -> ->. exact (fun H => H). Qed.

Lemma bubble_hidden (s : State) : bubbleVisible s = false -> bubbleHasText s.
Proof. unfold bubbleHasText. intros ->. discriminate. Qed.

Lemma hideBubble_hidden (s : State) :
  bubbleHasText s -> bubbleVisible (hideBubble s) = false.
Proof.
  unfold bubbleHasText, hideBubble. intros H.
  destruct (bubbleEl s) eqn:Eel; [reflexivity|].
  destruct (bubbleVisible s); [|reflexivity].
  destruct (H eq_refl) as [Hel _]. discriminate.
Qed.

Lemma hideBubble_bubble (s : State) :
  bubbleHasText s -> bubbleHasText (hideBubble s).
Proof. intros H. now apply bubble_hidden, hideBubble_hidden. Qed.

Lemma hideQuoteChip_bubble (s : State) :
  bubbleHasText s -> bubbleHasText (hideQuoteChip s).
Proof.
  apply bubble_frame; unfold hideQuoteChip; simpl; destruct (chipEl s);
    reflexivity.
Qed.

Lemma handleKeyDown_bubble (key : Key) (s : State) :
  bubbleHasText s -> bubbleHasText (handleKeyDown key s).
Proof.
  intros H. destruct key; try assumption. apply bubble_hidden.
  unfold handleKeyDown. simpl.
  pose proof (hideBubble_hidden s H) as Hh.
  unfold hideQuoteChip. simpl. now destruct (chipEl (hideBubble s)).
Qed.

Lemma handleBubbleClick_bubble (s : State) :
  bubbleHasText s -> bubbleHasText (handleBubbleClick s).
Proof.
  intros H. unfold handleBubbleClick.
  destruct (negb (truthy (currentSelectedText s)));
    [now apply hideBubble_bubble|].
  apply bubble_hidden. pose proof (hideBubble_hidden s H) as Hh.
  unfold hideBubble in *. simpl. destruct (bubbleEl s); [reflexivity|].
  exact Hh.
Qed.

Lemma composeAndSend_bubble (s : State) :
  bubbleHasText s -> bubbleHasText (composeAndSend s).
Proof.
  unfold composeAndSend.
  destruct (negb (truthy (quotedText s))); [exact (fun H => H)|].
  unfold injectFormattedText.
  destruct (canInject (page (hideQuoteChip s))); simpl;
    apply bubble_frame; unfold hideQuoteChip; simpl; destruct (chipEl s);
    reflexivity.
Qed.

Lemma handleSendClick_bubble (target : ClickTarget) (s : State) :
  bubbleHasText s -> bubbleHasText (fst (handleSendClick target s)).
Proof.
  intros H. unfold handleSendClick.
  destruct (negb (truthy (quotedText s)) || isBypassingSend s);
    [assumption|].
  destruct (negb (isSendButtonClick target)); [assumption|].
  now apply composeAndSend_bubble.
Qed.

Lemma handleEnterToSend_bubble (key : Key) (shiftKey : bool) (s : State) :
  bubbleHasText s -> bubbleHasText (fst (handleEnterToSend key shiftKey s)).
Proof.
  intros H. unfold handleEnterToSend.
  destruct (negb (truthy (quotedText s)) || isBypassingSend s);
    [assumption|].
  destruct (negb (isEnter key) || shiftKey); [assumption|].
  destruct (inputEl (page s)); [|assumption].
  destruct (negb (inputFocused (page s))); [assumption|].
  now apply composeAndSend_bubble.
Qed.

Lemma dispatchClick_bubble (origin : Origin) (target : ClickTarget)
  (s : State) :
  bubbleHasText s -> bubbleHasText (dispatchClick origin target s).
Proof.
  intros H. unfold dispatchClick.
  pose proof (handleSendClick_bubble target s H) as H1.
  destruct (handleSendClick target s) as [s1 stopped]. simpl in H1.
  destruct stopped; [assumption|].
  destruct target.
  - revert H1. apply bubble_frame; reflexivity.
  - now apply handleBubbleClick_bubble.
  - now apply hideQuoteChip_bubble.
  - assumption.
Qed.

Lemma dispatchKeyDown_bubble (origin : Origin) (key : Key)
  (shiftKey toInput onBubble : bool) (s : State) :
  bubbleHasText s ->
  bubbleHasText (dispatchKeyDown origin key shiftKey toInput onBubble s).
Proof.
  intros H. unfold dispatchKeyDown.
  pose proof (handleEnterToSend_bubble key shiftKey _
                (handleKeyDown_bubble key s H)) as H2.
  destruct (handleEnterToSend key shiftKey (handleKeyDown key s))
    as [s2 stopped]. simpl in H2.
  destruct stopped; [assumption|].
  destruct toInput.
  - destruct (isEnter key && negb shiftKey); [|assumption].
    revert H2. apply bubble_frame; reflexivity.
  - destruct onBubble; [|assumption].
    destruct key; try assumption; now apply handleBubbleClick_bubble.
Qed.

Lemma onConversationChange_bubble (s : State) :
  bubbleHasText s -> bubbleHasText (onConversationChange s).
Proof.
  intros H. apply bubble_hidden. unfold onConversationChange. simpl.
  now apply hideBubble_hidden, hideQuoteChip_bubble.
Qed.

Lemma checkUrl_bubble (s : State) :
  bubbleHasText s -> bubbleHasText (checkUrl s).
Proof.
  intros H. unfold checkUrl.
  destruct (negb (href (page s) =? lastUrl s)%string); [|assumption].
  apply onConversationChange_bubble. revert H.
  apply bubble_frame; reflexivity.
Qed.

Lemma readSelection_bubble (s : State) :
  bubbleHasText s -> bubbleHasText (readSelection s).
Proof.
  intros H. unfold readSelection.
  assert (Hclear : bubbleHasText
                     (withDisplayText "" (withSelectedText "" (hideBubble s))))
    by (apply bubble_hidden; simpl; now apply hideBubble_hidden).
  destruct (selection (page s)) as [sel|]; [|exact Hclear].
  destruct (extractTextWithMath (Some sel)) as [text|e]; [|assumption].
  destruct (truthy text) eqn:Et; [|exact Hclear]. cbn [negb].
  destruct (negb (isValidSelectionArea (Some sel))); [exact Hclear|].
  intros _. split; [reflexivity|]. simpl. intros ->. discriminate.
Qed.

Lemma triggerSend_bubble (s : State) :
  bubbleHasText s -> bubbleHasText (triggerSend s).
Proof.
  intros H. unfold triggerSend.
  apply (bubble_frame
           (if sendButton (page s)
            then if sendDisabled (page s) then s
                 else dispatchClick Synthesized OnSendButton s
            else match inputEl (page s) with
                 | Some _ => dispatchKeyDown Synthesized Enter false true false s
                 | None => s
                 end)); try reflexivity.
  destruct (sendButton (page s));
    [destruct (sendDisabled (page s));
       [assumption | now apply dispatchClick_bubble]|].
  destruct (inputEl (page s)); [now apply dispatchKeyDown_bubble | assumption].
Qed.

Lemma runTask_bubble (task : Task) (s : State) :
  bubbleHasText s -> bubbleHasText (runTask task s).
Proof.
  intros H. destruct task; simpl.
  - now apply readSelection_bubble.
  - destruct (inputEl (page s)); [|assumption].
    revert H. apply bubble_frame; reflexivity.
  - revert H. apply bubble_frame; reflexivity.
  - now apply triggerSend_bubble.
  - revert H. apply bubble_frame; reflexivity.
  - now apply checkUrl_bubble.
Qed.

Lemma step_bubble (s : State) (e : Event) :
  bubbleHasText s -> bubbleHasText (step s e).
Proof.
  intros H. destruct e; cbn [step].
  - destruct (bubbleEl s && onBubble); [assumption|].
    revert H. apply bubble_frame; reflexivity.
  - destruct (bubbleEl s && negb onBubble); [|assumption].
    now apply hideBubble_bubble.
  - now apply hideBubble_bubble.
  - now apply dispatchKeyDown_bubble.
  - now apply dispatchClick_bubble.
  - revert H. apply bubble_frame; reflexivity.
  - now apply checkUrl_bubble.
  - revert H. apply bubble_frame; reflexivity.
  - destruct (negb (truthy (quotedText s))); [assumption|].
    destruct removedResponse; [|assumption].
    now apply onConversationChange_bubble.
  - assumption.
  - destruct (nth_error (pending s) i) as [[delay task]|]; [|assumption].
    apply runTask_bubble. revert H. apply bubble_frame; reflexivity.
  - revert H. apply bubble_frame; reflexivity.
Qed.

Lemma run_bubble (events : list Event) :
  forall s, bubbleHasText s -> bubbleHasText (run s events).
Proof.
  induction events as [|e events IH]; intros s H; [assumption|].
  apply IH. now apply step_bubble.
Qed.

Lemma reached_bubble (p : Page) (events : list Event) :
  bubbleHasText (run (initial p) events).
Proof. apply run_bubble, bubble_hidden. reflexivity. Qed.

End BubbleFacts.



(** X14.  A selection in the input area or on a control never shows the
    bubble.  In every state that the script reaches, when the callback
    of [handleMouseUp] runs while the common ancestor of the selection
    lies inside one of the excluded regions (the input area, a button,
    a toolbar), the bubble is hidden afterwards and no selected text is
    kept, whatever was shown and kept before. *)
Theorem excluded_selection_shows_no_bubble (p : Controller.Page)
  (events : list Controller.Event) (sel : Dom.Selection) (i delay : nat) :
  let s := Controller.run (Controller.initial p) events in
  Controller.selection (Controller.page s) = Some sel ->
  Props.liesInside (Dom.commonAncestorContainer (Dom.getRangeAt0 sel))
    Content.EXCLUDE_SELECTORS ->
  nth_error (Controller.pending s) i = Some (delay, Controller.ReadSelection) ->
  let s' := Controller.step s (Controller.TimerFires i) in
  Controller.bubbleVisible s' = false /\
  Controller.currentSelectedText s' = "" /\
  Controller.currentDisplayText s' = "".
Proof.
  intros s Hsel Hin Hnth s'.
  pose proof (BubbleFacts.reached_bubble p events) as Hb. fold s in Hb.
  unfold s'. cbn [Controller.step]. rewrite Hnth. cbn [Controller.runTask].
  set (s0 := Controller.withPending
               (Controller.removeNth i (Controller.pending s)) s).
  assert (Hb0 : Ledger.bubbleHasText s0)
    by (revert Hb; apply BubbleFacts.bubble_frame; reflexivity).
  pose proof (BubbleFacts.hideBubble_hidden s0 Hb0) as Hh.
  unfold Controller.readSelection.
  change (Controller.selection (Controller.page s0))
    with (Controller.selection (Controller.page s)).
  rewrite Hsel.
  destruct (TidyFacts.extract_returns_trimmed (Some sel)) as (text & -> & _).
  assert (Hinvalid : Content.isValidSelectionArea (Some sel) = false).
  { unfold Content.isValidSelectionArea.
    destruct (Dom.rangeCount sel =? 0)%nat; [reflexivity|].
    apply AreaFacts.isInsideSelector_spec in Hin. now rewrite Hin. }
  rewrite Hinvalid. cbn [negb].
  destruct (negb (Js.truthy text)); simpl; repeat split; assumption.
Qed.

Lemma excluded_selection_shows_no_bubble_witness :
  let p := Samples.chatPage (Some Scenes.typedText) in
  let s := Controller.run (Controller.initial p) [Controller.MouseUp false] in
  let s' := Controller.step s (Controller.TimerFires 0) in
  Controller.selection (Controller.page s) = Some Scenes.typedText /\
  Content.extractTextWithMath (Some Scenes.typedText) = Js.Ok "why?" /\
  Controller.bubbleVisible s' = false /\
  Controller.currentSelectedText s' = "" /\
  Controller.currentDisplayText s' = "".
Proof.
  intros p s s'. split; [reflexivity|]. split; [reflexivity|].
  apply (excluded_selection_shows_no_bubble p [Controller.MouseUp false]
           Scenes.typedText 0 10); [reflexivity | | reflexivity].
  split; [reflexivity|].
  exists Scenes.inputArea, [Dom.byClass "input-area"].
  repeat split; simpl; auto.
Defined.

Module NavigationFacts.
Import Js Controller.

(** What [onConversationChange] leaves of the state. *)
Lemma onConversationChange_fields (s : State) :
  let s' := onConversationChange s in
  quotedText s' = "" /\
  quotedDisplayText s' = "" /\
  currentSelectedText s' = "" /\
  currentDisplayText s' = "" /\
  lastUrl s' = lastUrl s /\
  page s' = page s.
Proof.
  unfold onConversationChange, hideBubble, hideQuoteChip. cbn.
  destruct (chipEl s); cbn; destruct (bubbleEl s); cbn;
    repeat split; reflexivity.
Qed.

End NavigationFacts.

(** X15.  A change of the URL drops the quote.  When the poll finds
    that [location.href] differs from the URL it saw last, the script
    forgets the quote and the selection and remembers the new URL; a
    second poll on the same URL changes nothing; and the next click on
    the send button is not intercepted: it reaches the host as the
    click of the user. *)
Theorem url_change_drops_quote (s : Controller.State) :
  Controller.href (Controller.page s) <> Controller.lastUrl s ->
  let s' := Controller.step s Controller.UrlPoll in
  Controller.quotedText s' = "" /\
  Controller.quotedDisplayText s' = "" /\
  Controller.currentSelectedText s' = "" /\
  Controller.currentDisplayText s' = "" /\
  Controller.lastUrl s' = Controller.href (Controller.page s) /\
  Controller.step s' Controller.UrlPoll = s' /\
  Controller.step s' (Controller.UserClick Controller.OnSendButton)
  = Controller.reachesHost (Controller.SendClick Controller.User) s'.
Proof.
  intros Hne s'.
  assert (Hs' : s' = Controller.onConversationChange
                       (Controller.withLastUrl
                          (Controller.href (Controller.page s)) s)).
  { unfold s'. cbn [Controller.step]. unfold Controller.checkUrl.
    apply String.eqb_neq in Hne. now rewrite Hne. }
  destruct (NavigationFacts.onConversationChange_fields
              (Controller.withLastUrl (Controller.href (Controller.page s)) s))
    as (Hq & Hd & Hc & Hcd & Hu & Hp).
  rewrite <- Hs' in Hq, Hd, Hc, Hcd, Hu, Hp. simpl in Hu, Hp.
  repeat (split; [assumption|]). split.
  - cbn [Controller.step]. unfold Controller.checkUrl.
    now rewrite Hu, Hp, String.eqb_refl.
  - cbn [Controller.step]. unfold Controller.dispatchClick,
      Controller.handleSendClick. now rewrite Hq.
Qed.

Lemma url_change_drops_quote_witness :
  let p := Samples.chatPage None in
  let moved :=
    {| Controller.selection := None;
       Controller.inputEl := Some Controller.ContentEditable;
       Controller.inputText := "";
       Controller.sendButton := true;
       Controller.sendDisabled := false;
       Controller.inputFocused := true;
       Controller.href := "https://gemini.google.com/app/2" |} in
  let s := Controller.step (Samples.quoting p) (Controller.HostChanges moved) in
  let s' := Controller.step s Controller.UrlPoll in
  Controller.quotedText s = "q" /\
  Controller.href (Controller.page s) <> Controller.lastUrl s /\
  Controller.quotedText s' = "" /\
  Controller.quotedDisplayText s' = "" /\
  Controller.currentSelectedText s' = "" /\
  Controller.currentDisplayText s' = "" /\
  Controller.lastUrl s' = Controller.href (Controller.page s) /\
  Controller.step s' Controller.UrlPoll = s' /\
  Controller.step s' (Controller.UserClick Controller.OnSendButton)
  = Controller.reachesHost (Controller.SendClick Controller.User) s'.
Proof.
  intros p moved s s'. split; [reflexivity|]. split; [discriminate|].
  apply (url_change_drops_quote s). discriminate.
Defined.

(** X16.  The bypass flag never stays set.  In every state that the
    script reaches, either the flag is unset and neither the deferred
    send nor the deferred clearing of the flag waits, or the flag is set
    and exactly one of these two callbacks waits.  So the flag is set
    only between a composed message and the end of its send, and two
    composed messages are never on their way at once. *)
Theorem bypass_flag_guarded (p : Controller.Page)
  (events : list Controller.Event) :
  Props.bypassGuarded (Controller.run (Controller.initial p) events).
Proof.
  induction events as [|e events IH] using rev_ind.
  - apply BypassFacts.initial_guarded.
  - rewrite SessionFacts.run_snoc. now apply BypassFacts.step_guarded.
Qed.

(** The deferred send of a quoted equation (X17, lemma
    [BypassFacts.own_send_never_intercepted]). *)
Lemma own_send_never_intercepted_witness :
  let p := Samples.chatPage (Some (Samples.wholeEquation "x")) in
  let s := Controller.run (Controller.initial p) Scenes.quoteAndSend in
  let s' := Controller.step s (Controller.TimerFires 0) in
  nth_error (Controller.pending s) 0 = Some (200, Controller.TriggerSend) /\
  Controller.isBypassingSend s = true /\
  Controller.isBypassingSend s' = true /\
  Controller.quotedText s' = Controller.quotedText s /\
  Controller.hostLog s'
  = Controller.hostLog s ++ [Controller.SendClick Controller.Synthesized].
Proof.
  intros p s s'. split; [reflexivity|].
  apply (BypassFacts.own_send_never_intercepted p Scenes.quoteAndSend 0 200).
  reflexivity.
Defined.

(* ===================================================================== *)
(** ** The send button                                                    *)
(* ===================================================================== *)

Module SendButtonFacts.
Import Js Dom SendButton.

Lemma matches_element (n : node) (sel : selector) :
  matches n sel = true -> isElement n = true.
Proof.
  unfold matches. intros H. apply existsb_exists in H as (c & _ & Hc).
  unfold matchesCompound in Hc. destruct (isElement n); [reflexivity|].
  discriminate.
Qed.

Lemma querySelectorIn_matches (root : located) (sel : selector) :
  isNull (querySelectorIn root sel) = false ->
  matches (self (querySelectorIn root sel)) sel = true.
Proof.
  unfold querySelectorIn.
  destruct (querySelectorAllIn root sel) as [|found rest] eqn:E;
    [discriminate|].
  intros _.
  assert (Hin : In found (querySelectorAllIn root sel))
    by (rewrite E; now left).
  unfold querySelectorAllIn in Hin. now apply filter_In in Hin as [_ Hm].
Qed.

Lemma firstFound_matches (root : located) (selectors : list selector) :
  isNull (firstFound root selectors) = false ->
  exists sel,
    In sel selectors /\
    matches (self (firstFound root selectors)) sel = true.
Proof.
  induction selectors as [|sel rest IH]; [discriminate|].
  cbn [firstFound].
  destruct (querySelectorIn root sel) as [|n above] eqn:E.
  - intros H. destruct (IH H) as (sel' & Hin & Hm).
    exists sel'. split; [now right | assumption].
  - intros _. exists sel. split; [now left|].
    rewrite <- E. apply querySelectorIn_matches. now rewrite E.
Qed.

Lemma byTag_matches (n : node) (t : string) :
  matches n [byTag t] = true -> tagOf n = t.
Proof.
  unfold matches, matchesCompound, byTag. simpl. intros H.
  rewrite orb_false_r, !andb_true_r in H.
  apply andb_true_iff in H as [_ H]. now apply String.eqb_eq.
Qed.

(** Two ways to be recognised: by a selector of the list, or as a
    button with a label for sending. *)
Lemma recognised_by_selector (target : located) (sel : selector) :
  isNull target = false ->
  In sel SEND_BUTTON_SELECTORS ->
  matches (self target) sel = true ->
  isSendButtonClick target = true.
Proof.
  intros Hnull Hin Hm. unfold isSendButtonClick.
  rewrite Hnull, (matches_element _ _ Hm). cbn [negb orb].
  replace (existsb _ SEND_BUTTON_SELECTORS) with true; [reflexivity|].
  symmetry. apply existsb_exists. exists sel. split; [assumption|].
  now rewrite Hm.
Qed.

Lemma recognised_by_label (target : located) :
  isNull target = false ->
  matches (self target) [byTag "button"] = true ->
  hasSendLabel (self target) = true ->
  isSendButtonClick target = true.
Proof.
  intros Hnull Hm Hl. unfold isSendButtonClick.
  rewrite Hnull, (matches_element _ _ Hm). cbn [negb orb].
  destruct (existsb _ SEND_BUTTON_SELECTORS); [reflexivity|].
  rewrite (byTag_matches _ _ Hm). cbn.
  destruct target as [|b above]; [discriminate | exact Hl].
Qed.

End SendButtonFacts.

(** X18.  The button that the script clicks is one that it would
    intercept.  Whatever the document and the input element are, an
    element that [findSendButton] returns passes [isSendButtonClick]:
    it matches one of the send-button selectors, or it is a button
    whose label holds [send] or [submit].  The click that
    [composeAndSend] makes on it would therefore be taken for a send
    of the user, were the bypass flag not set. *)
Theorem found_send_button_is_recognised (doc : Dom.node)
  (inputEl : Dom.located) :
  Dom.isNull (SendButton.findSendButton doc inputEl) = false ->
  SendButton.isSendButtonClick (SendButton.findSendButton doc inputEl) = true.
Proof.
  unfold SendButton.findSendButton.
  destruct (SendButton.firstFound [doc] SendButton.SEND_BUTTON_SELECTORS)
    as [|n above] eqn:E.
  - destruct inputEl as [|i rest]; [discriminate|].
    set (ancestor := match Dom.closest (i :: rest) _ with
                     | [] => _
                     | _ :: _ => _
                     end).
    destruct ancestor as [|a up]; [discriminate|].
    destruct (filter _ (SendButton.querySelectorAllIn (a :: up) _))
      as [|btn others] eqn:Ef; [discriminate|].
    intros Hnull.
    assert (Hin : In btn (filter (fun b => SendButton.hasSendLabel (Dom.self b))
                            (SendButton.querySelectorAllIn (a :: up)
                               [Dom.byTag "button"])))
      by (rewrite Ef; now left).
    apply filter_In in Hin as [Hq Hl].
    unfold SendButton.querySelectorAllIn in Hq.
    apply filter_In in Hq as [_ Hm].
    now apply SendButtonFacts.recognised_by_label.
  - intros Hnull.
    destruct (SendButtonFacts.firstFound_matches [doc]
                SendButton.SEND_BUTTON_SELECTORS) as (sel & Hin & Hm);
      [now rewrite E|].
    rewrite E in Hm.
    now apply (SendButtonFacts.recognised_by_selector _ sel).
Qed.

Lemma found_send_button_is_recognised_witness :
  let btn := SendButton.findSendButton Scenes.promptForm Scenes.promptInput in
  Dom.getAttribute "aria-label" (Dom.self btn) = Some "Submit prompt" /\
  Dom.isNull btn = false /\
  SendButton.isSendButtonClick btn = true.
Proof.
  intros btn. split; [reflexivity|]. split; [reflexivity|].
  apply (found_send_button_is_recognised Scenes.promptForm Scenes.promptInput).
  reflexivity.
Defined.

(* ===================================================================== *)
(** ** Clipped equations                                                  *)
(* ===================================================================== *)

Module ClippingFacts.
Import Js Dom Content Clipping DomFacts PassFacts.

#[local] Abbreviation enterData :=
  (fun (insideData : bool) (n : node) =>
     insideData || hasAttribute "data-math" n).

(** A rewritten node has its tag and its attributes, and the children
    that the rewriting gives. *)
Lemma rewriteChildren_node (C : Type) (enter : C -> node -> C)
  (visit : C -> node -> option (list node)) (ctx : C) (n : node) :
  rewriteChildren enter visit ctx n
  = match n with
    | Element t a _ =>
        Element t a (childNodes (rewriteChildren enter visit ctx n))
    | Fragment _ => Fragment (childNodes (rewriteChildren enter visit ctx n))
    | _ => n
    end.
Proof. destruct n; reflexivity. Qed.

Lemma hasAttribute_rewriteChildren (C : Type) (enter : C -> node -> C)
  (visit : C -> node -> option (list node)) (ctx : C) (n : node)
  (name : string) :
  hasAttribute name (rewriteChildren enter visit ctx n) = hasAttribute name n.
Proof. destruct n; reflexivity. Qed.

(** Whether an orphan is wrapped does not depend on the source. *)
Lemma wrapOrphan_none (latex latex' : string) (isBlock isBlock' : bool)
  (insideData : bool) (el el' : node) :
  matches el' ORPHANS = matches el ORPHANS ->
  hasAttribute "data-math" el' = hasAttribute "data-math" el ->
  wrapOrphan latex isBlock insideData el = None ->
  wrapOrphan latex' isBlock' insideData el' = None.
Proof.
  unfold wrapOrphan. intros -> ->.
  now destruct (matches el ORPHANS && negb insideData
                && negb (hasAttribute "data-math" el)).
Qed.

Lemma wrapOrphan_inside (latex : string) (isBlock : bool) (el : node) :
  wrapOrphan latex isBlock true el = None.
Proof. unfold wrapOrphan. now rewrite andb_false_r. Qed.

(** Below a wrapper nothing is wrapped. *)
Lemma wrapper_settled (latex latex' : string) (isBlock isBlock' : bool)
  (insideData : bool) (el : node) (r : list node) :
  wrapOrphan latex isBlock insideData el = Some r ->
  flat_map
    (fun c =>
       match wrapOrphan latex' isBlock' insideData c with
       | Some r' => r'
       | None =>
           [rewriteChildren enterData (wrapOrphan latex' isBlock') insideData c]
       end) r
  = r.
Proof.
  unfold wrapOrphan at 1.
  destruct (matches el ORPHANS && negb insideData
            && negb (hasAttribute "data-math" el)); [|discriminate].
  intros [= <-]. cbn [flat_map]. rewrite app_nil_r.
  set (w := Element _ _ [el]).
  assert (Hw : wrapOrphan latex' isBlock' insideData w = None)
    by (unfold w, wrapOrphan; destruct isBlock; reflexivity).
  rewrite Hw. f_equal.
  apply (rewriteChildren_idle_below bool _ _ insideData true).
  - unfold w. destruct isBlock; simpl; apply orb_true_r.
  - reflexivity.
  - intros x. apply wrapOrphan_inside.
Qed.

(** A fragment whose orphans have been wrapped is left as it is by a
    second wrapping, whatever its source. *)
Lemma wrapped_settled (latex latex' : string) (isBlock isBlock' : bool) :
  forall n insideData,
    rewriteChildren enterData (wrapOrphan latex' isBlock') insideData
      (rewriteChildren enterData (wrapOrphan latex isBlock) insideData n)
    = rewriteChildren enterData (wrapOrphan latex isBlock) insideData n.
Proof.
  assert (Hch : forall (ch : list node) inner,
            Forall
              (fun n => forall insideData,
                 rewriteChildren enterData (wrapOrphan latex' isBlock')
                   insideData
                   (rewriteChildren enterData (wrapOrphan latex isBlock)
                      insideData n)
                 = rewriteChildren enterData (wrapOrphan latex isBlock)
                     insideData n) ch ->
            flat_map
              (fun c =>
                 match wrapOrphan latex' isBlock' inner c with
                 | Some r' => r'
                 | None =>
                     [rewriteChildren enterData (wrapOrphan latex' isBlock')
                        inner c]
                 end)
              (flat_map
                 (fun c =>
                    match wrapOrphan latex isBlock inner c with
                    | Some r => r
                    | None =>
                        [rewriteChildren enterData (wrapOrphan latex isBlock)
                           inner c]
                    end) ch)
            = flat_map
                (fun c =>
                   match wrapOrphan latex isBlock inner c with
                   | Some r => r
                   | None =>
                       [rewriteChildren enterData (wrapOrphan latex isBlock)
                          inner c]
                   end) ch).
  { intros ch inner Hall. induction Hall as [|c ch Hc Hall IH]; [reflexivity|].
    cbn [flat_map]. rewrite flat_map_app, IH. f_equal.
    destruct (wrapOrphan latex isBlock inner c) as [r|] eqn:Ew.
    - now apply (wrapper_settled latex latex' isBlock isBlock' inner c).
    - cbn [flat_map]. rewrite app_nil_r.
      assert (Hnone : wrapOrphan latex' isBlock' inner
                        (rewriteChildren enterData (wrapOrphan latex isBlock)
                           inner c) = None).
      { apply (wrapOrphan_none latex latex' isBlock isBlock' inner c);
          [apply matches_rewriteChildren | apply hasAttribute_rewriteChildren
          | exact Ew]. }
      rewrite Hnone. now rewrite Hc. }
  apply (node_induction
           (fun n => forall insideData,
              rewriteChildren enterData (wrapOrphan latex' isBlock') insideData
                (rewriteChildren enterData (wrapOrphan latex isBlock)
                   insideData n)
              = rewriteChildren enterData (wrapOrphan latex isBlock)
                  insideData n));
    try reflexivity.
  - intros t a ch Hall insideData.
    rewrite (rewriteChildren_node bool _ (wrapOrphan latex isBlock)
               insideData (Element t a ch)).
    rewrite (rewriteChildren_node bool _ (wrapOrphan latex' isBlock')
               insideData (Element t a _)).
    rewrite !rewriteChildren_children. cbn [childNodes].
    f_equal. now apply Hch.
  - intros ch Hall insideData.
    rewrite (rewriteChildren_node bool _ (wrapOrphan latex isBlock)
               insideData (Fragment ch)).
    rewrite (rewriteChildren_node bool _ (wrapOrphan latex' isBlock')
               insideData (Fragment _)).
    rewrite !rewriteChildren_children. cbn [childNodes].
    f_equal. now apply Hch.
Qed.

Lemma wrapOrphans_settled (latex latex' : string) (isBlock isBlock' : bool)
  (fragment : node) :
  wrapOrphans latex' isBlock' (wrapOrphans latex isBlock fragment)
  = wrapOrphans latex isBlock fragment.
Proof. apply wrapped_settled. Qed.

(** Without orphans there is nothing to wrap. *)
Lemma wrapOrphans_none (latex : string) (isBlock : bool) (fragment : node) :
  querySelectorAll fragment ORPHANS = [] ->
  wrapOrphans latex isBlock fragment = fragment.
Proof.
  intros H. apply rewriteChildren_none. intros ctx d Hd.
  unfold wrapOrphan. now rewrite (querySelectorAll_none fragment _ H d Hd).
Qed.

(** The loop over the math elements of the document. *)
Lemma annotate_loop (range : Range) (mathEls : list node) :
  forall fragment,
    fold_left
      (fun frag mathEl =>
         match intersectsNode range mathEl with
         | Ok true =>
             wrapOrphans
               (match getAttribute "data-math" mathEl with
                | Some latex => latex
                | None => ""
                end)
               (hasClass "math-block" mathEl) frag
         | Ok false => frag
         | Throw _ => frag
         end)
      mathEls fragment
    = match find (intersecting range) mathEls with
      | Some mathEl =>
          wrapOrphans (sourceOf mathEl) (hasClass "math-block" mathEl) fragment
      | None => fragment
      end.
Proof.
  induction mathEls as [|m rest IH]; intros fragment; [reflexivity|].
  cbn [fold_left find]. unfold intersecting at 1.
  destruct (intersectsNode range m) as [[|]|e]; try apply IH.
  fold (sourceOf m). rewrite IH.
  destruct (find (intersecting range) rest); [|reflexivity].
  apply wrapOrphans_settled.
Qed.

End ClippingFacts.

(** X19.  A rendering outside a wrapper takes the source of the first
    math element.  When [annotateMathFromOriginalDOM] returns, the
    fragment is the one in which every rendering that is not inside a
    [[data-math]] element has been wrapped with the source of the first
    math element of the document that intersects the range; the math
    elements that come after it change nothing.  When no math element
    intersects the range, the fragment is left as it was.  So a KaTeX
    rendering that stands in the selection without a [[data-math]]
    element around it is quoted with the source of another equation,
    whatever its own annotation holds. *)
Theorem clipped_equations_take_first_source (fragment : Dom.node)
  (range : Dom.Range) (annotated : Dom.node) :
  Content.annotateMathFromOriginalDOM fragment range = Js.Ok annotated ->
  annotated
  = match
      find (Clipping.intersecting range) (Clipping.mathElementsAround range)
    with
    | Some mathEl =>
        Content.wrapOrphans (Clipping.sourceOf mathEl)
          (Dom.hasClass "math-block" mathEl) fragment
    | None => fragment
    end.
Proof.
  unfold Content.annotateMathFromOriginalDOM.
  destruct (Dom.querySelectorAll fragment Content.ORPHANS) as [|o os] eqn:Eo.
  - intros [= <-]. destruct (find _ _); [|reflexivity].
    symmetry. now apply ClippingFacts.wrapOrphans_none.
  - destruct (Dom.isNull _); [discriminate|].
    unfold Clipping.mathElementsAround.
    destruct (Dom.self (Content.searchRootFrom 10 _)) eqn:Es;
      try discriminate; intros [= <-]; apply ClippingFacts.annotate_loop.
Qed.

Lemma clipped_equations_take_first_source_witness :
  let fragment := Dom.Fragment Scenes.bareAndWrapped in
  let annotated := Content.wrapOrphans "b" false fragment in
  Dom.cloneContents Scenes.bareAndWrappedRange = Js.Ok Scenes.bareAndWrapped /\
  map Clipping.sourceOf
    (Clipping.mathElementsAround Scenes.bareAndWrappedRange)
  = ["b"] /\
  Content.annotateMathFromOriginalDOM fragment Scenes.bareAndWrappedRange
  = Js.Ok annotated /\
  Content.extractTextWithMath
    (Some (Samples.oneRange Scenes.bareAndWrappedRange "xx and x"))
  = Js.Ok "$b$ and $b$" /\
  annotated
  = match
      find (Clipping.intersecting Scenes.bareAndWrappedRange)
        (Clipping.mathElementsAround Scenes.bareAndWrappedRange)
    with
    | Some mathEl =>
        Content.wrapOrphans (Clipping.sourceOf mathEl)
          (Dom.hasClass "math-block" mathEl) fragment
    | None => fragment
    end.
Proof.
  intros fragment annotated. split; [reflexivity|]. split; [reflexivity|].
  split; [reflexivity|]. split; [reflexivity|].
  apply (clipped_equations_take_first_source fragment
           Scenes.bareAndWrappedRange).
  reflexivity.
Defined.


(* ===================================================================== *)
(** ** Where the written messages come from                               *)
(* ===================================================================== *)

Module ProvenanceFacts.
Import Js Dom Content Controller Props Ledger.

Lemma writes_quiet (s s' : State) :
  hostLog s' = hostLog s -> writesFrom s s'.
Proof. intros H m Hm. left. now rewrite <- H. Qed.

(** Two handlers in a row, when the first keeps what the message is
    built from, or drops the quote. *)
Lemma writes_then (s s1 s2 : State) :
  writesFrom s s1 ->
  writesFrom s1 s2 ->
  (forall m, composed s1 m -> composed s m) ->
  writesFrom s s2.
Proof.
  intros H1 H2 Hc m Hm. destruct (H2 m Hm) as [Hin|Hcomp].
  - now apply H1.
  - right. now apply Hc.
Qed.

Lemma composed_same (s s' : State) :
  citationFormat s' = citationFormat s ->
  quotedText s' = quotedText s ->
  page s' = page s ->
  forall m, composed s' m -> composed s m.
Proof. unfold composed. intros -> -> ->. exact (fun m H => H). Qed.

Lemma composed_unquoted (s s' : State) :
  quotedText s' = "" -> forall m, composed s' m -> composed s m.
Proof. unfold composed. intros -> m [H _]. now contradiction H. Qed.

Lemma hostLog_hideBubble (s : State) : hostLog (hideBubble s) = hostLog s.
Proof. unfold hideBubble. now destruct (bubbleEl s). Qed.

Lemma hostLog_hideQuoteChip (s : State) :
  hostLog (hideQuoteChip s) = hostLog s.
Proof. unfold hideQuoteChip. simpl. now destruct (chipEl s). Qed.

Lemma hostLog_handleKeyDown (key : Key) (s : State) :
  hostLog (handleKeyDown key s) = hostLog s.
Proof.
  destruct key; try reflexivity. unfold handleKeyDown. simpl.
  now rewrite hostLog_hideQuoteChip, hostLog_hideBubble.
Qed.

Lemma hostLog_onConversationChange (s : State) :
  hostLog (onConversationChange s) = hostLog s.
Proof.
  unfold onConversationChange. simpl.
  now rewrite hostLog_hideBubble, hostLog_hideQuoteChip.
Qed.

Lemma hostLog_checkUrl (s : State) : hostLog (checkUrl s) = hostLog s.
Proof.
  unfold checkUrl. destruct (negb (href (page s) =? lastUrl s)%string);
    [|reflexivity].
  now rewrite hostLog_onConversationChange.
Qed.

Lemma hostLog_readSelection (s : State) :
  hostLog (readSelection s) = hostLog s.
Proof.
  unfold readSelection. pose proof (hostLog_hideBubble s) as Hh.
  destruct (selection (page s)) as [sel|]; [|exact Hh].
  destruct (extractTextWithMath (Some sel)) as [text|e]; [|reflexivity].
  destruct (negb (truthy text)); [exact Hh|].
  destruct (negb (isValidSelectionArea (Some sel))); [exact Hh | reflexivity].
Qed.

Lemma hostLog_handleBubbleClick (s : State) :
  hostLog (handleBubbleClick s) = hostLog s.
Proof.
  unfold handleBubbleClick.
  destruct (negb (truthy (currentSelectedText s)));
    [apply hostLog_hideBubble|].
  simpl. now rewrite hostLog_hideBubble.
Qed.

Lemma composeAndSend_writes (s : State) : writesFrom s (composeAndSend s).
Proof.
  unfold composeAndSend.
  destruct (truthy (quotedText s)) eqn:Hq; cbn [negb];
    [|now apply writes_quiet].
  unfold injectFormattedText.
  destruct (canInject (page (hideQuoteChip s))); cbn [negb fst snd].
  - intros m Hm. simpl in Hm. rewrite hostLog_hideQuoteChip in Hm.
    apply in_app_or in Hm as [Hm|[Hm|[]]]; [now left|].
    right. inversion Hm; subst. split; [|reflexivity].
    intros E. rewrite E in Hq. discriminate.
  - apply writes_quiet, hostLog_hideQuoteChip.
Qed.

Lemma handleSendClick_writes (target : ClickTarget) (s : State) :
  writesFrom s (fst (handleSendClick target s)).
Proof.
  unfold handleSendClick.
  destruct (negb (truthy (quotedText s)) || isBypassingSend s);
    [now apply writes_quiet|].
  destruct (negb (isSendButtonClick target)); [now apply writes_quiet|].
  apply composeAndSend_writes.
Qed.

Lemma handleEnterToSend_writes (key : Key) (shiftKey : bool) (s : State) :
  writesFrom s (fst (handleEnterToSend key shiftKey s)).
Proof.
  unfold handleEnterToSend.
  destruct (negb (truthy (quotedText s)) || isBypassingSend s);
    [now apply writes_quiet|].
  destruct (negb (isEnter key) || shiftKey); [now apply writes_quiet|].
  destruct (inputEl (page s)); [|now apply writes_quiet].
  destruct (negb (inputFocused (page s))); [now apply writes_quiet|].
  apply composeAndSend_writes.
Qed.

(** What follows a handler adds no message. *)
Lemma writes_after (s s1 s2 : State) :
  writesFrom s s1 ->
  (forall m, In (Injected m) (hostLog s2) -> In (Injected m) (hostLog s1)) ->
  writesFrom s s2.
Proof. intros H1 H2 m Hm. apply H1. now apply H2. Qed.

Lemma reachesHost_send (e : HostEffect) (s : State) (m : string) :
  isInjection e = false ->
  In (Injected m) (hostLog (reachesHost e s)) -> In (Injected m) (hostLog s).
Proof.
  intros He Hm. simpl in Hm. apply in_app_or in Hm as [Hm|[Hm|[]]];
    [assumption|]. subst e. discriminate.
Qed.

Lemma dispatchClick_writes (origin : Origin) (target : ClickTarget)
  (s : State) :
  writesFrom s (dispatchClick origin target s).
Proof.
  unfold dispatchClick.
  pose proof (handleSendClick_writes target s) as H.
  destruct (handleSendClick target s) as [s1 stopped]. simpl in H.
  destruct stopped; [assumption|].
  apply (writes_after s s1); [assumption|]. intros m.
  destruct target.
  - now apply reachesHost_send.
  - now rewrite hostLog_handleBubbleClick.
  - now rewrite hostLog_hideQuoteChip.
  - exact (fun Hm => Hm).
Qed.

Lemma dispatchKeyDown_writes (origin : Origin) (key : Key)
  (shiftKey toInput onBubble : bool) (s : State) :
  writesFrom s (dispatchKeyDown origin key shiftKey toInput onBubble s).
Proof.
  unfold dispatchKeyDown.
  assert (H : writesFrom s
                (fst (handleEnterToSend key shiftKey (handleKeyDown key s)))).
  { apply (writes_then s (handleKeyDown key s));
      [apply writes_quiet, hostLog_handleKeyDown
      | apply handleEnterToSend_writes |].
    destruct key; try (intros m Hm; exact Hm).
    apply composed_unquoted. unfold handleKeyDown, hideQuoteChip. cbn.
    now destruct (chipEl (hideBubble s)). }
  destruct (handleEnterToSend key shiftKey (handleKeyDown key s))
    as [s2 stopped]. simpl in H.
  destruct stopped; [assumption|].
  apply (writes_after s s2); [assumption|]. intros m.
  destruct toInput.
  - destruct (isEnter key && negb shiftKey); [|exact (fun Hm => Hm)].
    now apply reachesHost_send.
  - destruct onBubble; [|exact (fun Hm => Hm)].
    destruct key; try exact (fun Hm => Hm);
      now rewrite hostLog_handleBubbleClick.
Qed.

Lemma triggerSend_writes (s : State) : writesFrom s (triggerSend s).
Proof.
  unfold triggerSend.
  apply (writes_after s
           (if sendButton (page s)
            then if sendDisabled (page s) then s
                 else dispatchClick Synthesized OnSendButton s
            else match inputEl (page s) with
                 | Some _ => dispatchKeyDown Synthesized Enter false true false s
                 | None => s
                 end)); [|exact (fun m Hm => Hm)].
  destruct (sendButton (page s));
    [destruct (sendDisabled (page s));
       [now apply writes_quiet | apply dispatchClick_writes]|].
  destruct (inputEl (page s));
    [apply dispatchKeyDown_writes | now apply writes_quiet].
Qed.

Lemma runTask_writes (task : Task) (s : State) : writesFrom s (runTask task s).
Proof.
  destruct task; simpl.
  - apply writes_quiet, hostLog_readSelection.
  - destruct (inputEl (page s)); now apply writes_quiet.
  - now apply writes_quiet.
  - apply triggerSend_writes.
  - now apply writes_quiet.
  - apply writes_quiet, hostLog_checkUrl.
Qed.

Lemma step_writes (s : State) (e : Event) : writesFrom s (step s e).
Proof.
  destruct e; cbn [step].
  - destruct (bubbleEl s && onBubble); now apply writes_quiet.
  - destruct (bubbleEl s && negb onBubble);
      [apply writes_quiet, hostLog_hideBubble | now apply writes_quiet].
  - apply writes_quiet, hostLog_hideBubble.
  - apply dispatchKeyDown_writes.
  - apply dispatchClick_writes.
  - now apply writes_quiet.
  - apply writes_quiet, hostLog_checkUrl.
  - now apply writes_quiet.
  - destruct (negb (truthy (quotedText s))); [now apply writes_quiet|].
    destruct removedResponse; [|now apply writes_quiet].
    apply writes_quiet, hostLog_onConversationChange.
  - now apply writes_quiet.
  - destruct (nth_error (pending s) i) as [[delay task]|];
      [|now apply writes_quiet].
    apply (writes_then s (withPending (removeNth i (pending s)) s));
      [now apply writes_quiet | apply runTask_writes |].
    apply composed_same; reflexivity.
  - now apply writes_quiet.
Qed.

Lemma heldBefore_more (p : Page) (events : list Event) (e : Event)
  (sel : Selection) :
  heldBefore p events sel -> heldBefore p (events ++ [e]) sel.
Proof.
  intros (before & after & -> & Hsel).
  exists before, (after ++ [e]). split; [now rewrite app_assoc | assumption].
Qed.

End ProvenanceFacts.

(** X21.  Every message that the script writes into the input was
    composed from the quote of a selection.  In every run, for each
    message in the log of the host there is a moment of the run at
    which the script held a quote that is not empty, which
    [extractTextWithMath] gave for a selection that the window had held
    up to then; and the message is what [composeAndSend] builds at that
    moment: the citation of the quote in the format the script then
    had, followed by the trimmed text that the input then held. *)
Theorem written_messages_quote_selections (p : Controller.Page)
  (events : list Controller.Event) (message : string) :
  In (Controller.Injected message)
    (Controller.hostLog (Controller.run (Controller.initial p) events)) ->
  exists before after sel,
    events = before ++ after /\
    let s := Controller.run (Controller.initial p) before in
    Controller.quotedText s <> "" /\
    Props.heldBefore p before sel /\
    Content.extractTextWithMath (Some sel)
    = Js.Ok (Controller.quotedText s) /\
    message
    = Controller.fullMessage (Controller.citationFormat s)
        (Controller.quotedText s)
        (Controller.getUserInput (Controller.page s)).
Proof.
  induction events as [|e events IH] using rev_ind; [contradiction|].
  rewrite SessionFacts.run_snoc. intros Hm.
  destruct (ProvenanceFacts.step_writes _ e message Hm) as [Hin|[Hq Hbuilt]].
  - destruct (IH Hin) as (before & after & sel & -> & Hrest).
    exists before, (after ++ [e]), sel.
    split; [now rewrite app_assoc | exact Hrest].
  - destruct (SessionFacts.run_traced p events) as [_ Hquoted].
    destruct (Hquoted Hq) as [(sel & Hheld & Hext & _) _].
    exists events, [e], sel. split; [reflexivity|].
    cbv zeta. split; [exact Hq|]. split; [exact Hheld|].
    split; [exact Hext | exact Hbuilt].
Qed.

Lemma written_messages_quote_selections_witness :
  let p := Samples.chatPage (Some (Samples.wholeEquation "x")) in
  let message :=
    Controller.fullMessage Content.DEFAULT_CITATION_FORMAT "$x$" "why?" in
  In (Controller.Injected message)
    (Controller.hostLog
       (Controller.run (Controller.initial p) Scenes.quoteAndSend)) /\
  exists before after sel,
    Scenes.quoteAndSend = before ++ after /\
    let s := Controller.run (Controller.initial p) before in
    Controller.quotedText s <> "" /\
    Props.heldBefore p before sel /\
    Content.extractTextWithMath (Some sel)
    = Js.Ok (Controller.quotedText s) /\
    message
    = Controller.fullMessage (Controller.citationFormat s)
        (Controller.quotedText s)
        (Controller.getUserInput (Controller.page s)).
Proof.
  intros p message.
  assert (Hin : In (Controller.Injected message)
                  (Controller.hostLog
                     (Controller.run (Controller.initial p)
                        Scenes.quoteAndSend)))
    by (vm_compute; left; reflexivity).
  split; [exact Hin|].
  exact (written_messages_quote_selections p Scenes.quoteAndSend message Hin).
Defined.

(* ===================================================================== *)
(** ** The citation format in use                                         *)
(* ===================================================================== *)

Module FormatFacts.
Import Js Dom Content Controller Props Ledger.

Lemma format_hideBubble (s : State) :
  citationFormat (hideBubble s) = citationFormat s.
Proof. unfold hideBubble. now destruct (bubbleEl s). Qed.

Lemma format_hideQuoteChip (s : State) :
  citationFormat (hideQuoteChip s) = citationFormat s.
Proof. unfold hideQuoteChip. simpl. now destruct (chipEl s). Qed.

Lemma format_handleKeyDown (key : Key) (s : State) :
  citationFormat (handleKeyDown key s) = citationFormat s.
Proof.
  destruct key; try reflexivity. unfold handleKeyDown. simpl.
  now rewrite format_hideQuoteChip, format_hideBubble.
Qed.

Lemma format_onConversationChange (s : State) :
  citationFormat (onConversationChange s) = citationFormat s.
Proof.
  unfold onConversationChange. simpl.
  now rewrite format_hideBubble, format_hideQuoteChip.
Qed.

Lemma format_checkUrl (s : State) :
  citationFormat (checkUrl s) = citationFormat s.
Proof.
  unfold checkUrl. destruct (negb (href (page s) =? lastUrl s)%string);
    [|reflexivity].
  now rewrite format_onConversationChange.
Qed.

Lemma format_readSelection (s : State) :
  citationFormat (readSelection s) = citationFormat s.
Proof.
  unfold readSelection. pose proof (format_hideBubble s) as Hh.
  destruct (selection (page s)) as [sel|]; [|exact Hh].
  destruct (extractTextWithMath (Some sel)) as [text|e]; [|reflexivity].
  destruct (negb (truthy text)); [exact Hh|].
  destruct (negb (isValidSelectionArea (Some sel))); [exact Hh | reflexivity].
Qed.

Lemma format_handleBubbleClick (s : State) :
  citationFormat (handleBubbleClick s) = citationFormat s.
Proof.
  unfold handleBubbleClick.
  destruct (negb (truthy (currentSelectedText s)));
    [apply format_hideBubble|].
  simpl. now rewrite format_hideBubble.
Qed.

Lemma format_composeAndSend (s : State) :
  citationFormat (composeAndSend s) = citationFormat s.
Proof.
  unfold composeAndSend.
  destruct (negb (truthy (quotedText s))); [reflexivity|].
  unfold injectFormattedText.
  destruct (canInject (page (hideQuoteChip s))); simpl;
    apply format_hideQuoteChip.
Qed.

Lemma format_handleSendClick (target : ClickTarget) (s : State) :
  citationFormat (fst (handleSendClick target s)) = citationFormat s.
Proof.
  unfold handleSendClick.
  destruct (negb (truthy (quotedText s)) || isBypassingSend s);
    [reflexivity|].
  destruct (negb (isSendButtonClick target)); [reflexivity|].
  apply format_composeAndSend.
Qed.

Lemma format_handleEnterToSend (key : Key) (shiftKey : bool) (s : State) :
  citationFormat (fst (handleEnterToSend key shiftKey s)) = citationFormat s.
Proof.
  unfold handleEnterToSend.
  destruct (negb (truthy (quotedText s)) || isBypassingSend s);
    [reflexivity|].
  destruct (negb (isEnter key) || shiftKey); [reflexivity|].
  destruct (inputEl (page s)); [|reflexivity].
  destruct (negb (inputFocused (page s))); [reflexivity|].
  apply format_composeAndSend.
Qed.

Lemma format_dispatchClick (origin : Origin) (target : ClickTarget)
  (s : State) :
  citationFormat (dispatchClick origin target s) = citationFormat s.
Proof.
  unfold dispatchClick.
  pose proof (format_handleSendClick target s) as H.
  destruct (handleSendClick target s) as [s1 stopped]. simpl in H.
  destruct stopped; [assumption|].
  destruct target; try assumption.
  - now rewrite format_handleBubbleClick.
  - now rewrite format_hideQuoteChip.
Qed.

Lemma format_dispatchKeyDown (origin : Origin) (key : Key)
  (shiftKey toInput onBubble : bool) (s : State) :
  citationFormat (dispatchKeyDown origin key shiftKey toInput onBubble s)
  = citationFormat s.
Proof.
  unfold dispatchKeyDown.
  pose proof (format_handleEnterToSend key shiftKey (handleKeyDown key s))
    as H. rewrite format_handleKeyDown in H.
  destruct (handleEnterToSend key shiftKey (handleKeyDown key s))
    as [s2 stopped]. simpl in H.
  destruct stopped; [assumption|].
  destruct toInput.
  - now destruct (isEnter key && negb shiftKey).
  - destruct onBubble; [|assumption].
    destruct key; try assumption; now rewrite format_handleBubbleClick.
Qed.

Lemma format_runTask (task : Task) (s : State) :
  citationFormat (runTask task s) = citationFormat s.
Proof.
  destruct task; simpl.
  - apply format_readSelection.
  - now destruct (inputEl (page s)).
  - reflexivity.
  - unfold triggerSend. simpl. destruct (sendButton (page s));
      [destruct (sendDisabled (page s));
         [reflexivity | apply format_dispatchClick]|].
    destruct (inputEl (page s)); [apply format_dispatchKeyDown | reflexivity].
  - reflexivity.
  - apply format_checkUrl.
Qed.

(** Only a value from the storage changes the format. *)
Lemma format_step (s : State) (e : Event) :
  citationFormat (step s e)
  = match e with
    | StorageValue value => orElse value DEFAULT_CITATION_FORMAT
    | _ => citationFormat s
    end.
Proof.
  destruct e; cbn [step]; try reflexivity.
  - now destruct (bubbleEl s && onBubble).
  - destruct (bubbleEl s && negb onBubble);
      [apply format_hideBubble | reflexivity].
  - apply format_hideBubble.
  - apply format_dispatchKeyDown.
  - apply format_dispatchClick.
  - apply format_checkUrl.
  - destruct (negb (truthy (quotedText s))); [reflexivity|].
    destruct removedResponse; [|reflexivity].
    apply format_onConversationChange.
  - destruct (nth_error (pending s) i) as [[delay task]|]; [|reflexivity].
    now rewrite format_runTask.
Qed.

Lemma formatFor_truthy (stored : option string) :
  truthy (formatFor stored) = true.
Proof.
  destruct stored as [value|]; [|reflexivity].
  unfold formatFor, orElse. destruct (truthy value) eqn:E;
    [assumption | reflexivity].
Qed.

End FormatFacts.

(** X22.  The citation format in use is the last stored one, or the
    default.  In every state that the script reaches, [citationFormat]
    is the last value that the script received from the storage, when
    there is one and it is not empty, and the default format otherwise;
    no other event changes it, and it is never empty. *)
Theorem format_follows_storage (p : Controller.Page)
  (events : list Controller.Event) :
  let s := Controller.run (Controller.initial p) events in
  Controller.citationFormat s = Ledger.formatFor (Ledger.lastStored events) /\
  Controller.citationFormat s <> "".
Proof.
  intros s.
  assert (H : Controller.citationFormat s
              = Ledger.formatFor (Ledger.lastStored events)).
  { unfold s. induction events as [|e events IH] using rev_ind;
      [reflexivity|].
    rewrite SessionFacts.run_snoc, FormatFacts.format_step.
    unfold Ledger.lastStored. rewrite fold_left_app. cbn [fold_left].
    destruct e; try exact IH. reflexivity. }
  split; [exact H|]. rewrite H. intros E.
  pose proof (FormatFacts.formatFor_truthy (Ledger.lastStored events)) as Ht.
  rewrite E in Ht. discriminate.
Qed.

(* ===================================================================== *)
(** ** The status line of the settings page                               *)
(* ===================================================================== *)

Module StatusFacts.
Import Js Popup PopupPage.

Lemma shown_cleared (s : State) : statusText s = "" -> statusShown s.
Proof. unfold statusShown. intros ->. now intros H. Qed.

Lemma showStatus_success (message : string) (s : State) :
  statusShown (showStatus message "success" s).
Proof.
  intros _. split; [now right|]. simpl. apply in_or_app. right. now left.
Qed.

Lemma shown_more (s s' : State) (more : list Callback) :
  statusText s' = statusText s ->
  statusClass s' = statusClass s ->
  pending s' = pending s ++ more ->
  statusShown s -> statusShown s'.
Proof.
  unfold statusShown. intros -> -> -> H Hne.
  destruct (H Hne) as [Hc Hin]. split; [assumption|].
  apply in_or_app. now left.
Qed.

Lemma in_removeNth (l : list Callback) (c : Callback) :
  forall i d,
    nth_error l i = Some d -> d <> c -> In c l ->
    In c (Controller.removeNth i l).
Proof.
  induction l as [|x l IH]; intros i d Hnth Hd Hin; [contradiction|].
  destruct i as [|i]; simpl in Hnth |- *.
  - inversion Hnth; subst. destruct Hin as [->|Hin]; [congruence | assumption].
  - destruct Hin as [->|Hin]; [now left | right; now apply (IH i d)].
Qed.

Lemma step_shown (s : State) (e : Event) : statusShown s -> statusShown (step s e).
Proof.
  intros H. destruct e as [value| | |i]; simpl.
  - revert H. apply (shown_more s _ []); try reflexivity.
    simpl. now rewrite app_nil_r.
  - unfold saveClick.
    destruct (negb (includes "[SELECTED]" (fromDisplay (formatInput s)))).
    + intros _. split; [now left|]. simpl. apply in_or_app. right. now left.
    + revert H. now apply (shown_more s _ [Stored "Saved!"]).
  - unfold resetClick.
    revert H. now apply (shown_more s _ [Stored "Reset to default."]).
  - destruct (nth_error (pending s) i) as [c|] eqn:Enth; [|assumption].
    destruct c as [|message|]; cbn [runCallback].
    + intros Hne. simpl in Hne. destruct (H Hne) as [Hc Hin].
      split; [exact Hc|]. simpl.
      apply (in_removeNth (pending s) ClearStatus i Loaded);
        [assumption | discriminate | assumption].
    + apply showStatus_success.
    + now apply shown_cleared.
Qed.

Lemma run_shown (events : list Event) :
  forall s, statusShown s -> statusShown (run s events).
Proof.
  induction events as [|e events IH]; intros s H; [assumption|].
  apply IH. now apply step_shown.
Qed.

End StatusFacts.

(** X23.  A status message of the settings page never stays.  On a page
    whose status line is empty when it opens, in every state reached,
    a message that is shown has the class of an error or of a success,
    and a timer that clears it is waiting. *)
Theorem status_message_is_cleared (shown className : string)
  (stored : option string) (events : list PopupPage.Event) :
  let s :=
    PopupPage.run (PopupPage.opened shown "" className stored) events in
  PopupPage.statusText s <> "" ->
  (PopupPage.statusClass s = "status error" \/
   PopupPage.statusClass s = "status success") /\
  In PopupPage.ClearStatus (PopupPage.pending s).
Proof.
  intros s. apply (StatusFacts.run_shown events).
  now apply StatusFacts.shown_cleared.
Qed.

Lemma status_message_is_cleared_witness :
  let s :=
    PopupPage.run (PopupPage.opened "" "" "status" None)
      [ PopupPage.Runs 0; PopupPage.UserEdits "no placeholder";
        PopupPage.SaveClick ] in
  PopupPage.statusText s
  = "Format must contain the [SELECTED] placeholder." /\
  PopupPage.storage s = None /\
  (PopupPage.statusClass s = "status error" \/
   PopupPage.statusClass s = "status success") /\
  In PopupPage.ClearStatus (PopupPage.pending s).
Proof.
  intros s. split; [reflexivity|]. split; [reflexivity|].
  apply (status_message_is_cleared "" "status" None
           [ PopupPage.Runs 0; PopupPage.UserEdits "no placeholder";
             PopupPage.SaveClick ]).
  discriminate.
Defined.

(** X24.  A block of inline markup is serialized as its text and one
    line feed.  For a block-level element ([p], [div], a heading, [li],
    ...) whose children hold inline markup only, [getTextFromFragment]
    returns the [textContent] of the element, followed by a line feed
    when this text is not empty and does not end with one already. *)
Theorem block_text_ends_the_line (tag : string)
  (attributes : list (string * string)) (children : list Dom.node) :
  existsb (String.eqb tag) Content.BLOCK_TAGS = true ->
  forallb Shapes.inlineOnly children = true ->
  let el := Dom.Element tag attributes children in
  Content.getText el
  = if Js.truthy (Dom.textContent el) && negb (Js.endsWithLF (Dom.textContent el))
    then (Dom.textContent el ++ String Js.LF "")%string
    else Dom.textContent el.
Proof.
  intros Hblock Hinline el.
  assert (Htext : Content.concatStrings (map (Content.getTextFromFragment (Dom.height el))
                                   children)
                  = Dom.textContent el).
  { rewrite (InlineFacts.textContent_children el). unfold el. cbn [Dom.childNodes].
    fold el.
    rewrite (map_ext_in (Content.getTextFromFragment (Dom.height el))
               Content.getText children)
      by (intros c Hc; apply SerializerFacts.getText_enough,
                         (SerializerFacts.child_lower el); exact Hc).
    apply InlineFacts.shownText_children. rewrite Forall_forall.
    intros c Hc. apply InlineFacts.getText_shownText.
    rewrite forallb_forall in Hinline. now apply Hinline. }
  unfold Content.getText. fold el.
  change (Content.getTextFromFragment (S (Dom.height el)) el)
    with (if (tag =? "table")%string then
            (String Js.LF
               (Content.tableToMarkdown
                  (Content.getTextFromFragment (Dom.height el)) el)
             ++ String Js.LF "")%string
          else if (tag =? "br")%string then String Js.LF ""
          else if ((tag =? "style") || (tag =? "script"))%string then ""
          else
            if existsb (String.eqb tag) Content.BLOCK_TAGS
               && Js.truthy
                    (Content.concatStrings
                       (map (Content.getTextFromFragment (Dom.height el))
                          children))
               && negb
                    (Js.endsWithLF
                       (Content.concatStrings
                          (map (Content.getTextFromFragment (Dom.height el))
                             children)))
            then
              (Content.concatStrings
                 (map (Content.getTextFromFragment (Dom.height el)) children)
               ++ String Js.LF "")%string
            else
              Content.concatStrings
                (map (Content.getTextFromFragment (Dom.height el)) children)).
  rewrite Htext, Hblock. cbn [andb].
  destruct (tag =? "table")%string eqn:E1;
    [apply String.eqb_eq in E1; subst tag; discriminate|].
  destruct (tag =? "br")%string eqn:E2;
    [apply String.eqb_eq in E2; subst tag; discriminate|].
  destruct (tag =? "style")%string eqn:E3;
    [apply String.eqb_eq in E3; subst tag; discriminate|].
  destruct (tag =? "script")%string eqn:E4;
    [apply String.eqb_eq in E4; subst tag; discriminate|].
  reflexivity.
Qed.

Lemma block_text_ends_the_line_witness :
  existsb (String.eqb "p") Content.BLOCK_TAGS = true /\
  forallb Shapes.inlineOnly (Dom.childNodes Scenes.linkParagraph) = true /\
  Content.getText Scenes.linkParagraph
  = (Dom.textContent Scenes.linkParagraph ++ String Js.LF "")%string /\
  Dom.textContent Scenes.linkParagraph = "see this".
Proof.
  split; [reflexivity|]. split; [reflexivity|]. split; [|reflexivity].
  apply (block_text_ends_the_line "p" []
           [ Dom.Text "see ";
             Dom.Element "a" [("href", "#")] [Dom.Text "this"] ]);
    reflexivity.
Defined.

(** X25.  A selection outside the excluded regions shows the bubble.
    When the callback of [handleMouseUp] runs on a selection for which
    [extractTextWithMath] gives a text that is not empty, and the common
    ancestor of the selection lies in none of the excluded regions, the
    bubble is shown, whether or not the selection lies in a known
    response container; the script keeps the extracted text and the
    trimmed visual text of the selection, and nothing else changes but
    the list of callbacks. *)
Theorem accepted_selection_shows_bubble (s : Controller.State)
  (sel : Dom.Selection) (text : string) (i delay : nat) :
  Controller.selection (Controller.page s) = Some sel ->
  Content.extractTextWithMath (Some sel) = Js.Ok text ->
  text <> "" ->
  ~ Props.liesInside (Dom.commonAncestorContainer (Dom.getRangeAt0 sel))
      Content.EXCLUDE_SELECTORS ->
  nth_error (Controller.pending s) i = Some (delay, Controller.ReadSelection) ->
  let s' := Controller.step s (Controller.TimerFires i) in
  Controller.bubbleVisible s' = true /\
  Controller.bubbleEl s' = true /\
  Controller.currentSelectedText s' = text /\
  Controller.currentDisplayText s' = Js.trim (Dom.toString sel) /\
  Controller.quotedText s' = Controller.quotedText s /\
  Controller.hostLog s' = Controller.hostLog s /\
  Controller.pending s' = Controller.removeNth i (Controller.pending s).
Proof.
  intros Hsel Hext Htext Hout Hnth s'.
  assert (Hcount : (Dom.rangeCount sel =? 0)%nat = false).
  { destruct (Dom.rangeCount sel =? 0)%nat eqn:E; [|reflexivity].
    unfold Content.extractTextWithMath in Hext. rewrite E in Hext.
    inversion Hext; subst. now contradiction Htext. }
  assert (Hvalid : Content.isValidSelectionArea (Some sel) = true).
  { unfold Content.isValidSelectionArea. rewrite Hcount.
    destruct (Content.isInsideSelector _ Content.EXCLUDE_SELECTORS) eqn:E.
    - apply AreaFacts.isInsideSelector_spec in E. now contradiction Hout.
    - now destruct (Content.isInsideSelector _ Content.RESPONSE_SELECTORS). }
  unfold s'. cbn [Controller.step]. rewrite Hnth. cbn [Controller.runTask].
  unfold Controller.readSelection.
  change (Controller.selection
            (Controller.page
               (Controller.withPending
                  (Controller.removeNth i (Controller.pending s)) s)))
    with (Controller.selection (Controller.page s)).
  rewrite Hsel, Hext, Hvalid, (StringFacts.truthy_nonempty _ Htext).
  cbn. repeat split; reflexivity.
Qed.

Lemma accepted_selection_shows_bubble_witness :
  let sel := Samples.wholeEquation "x" in
  let s :=
    Controller.run (Controller.initial (Samples.chatPage (Some sel)))
      [Controller.MouseUp false] in
  let s' := Controller.step s (Controller.TimerFires 0) in
  Content.extractTextWithMath (Some sel) = Js.Ok "$x$" /\
  Controller.bubbleVisible s' = true /\
  Controller.bubbleEl s' = true /\
  Controller.currentSelectedText s' = "$x$" /\
  Controller.currentDisplayText s' = Js.trim (Dom.toString sel) /\
  Controller.quotedText s' = Controller.quotedText s /\
  Controller.hostLog s' = Controller.hostLog s /\
  Controller.pending s' = Controller.removeNth 0 (Controller.pending s).
Proof.
  intros sel s s'. split; [reflexivity|].
  apply (accepted_selection_shows_bubble s sel "$x$" 0 10);
    try reflexivity; [discriminate|].
  intros Hin. apply AreaFacts.isInsideSelector_spec in Hin. discriminate.
Defined.

(* ===================================================================== *)
(** ** The extraction of one math region                                  *)
(* ===================================================================== *)

Module RegionFacts.
Import Js Dom Content Props StringFacts DomFacts ExtractFacts PassFacts.













End RegionFacts.




(** A KaTeX rendering of [x^2] on a page without [data-math]
    attributes, selected from end to end. *)
Lemma katex_region_example :
  let sel := Samples.wholeKatex "x^2" in
  Props.coversKatexElement sel "x^2" false /\
  Content.extractTextWithMath (Some sel) = Js.Ok "$x^2$".
Proof.
  split; [|reflexivity].
  split; [reflexivity|]. split; [reflexivity|]. split; [constructor|].
  exists (Samples.katex "x^2"),
    (Dom.Element "annotation" [("encoding", "application/x-tex")]
       [Dom.Text "x^2"]).
  repeat split.
Qed.

(** A MathJax 3 rendering with its source in a script, shown as a
    block; and one with its source in its label. *)
Lemma mjx_region_example :
  let sel := Samples.wholeLine [Samples.mjxContainer "x^2"] "x2" in
  let sel' := Samples.wholeLine [Samples.mjxLabelled "x^2"] "x2" in
  Props.coversMjxContainer sel "x^2" true /\
  Content.extractTextWithMath (Some sel) = Js.Ok "$$x^2$$" /\
  Props.coversMjxContainer sel' "x^2" false /\
  Content.extractTextWithMath (Some sel') = Js.Ok "$x^2$".
Proof.
  split; [|split; [reflexivity|split; [|reflexivity]]].
  - split; [reflexivity|]. exists (Samples.mjxContainer "x^2"). repeat split.
  - split; [reflexivity|]. exists (Samples.mjxLabelled "x^2"). repeat split.
Qed.

(** A MathJax 2 rendering with its script. *)
Lemma mathjax2_region_example :
  let sel := Samples.wholeLine (Samples.mathJax2 "E=mc^2") "E=mc2" in
  Props.coversMathJax2 sel "E=mc^2" false /\
  Content.extractTextWithMath (Some sel) = Js.Ok "$E=mc^2$".
Proof.
  split; [|reflexivity].
  split; [reflexivity|].
  exists (Dom.Element "span" [("class", "MathJax")] [Dom.Text "E=mc2"]),
    (Dom.Element "script" [("type", "math/tex")] [Dom.Text "E=mc^2"]).
  repeat split.
Qed.

(** A MathML element with its annotation, shown as a block. *)
Lemma mathml_region_example :
  let sel := Samples.wholeLine [Samples.mathML "x^2"] "x2" in
  Props.coversMathML sel "x^2" true /\
  Content.extractTextWithMath (Some sel) = Js.Ok "$$x^2$$".
Proof.
  split; [|reflexivity].
  split; [reflexivity|].
  exists (Samples.mathML "x^2"),
    (Dom.Element "annotation" [("encoding", "application/x-tex")]
       [Dom.Text "x^2"]).
  repeat split.
Qed.

(* ===================================================================== *)
(** ** What the input holds after a message was written                   *)
(* ===================================================================== *)

Module InjectionFacts.
Import Js Dom Content Controller Shapes StringFacts.

Lemma splitWhen_cons (isSep : ascii -> bool) (s : string) :
  exists h t, splitWhen isSep s = h :: t.
Proof.
  induction s as [|c s (h & t & IH)]; [now exists "", []|].
  cbn [splitWhen]. destruct (isSep c); [now exists "", (splitWhen isSep s)|].
  rewrite IH. now exists (String c h), t.
Qed.

(** The paragraphs written for a text hold the text without its line
    feeds. *)
Lemma paragraphsText_withoutLF (text : string) :
  paragraphsText text = withoutLF text.
Proof.
  unfold paragraphsText, split.
  induction text as [|c text IH]; [reflexivity|].
  cbn [splitWhen withoutLF]. destruct (c =? LF)%char; [exact IH|].
  destruct (splitWhen_cons (fun d => (d =? LF)%char) text) as (h & t & E).
  rewrite E in IH |- *. cbn [concatStrings fold_right] in IH |- *.
  cbn [String.append]. now rewrite IH.
Qed.

(** A message of two lines written to a content-editable input is read
    back by [getUserInput] as one line. *)
Lemma written_message_read_back :
  let message := String "a" (String LF "b") in
  let editable := Samples.quoting (Samples.chatPage None) in
  getUserInput (page (fst (injectFormattedText message editable))) = "ab".
Proof. reflexivity. Qed.

End InjectionFacts.

(* ===================================================================== *)
(** ** One send for one gesture                                           *)
(* ===================================================================== *)

Module GestureFacts.
Import Js Dom Content Controller Props Ledger StringFacts ControllerFacts
  BypassFacts LedgerFacts.








End GestureFacts.




